(** * Royal_Chess: the room coordinator of [app.js]

    A shallow embedding of the socket handlers of [app.js] (join, reconnect,
    move, chat, resign, draw, reset, disconnect with its grace timer, and the
    three periodic sweeps), with the properties of the specification stated
    and settled against it.

    Conventions of the embedding.
    - A JavaScript string is its list of UTF-16 code units.
    - [Date.now()], [Math.random()] and [generateSessionId()] are inputs of
      the handler that calls them.
    - [gameRooms] holds references: a room object lives in [heap] and the
      registry maps a room id to its address, because the grace timer of
      [handleDisconnection] captures the room object, not its id.
    - [socket.emit] and [io.to(x).emit] are recorded as an output list of
      (target, event) pairs, in program order. [socket.join] only decides
      who receives a broadcast; targets stay symbolic.
    - chess.js is a collaborator: its interface is the class [Engine].
    - Payloads have the shape the client sends (an object for [joinRoom],
      [chatMessage] and [respondToDraw]); their fields may be anything.
    - [gameRooms] and [playerSessions] are plain objects: [o[k]] finds an
      own property or, failing that, a member every object inherits
      ([constructor], [toString], ...). [member] is that lookup. A session
      token that names an inherited member makes [reconnect] work on the
      room and the role [undefined]; a room id that names one makes
      [joinRoom] throw on [room.players].
    - An exception that no [try] encloses ends the handler that raised
      it. [app.js] installs no handler for uncaught exceptions, so by
      Node's default it ends the server process as well: there is no state
      after it but the one before the call. *)

From Stdlib Require Import ZArith NArith Ascii String List Lia.
From stdpp Require Import base option list gmap strings fin_maps pretty.

Open Scope Z_scope.

(* ===================================================================== *)
(** ** JavaScript strings and values                                      *)
(* ===================================================================== *)

Definition jsstring := list N.

(** A literal of the source, as code units. *)
Definition js (s : string) : jsstring :=
  map N_of_ascii (list_ascii_of_string s).

(** The payload fields the handlers inspect with [typeof] or truthiness. *)
Inductive JsVal :=
| JUndefined
| JStr (s : jsstring)
| JOther.

(** The names of the members every plain object inherits from
    [Object.prototype]. Each of them is truthy, and none of them has a
    property [roomId], [role] or [players]. *)
Definition objectPrototypeKeys : list jsstring :=
  map js ["constructor"; "__defineGetter__"; "__defineSetter__";
          "hasOwnProperty"; "__lookupGetter__"; "__lookupSetter__";
          "isPrototypeOf"; "propertyIsEnumerable"; "toString"; "valueOf";
          "__proto__"; "toLocaleString"]%string.

Definition inheritedKey (k : jsstring) : bool :=
  bool_decide (k ∈ objectPrototypeKeys).

(** What [o[k]] finds in a plain object [o] whose own properties are the
    entries of a finite map: an own property, else an inherited member,
    else nothing ([undefined]). *)
Inductive Member (A : Type) :=
| Own (a : A)
| Inherited
| Absent.
Arguments Own {A}.
Arguments Inherited {A}.
Arguments Absent {A}.

Definition member {A} (o : gmap jsstring A) (k : jsstring) : Member A :=
  match o !! k with
  | Some a => Own a
  | None => if inheritedKey k then Inherited else Absent
  end.

(** [\s] of a regular expression and the characters [trim()] removes:
    TAB LF VT FF CR SP NBSP, U+1680, U+2000..U+200A, U+2028, U+2029,
    U+202F, U+205F, U+3000, U+FEFF. *)
Definition isSpace (c : N) : bool :=
  ((9 <=? c) && (c <=? 13) || (c =? 32) || (c =? 160) || (c =? 5760)
   || (8192 <=? c) && (c <=? 8202) || (c =? 8232) || (c =? 8233)
   || (c =? 8239) || (c =? 8287) || (c =? 12288) || (c =? 65279))%N.

Fixpoint dropSpaces (s : jsstring) : jsstring :=
  match s with
  | c :: s' => if isSpace c then dropSpaces s' else s
  | [] => []
  end.

(** [String.prototype.trim]. *)
Definition trim (s : jsstring) : jsstring :=
  rev (dropSpaces (rev (dropSpaces s))).

(** The default [allowedChars] of [validateInput], one code unit at a time:
    letters, digits, [\s], and the punctuation - _ . , ! ? ( ) together with
    the apostrophe (39) and the double quote (34). *)
Definition allowedChar (c : N) : bool :=
  ((97 <=? c) && (c <=? 122) || (65 <=? c) && (c <=? 90)
   || (48 <=? c) && (c <=? 57) || isSpace c
   || (c =? 45) || (c =? 95) || (c =? 46) || (c =? 44) || (c =? 33)
   || (c =? 63) || (c =? 39) || (c =? 34) || (c =? 40) || (c =? 41))%N.

Definition allowedChars (s : jsstring) : bool := forallb allowedChar s.

(** [validateInput(input, maxLength)] with the default pattern. *)
Definition validateInput (input : JsVal) (maxLength : nat) : option jsstring :=
  match input with
  | JStr [] | JUndefined | JOther => None
  | JStr s =>
      let trimmed := trim s in
      if (length trimmed =? 0)%nat || (maxLength <? length trimmed)%nat then None
      else if negb (allowedChars trimmed) then None
      else Some trimmed
  end.

(** [String.prototype.toUpperCase] belongs to the runtime: outside ASCII it
    follows the Unicode case tables, so it is an interface here. *)
Class JsRuntime := { toUpperCase : jsstring -> jsstring }.

(** [/^[A-Z0-9\-]{4,12}$/]. *)
Definition roomPatternChar (c : N) : bool :=
  ((65 <=? c) && (c <=? 90) || (48 <=? c) && (c <=? 57) || (c =? 45))%N.

Definition roomPattern (s : jsstring) : bool :=
  (4 <=? length s)%nat && (length s <=? 12)%nat && forallb roomPatternChar s.

Definition validateRoomId `{JsRuntime} (roomId : JsVal) : bool :=
  match roomId with
  | JStr [] | JUndefined | JOther => false
  | JStr s => roomPattern (toUpperCase s)
  end.

(** Upper-casing of ASCII letters, the runtime used in the scenarios below. *)
Definition asciiUpper (c : N) : N :=
  if ((97 <=? c) && (c <=? 122))%N then (c - 32)%N else c.

Definition AsciiRuntime : JsRuntime := {| toUpperCase := map asciiUpper |}.

(* ===================================================================== *)
(** ** The rules engine (chess.js)                                        *)
(* ===================================================================== *)

Inductive Color := cw | cb.

Record MoveResult := { san : jsstring; color : Color }.

(** What [chess.move(m)] can do: return a move object (with the position
    advanced), return a falsy value, or throw. *)
Inductive MoveOutcome (P : Type) :=
| MoveOk (p' : P) (r : MoveResult)
| MoveNull
| MoveThrow (msg : jsstring).
Arguments MoveOk {P}.
Arguments MoveNull {P}.
Arguments MoveThrow {P}.

(** The handlers test the end-of-game queries for existence before they call
    them ([chess.game_over && chess.game_over()]), so each is optional. *)
Class Engine := {
  Position : Type;
  MoveInput : Type;
  newChess : Position;
  turn : Position -> Color;
  fen : Position -> jsstring;
  move : Position -> MoveInput -> MoveOutcome Position;
  game_over : option (Position -> bool);
  in_checkmate : option (Position -> bool);
  in_stalemate : option (Position -> bool);
  in_threefold_repetition : option (Position -> bool);
  insufficient_material : option (Position -> bool);
  in_draw : option (Position -> bool)
}.

(** [m && m()] for an optional method. *)
Definition callIfPresent {P} (m : option (P -> bool)) (p : P) : bool :=
  match m with
  | Some f => f p
  | None => false
  end.

(* ===================================================================== *)
(** ** Data model                                                         *)
(* ===================================================================== *)

Inductive Seat := SWhite | SBlack.

(** The role strings ['white'], ['black'], ['spectator']. *)
Inductive Role := RoleWhite | RoleBlack | RoleSpectator.

Definition roleOfSeat (s : Seat) : Role :=
  match s with SWhite => RoleWhite | SBlack => RoleBlack end.

Definition opponent (s : Seat) : Seat :=
  match s with SWhite => SBlack | SBlack => SWhite end.

(** [room.players]: an object with the optional properties [white] and
    [black], each a socket id. [reconnect] writes [room.players[role]]
    with the role of the session it found, which is [undefined] for an
    inherited member: [undefinedKey] is the property named [undefined]. *)
Record Players := {
  white : option jsstring;
  black : option jsstring;
  undefinedKey : option jsstring
}.

Definition seatOf (p : Players) (s : Seat) : option jsstring :=
  match s with SWhite => white p | SBlack => black p end.

Definition setSeat (p : Players) (s : Seat) (v : option jsstring) : Players :=
  match s with
  | SWhite => {| white := v; black := black p;
                 undefinedKey := undefinedKey p |}
  | SBlack => {| white := white p; black := v;
                 undefinedKey := undefinedKey p |}
  end.

(** [players[undefined] = v]. *)
Definition setUndefinedKey (p : Players) (v : option jsstring) : Players :=
  {| white := white p; black := black p; undefinedKey := v |}.

(** Truthiness of a property holding a string: absent and the empty string
    are falsy. *)
Definition truthy (v : option jsstring) : bool :=
  match v with
  | Some (_ :: _) => true
  | _ => false
  end.

Record MoveRecord := { mr_move : jsstring; mr_color : Color; mr_timestamp : Z }.

(** [id] is [Date.now() + Math.random()], kept as its two summands. *)
Record ChatEntry := {
  ce_id : Z * N;
  ce_message : jsstring;
  ce_playerRole : Role;
  ce_timestamp : Z;
  ce_socketId : jsstring
}.

Record Session := { s_roomId : jsstring; s_role : Seat }.

Record Limit := { count : Z; resetTime : Z }.

(** A pending [setTimeout] of [handleDisconnection]: the room object and the
    room id its closure captured, and the time it is due. *)
Record Timer := { t_room : nat; t_roomId : jsstring; t_due : Z }.

(** Per-connection state: [socket.roomId] and the connection's
    [disconnectTimers] map, which is only ever keyed by the connection's own
    id and so holds at most one timer. *)
Record Conn := { roomId : option jsstring; disconnectTimer : option Timer }.

Definition freshConn : Conn := {| roomId := None; disconnectTimer := None |}.

Inductive Occupancy := connected | waiting.

Inductive EndType :=
| checkmate | stalemate | threefold | insufficient | draw
| resignation | draw_agreement.

(** [io.to(undefined)] addresses the room keyed by the value [undefined],
    which a connection enters by [socket.join(undefined)]; it is not the
    room named by the string [undefined]. *)
Inductive Target :=
| ToSocket (sid : jsstring)      (* socket.emit *)
| ToRoom (room : jsstring)       (* io.to(room).emit *)
| ToUndefined.                   (* io.to(undefined).emit *)

Section Coordinator.
Context `{R : JsRuntime} `{E : Engine}.

Record Room := {
  chess : Position;
  players : Players;
  currentPlayer : Color;
  spectators : list jsstring;
  moveHistory : list MoveRecord;
  chatHistory : list ChatEntry;
  createdAt : Z;
  lastActivity : Z
}.

Inductive Event :=
| EvError (message : string)
| EvSessionId (sessionId : jsstring)
| EvRoleUnavailable (requested : Seat) (message : string)
| EvRoleUnavailableUndefined (message : string)  (* requested: undefined *)
| EvRoleAssigned (role : Role)
| EvRoleAssignedUndefined                        (* roleAssigned, undefined *)
| EvBoardState (fen : jsstring)
| EvMoveHistory (history : list MoveRecord)
| EvChatHistory (history : list ChatEntry)
| EvPlayersUpdate (white black : Occupancy) (spectators : nat)
| EvMove (m : MoveInput)
| EvMoveError (m : MoveInput)
| EvGameEnd (type : EndType) (winner resigningPlayer : option Seat)
            (message : option string)
| EvChatError (message : string)
| EvChatMessage (entry : ChatEntry)
| EvGameReset
| EvDrawOfferError (message : string)
| EvDrawOfferReceived (from : Seat)
| EvDrawOfferSent
| EvDrawOfferDeclined (by_ : Seat).

Definition Emit : Type := Target * Event.

Record State := {
  heap : gmap nat Room;
  nextRef : nat;
  gameRooms : gmap jsstring nat;
  playerSessions : gmap jsstring Session;
  rateLimits : gmap jsstring Limit;
  conns : gmap jsstring Conn
}.

Definition initState : State :=
  {| heap := ∅; nextRef := 0%nat; gameRooms := ∅; playerSessions := ∅;
     rateLimits := ∅; conns := ∅ |}.

(** *** Field updates *)

Definition setPlayers (r : Room) (p : Players) : Room :=
  {| chess := chess r; players := p; currentPlayer := currentPlayer r;
     spectators := spectators r; moveHistory := moveHistory r;
     chatHistory := chatHistory r; createdAt := createdAt r;
     lastActivity := lastActivity r |}.

Definition setSpectators (r : Room) (l : list jsstring) : Room :=
  {| chess := chess r; players := players r; currentPlayer := currentPlayer r;
     spectators := l; moveHistory := moveHistory r;
     chatHistory := chatHistory r; createdAt := createdAt r;
     lastActivity := lastActivity r |}.

Definition setLastActivity (r : Room) (t : Z) : Room :=
  {| chess := chess r; players := players r; currentPlayer := currentPlayer r;
     spectators := spectators r; moveHistory := moveHistory r;
     chatHistory := chatHistory r; createdAt := createdAt r;
     lastActivity := t |}.

Definition setChatHistory (r : Room) (h : list ChatEntry) : Room :=
  {| chess := chess r; players := players r; currentPlayer := currentPlayer r;
     spectators := spectators r; moveHistory := moveHistory r;
     chatHistory := h; createdAt := createdAt r;
     lastActivity := lastActivity r |}.

Definition setHeap (st : State) (h : gmap nat Room) : State :=
  {| heap := h; nextRef := nextRef st; gameRooms := gameRooms st;
     playerSessions := playerSessions st; rateLimits := rateLimits st;
     conns := conns st |}.

Definition setGameRooms (st : State) (g : gmap jsstring nat) : State :=
  {| heap := heap st; nextRef := nextRef st; gameRooms := g;
     playerSessions := playerSessions st; rateLimits := rateLimits st;
     conns := conns st |}.

Definition setPlayerSessions (st : State) (s : gmap jsstring Session) : State :=
  {| heap := heap st; nextRef := nextRef st; gameRooms := gameRooms st;
     playerSessions := s; rateLimits := rateLimits st; conns := conns st |}.

Definition setRateLimits (st : State) (l : gmap jsstring Limit) : State :=
  {| heap := heap st; nextRef := nextRef st; gameRooms := gameRooms st;
     playerSessions := playerSessions st; rateLimits := l; conns := conns st |}.

Definition setConns (st : State) (c : gmap jsstring Conn) : State :=
  {| heap := heap st; nextRef := nextRef st; gameRooms := gameRooms st;
     playerSessions := playerSessions st; rateLimits := rateLimits st;
     conns := c |}.

(** *** Access paths *)

(** The connection object of a socket id; a connection that has set nothing
    yet has no entry. *)
Definition connOf (st : State) (sid : jsstring) : Conn :=
  default freshConn (conns st !! sid).

Definition setConn (st : State) (sid : jsstring) (c : Conn) : State :=
  setConns st (<[sid := c]> (conns st)).

(** [gameRooms[roomId]] for an own key: the address and the room object. *)
Definition roomAt (st : State) (rid : jsstring) : option (nat * Room) :=
  match gameRooms st !! rid with
  | Some ref =>
      match heap st !! ref with
      | Some room => Some (ref, room)
      | None => None
      end
  | None => None
  end.

(** An assignment to a field of the room object at [ref]. *)
Definition storeRoom (st : State) (ref : nat) (room : Room) : State :=
  setHeap st (<[ref := room]> (heap st)).

(** The guard [const roomId = socket.roomId;
    if (!roomId || !gameRooms[roomId]) return;] shared by the handlers.
    [socket.roomId] is assigned by [joinRoom], once [getOrCreateRoom] has
    returned, and by [reconnect], from a session or as [undefined]; it is
    looked up among the own keys of [gameRooms]. *)
Definition currentRoom (st : State) (sid : jsstring)
  : option (jsstring * nat * Room) :=
  match roomId (connOf st sid) with
  | Some (c :: rid') =>
      match roomAt st (c :: rid') with
      | Some (ref, room) => Some (c :: rid', ref, room)
      | None => None
      end
  | _ => None
  end.

Definition occupancy (v : option jsstring) : Occupancy :=
  if truthy v then connected else waiting.

(** The [playersUpdate] payload computed from a room. *)
Definition playersUpdate (room : Room) : Event :=
  EvPlayersUpdate (occupancy (white (players room)))
                  (occupancy (black (players room)))
                  (length (spectators room)).

(* ===================================================================== *)
(** ** Rate limiter                                                       *)
(* ===================================================================== *)

(** The key [`${socketId}-${action}`]. *)
Definition rateKey (socketId action : jsstring) : jsstring :=
  socketId ++ js "-" ++ action.

(** [checkRateLimit(socketId, action, maxRequests, windowMs)] at time [now]:
    the verdict and the table afterwards. *)
Definition checkRateLimit (socketId action : jsstring) (maxRequests windowMs : Z)
    (now : Z) (limits : gmap jsstring Limit) : bool * gmap jsstring Limit :=
  let key := rateKey socketId action in
  match limits !! key with
  | None =>
      (true, <[key := {| count := 1; resetTime := now + windowMs |}]> limits)
  | Some limit =>
      if resetTime limit <? now then
        (true, <[key := {| count := 1; resetTime := now + windowMs |}]> limits)
      else if maxRequests <=? count limit then
        (false, limits)
      else
        (true, <[key := {| count := count limit + 1;
                           resetTime := resetTime limit |}]> limits)
  end.

(** The ten-minute sweep of the rate-limit table. *)
Definition sweepRateLimits (now : Z) (st : State) : State :=
  setRateLimits st
    (omap (fun limit : Limit =>
             if resetTime limit + 300000 <? now then None else Some limit)
          (rateLimits st)).

(* ===================================================================== *)
(** ** Room registry                                                      *)
(* ===================================================================== *)

Definition newRoom (now : Z) : Room :=
  {| chess := newChess; players := {| white := None; black := None; undefinedKey := None |};
     currentPlayer := cw; spectators := []; moveHistory := [];
     chatHistory := []; createdAt := now; lastActivity := now |}.

(** [getOrCreateRoom(roomId)]: the state afterwards and what it returns,
    the address and contents of a room object or, for [None], an inherited
    member of [gameRooms]. [!gameRooms[roomId]] is false for such a member,
    so no room is created; the [lastActivity] the function then sets is a
    property of that member, which nothing reads. *)
Definition getOrCreateRoom (rid : jsstring) (now : Z) (st : State)
  : State * option (nat * Room) :=
  match roomAt st rid with
  | Some (ref, room) =>
      let room' := setLastActivity room now in
      (storeRoom st ref room', Some (ref, room'))
  | None =>
      if inheritedKey rid then (st, None)
      else
        let ref := nextRef st in
        let room := newRoom now in
        ({| heap := <[ref := room]> (heap st); nextRef := S ref;
            gameRooms := <[rid := ref]> (gameRooms st);
            playerSessions := playerSessions st; rateLimits := rateLimits st;
            conns := conns st |}, Some (ref, room))
  end.

(** The thirty-minute sweep of idle rooms: [delete gameRooms[roomId]] for
    every room with [now - room.lastActivity > inactivityThreshold]. *)
Definition inactivityThreshold : Z := 3600000.

Definition sweepRooms (now : Z) (st : State) : State :=
  setGameRooms st
    (omap (fun ref : nat =>
             match heap st !! ref with
             | Some room =>
                 if inactivityThreshold <? now - lastActivity room
                 then None else Some ref
             | None => Some ref
             end)
          (gameRooms st)).

(** The thirty-minute sweep of sessions whose room is gone. A session is
    stored by [joinRoom] under the room id it found or created a room
    object for; that id is looked up among the own keys. *)
Definition sweepSessions (st : State) : State :=
  setPlayerSessions st
    (omap (fun s : Session =>
             match gameRooms st !! s_roomId s with
             | Some _ => Some s
             | None => None
             end)
          (playerSessions st)).

(* ===================================================================== *)
(** ** joinRoom                                                           *)
(* ===================================================================== *)

Definition validRoles (preferredRole : JsVal) : bool :=
  match preferredRole with
  | JStr s =>
      bool_decide (s = js "white") || bool_decide (s = js "black")
      || bool_decide (s = js "spectator")
  | _ => false
  end.

Definition unavailableMessage (s : Seat) : string :=
  match s with
  | SWhite => "White player slot is already taken. You can spectate or try black if available."
  | SBlack => "Black player slot is already taken. You can spectate or try white if available."
  end.

(** The outcome of the role-assignment block of [joinRoom]: the room, the
    session table, what was emitted and [assignedRole]. *)
Definition Assignment : Type :=
  Room * gmap jsstring Session * list Emit * Role.

(** [room.players[seat] = socket.id], with a fresh session for it. *)
Definition takeSeat (seat : Seat) (sid rid sessionId : jsstring) (room : Room)
    (sessions : gmap jsstring Session) : Assignment :=
  (setPlayers room (setSeat (players room) seat (Some sid)),
   <[sessionId := {| s_roomId := rid; s_role := seat |}]> sessions,
   [(ToSocket sid, EvSessionId sessionId)],
   roleOfSeat seat).

(** [room.spectators.push(socket.id)]. *)
Definition spectate (sid : jsstring) (room : Room)
    (sessions : gmap jsstring Session) (notice : list Emit) : Assignment :=
  (setSpectators room (spectators room ++ [sid]), sessions, notice,
   RoleSpectator).

Definition assignRole (preferredRole sid rid sessionId : jsstring) (room : Room)
    (sessions : gmap jsstring Session) : Assignment :=
  if bool_decide (preferredRole = js "white") then
    if negb (truthy (white (players room))) then
      takeSeat SWhite sid rid sessionId room sessions
    else
      spectate sid room sessions
        [(ToSocket sid, EvRoleUnavailable SWhite (unavailableMessage SWhite))]
  else if bool_decide (preferredRole = js "black") then
    if negb (truthy (black (players room))) then
      takeSeat SBlack sid rid sessionId room sessions
    else
      spectate sid room sessions
        [(ToSocket sid, EvRoleUnavailable SBlack (unavailableMessage SBlack))]
  else if bool_decide (preferredRole = js "viewer")
          || bool_decide (preferredRole = js "spectator") then
    spectate sid room sessions []
  else
    if negb (truthy (white (players room))) then
      takeSeat SWhite sid rid sessionId room sessions
    else if negb (truthy (black (players room))) then
      takeSeat SBlack sid rid sessionId room sessions
    else
      spectate sid room sessions [].

(** What a joining or reconnecting socket is sent about the room. *)
Definition roomSnapshot (sid : jsstring) (role : Role) (room : Room) : list Emit :=
  [(ToSocket sid, EvRoleAssigned role);
   (ToSocket sid, EvBoardState (fen (chess room)));
   (ToSocket sid, EvMoveHistory (moveHistory room));
   (ToSocket sid, EvChatHistory (chatHistory room))].

(** [socket.on('joinRoom', ({ roomId, preferredRole }) => ...)]. [sessionId]
    is what [generateSessionId()] returns if it is called. When
    [getOrCreateRoom] returns an inherited member, each of the three role
    branches throws a [TypeError] on [room.players] or [room.spectators]
    before anything is emitted or written to a room, a seat or a session:
    the call comes to nothing. *)
Definition onJoinRoom (sid : jsstring) (roomIdV preferredRoleV : JsVal)
    (now : Z) (sessionId : jsstring) (st : State) : State * list Emit :=
  if negb (validateRoomId roomIdV) then
    (st, [(ToSocket sid, EvError "Invalid room ID format")])
  else if negb (validRoles preferredRoleV) then
    (st, [(ToSocket sid, EvError "Invalid role specified")])
  else
    match roomIdV, preferredRoleV with
    | JStr rid, JStr preferredRole =>
        match getOrCreateRoom rid now st with
        | (_, None) => (st, [])
        | (st1, Some (ref, room)) =>
            let st2 :=
              setConn st1 sid
                {| roomId := Some rid;
                   disconnectTimer := disconnectTimer (connOf st1 sid) |} in
            let '(room', sessions', notice, assignedRole) :=
              assignRole preferredRole sid rid sessionId room
                         (playerSessions st2) in
            let st3 := setPlayerSessions (storeRoom st2 ref room') sessions' in
            (st3, notice ++ roomSnapshot sid assignedRole room'
                    ++ [(ToRoom rid, playersUpdate room')])
        end
    | _, _ => (st, [])
    end.

(* ===================================================================== *)
(** ** reconnect                                                          *)
(* ===================================================================== *)

Definition retakenMessage (s : Seat) : string :=
  match s with
  | SWhite => "Your previous white role is now taken. You are now spectating."
  | SBlack => "Your previous black role is now taken. You are now spectating."
  end.

(** The message of [reconnect] for a session without a role. *)
Definition retakenMessageUndefined : string :=
  "Your previous undefined role is now taken. You are now spectating.".

(** [socket.on('reconnect', (sessionId) => ...)]. [playerSessions[sessionId]]
    is a session the server stored or, for a token that names one, an
    inherited member; [{ roomId, role }] of such a member are both
    [undefined], so the handler goes on with [gameRooms[undefined]], the
    room named [undefined] if there is one, with [room.players[undefined]],
    and with [undefined] as the [socket.roomId] and the room it joins. A
    stored session names the room [joinRoom] stored it under; when the
    registry has no room object under that id the handler does nothing
    (it returns, or, were the id the name of an inherited member of
    [gameRooms], it would throw on [room.players] before any effect). *)
Definition onReconnect (sid sessionId : jsstring) (st : State)
  : State * list Emit :=
  match sessionId with
  | [] => (st, [])
  | _ :: _ =>
      match member (playerSessions st) sessionId with
      | Absent => (st, [])
      | Own session =>
          let rid := s_roomId session in
          let role := s_role session in
          match roomAt st rid with
          | None => (st, [])
          | Some (ref, room) =>
              let st1 :=
                setConn st sid {| roomId := Some rid;
                                  disconnectTimer := disconnectTimer (connOf st sid) |} in
              if negb (truthy (seatOf (players room) role)) then
                let room' := setPlayers room (setSeat (players room) role (Some sid)) in
                (storeRoom st1 ref room',
                 roomSnapshot sid (roleOfSeat role) room'
                   ++ [(ToRoom rid, playersUpdate room')])
              else
                let room' := setSpectators room (spectators room ++ [sid]) in
                (storeRoom st1 ref room',
                 roomSnapshot sid RoleSpectator room'
                   ++ [(ToSocket sid, EvRoleUnavailable role (retakenMessage role));
                       (ToRoom rid, playersUpdate room')])
          end
      | Inherited =>
          match roomAt st (js "undefined") with
          | None => (st, [])
          | Some (ref, room) =>
              let st1 :=
                setConn st sid {| roomId := None;
                                  disconnectTimer := disconnectTimer (connOf st sid) |} in
              if negb (truthy (undefinedKey (players room))) then
                let room' :=
                  setPlayers room (setUndefinedKey (players room) (Some sid)) in
                (storeRoom st1 ref room',
                 [(ToSocket sid, EvRoleAssignedUndefined);
                  (ToSocket sid, EvBoardState (fen (chess room')));
                  (ToSocket sid, EvMoveHistory (moveHistory room'));
                  (ToSocket sid, EvChatHistory (chatHistory room'));
                  (ToUndefined, playersUpdate room')])
              else
                let room' := setSpectators room (spectators room ++ [sid]) in
                (storeRoom st1 ref room',
                 roomSnapshot sid RoleSpectator room'
                   ++ [(ToSocket sid,
                        EvRoleUnavailableUndefined retakenMessageUndefined);
                       (ToUndefined, playersUpdate room')])
          end
      end
  end.

(* ===================================================================== *)
(** ** move                                                               *)
(* ===================================================================== *)

(** The block under [// Check for game end conditions]: at most one branch
    of the [if / else if] chain emits. *)
Definition gameEndEvents (rid : jsstring) (p : Position) : list Emit :=
  if callIfPresent game_over p then
    if callIfPresent in_checkmate p then
      let winner := match turn p with cw => SBlack | cb => SWhite end in
      [(ToRoom rid, EvGameEnd checkmate (Some winner) None None)]
    else if callIfPresent in_stalemate p then
      [(ToRoom rid, EvGameEnd stalemate None None None)]
    else if callIfPresent in_threefold_repetition p then
      [(ToRoom rid, EvGameEnd threefold None None None)]
    else if callIfPresent insufficient_material p then
      [(ToRoom rid, EvGameEnd insufficient None None None)]
    else if callIfPresent in_draw p then
      [(ToRoom rid, EvGameEnd draw None None None)]
    else []
  else [].

(** The seat whose turn it is. *)
Definition seatToMove (p : Position) : Seat :=
  match turn p with cw => SWhite | cb => SBlack end.

(** The room after [chess.move] succeeded with [r], leaving position [p']. *)
Definition recordMove (room : Room) (p' : Position) (r : MoveResult) (now : Z)
  : Room :=
  {| chess := p'; players := players room; currentPlayer := turn p';
     spectators := spectators room;
     moveHistory := moveHistory room
                      ++ [{| mr_move := san r; mr_color := color r;
                             mr_timestamp := now |}];
     chatHistory := chatHistory room; createdAt := createdAt room;
     lastActivity := lastActivity room |}.

(** [socket.on('move', (move) => ...)]: the two turn guards, then
    [chess.move(move)] inside the [try]. *)
Definition onMove (sid : jsstring) (m : MoveInput) (now : Z) (st : State)
  : State * list Emit :=
  match currentRoom st sid with
  | None => (st, [])
  | Some (rid, ref, room) =>
      if bool_decide (seatOf (players room) (seatToMove (chess room)) ≠ Some sid)
      then (st, [])
      else
        match move (chess room) m with
        | MoveNull => (st, [(ToSocket sid, EvMoveError m)])
        | MoveThrow _ => (st, [(ToSocket sid, EvMoveError m)])
        | MoveOk p' r =>
            let room' := recordMove room p' r now in
            (storeRoom st ref room',
             [(ToRoom rid, EvMove m);
              (ToRoom rid, EvBoardState (fen p'));
              (ToRoom rid, EvMoveHistory (moveHistory room'))]
             ++ gameEndEvents rid p')
        end
  end.

(* ===================================================================== *)
(** ** chatMessage                                                        *)
(* ===================================================================== *)

(** [a.slice(-n)]: the last [n] elements. *)
Definition sliceLast {A} (n : nat) (l : list A) : list A :=
  drop (length l - n) l.

(** [room.chatHistory.push(chatMessage)] and the cut to the last 50. *)
Definition pushChat (history : list ChatEntry) (entry : ChatEntry)
  : list ChatEntry :=
  let pushed := history ++ [entry] in
  if (50 <? length pushed)%nat then sliceLast 50 pushed else pushed.

(** [socket.on('chatMessage', (data) => ...)]; [message] is [data.message],
    [rnd] the value of [Math.random()]. *)
Definition onChatMessage (sid : jsstring) (message : JsVal) (now : Z) (rnd : N)
    (st : State) : State * list Emit :=
  match currentRoom st sid with
  | None => (st, [])
  | Some (rid, ref, room) =>
      let '(ok, limits) :=
        checkRateLimit sid (js "chat") 5 30000 now (rateLimits st) in
      if negb ok then
        (st, [(ToSocket sid,
               EvChatError "You are sending messages too quickly")])
      else
        let st1 := setRateLimits st limits in
        if bool_decide (Some sid ≠ white (players room))
           && bool_decide (Some sid ≠ black (players room)) then
          (st1, [(ToSocket sid, EvChatError "Only players can send messages")])
        else
          match validateInput message 200 with
          | None =>
              (st1, [(ToSocket sid, EvChatError "Invalid message content")])
          | Some text =>
              let playerRole :=
                if bool_decide (Some sid = white (players room)) then RoleWhite
                else if bool_decide (Some sid = black (players room)) then RoleBlack
                else RoleSpectator in
              let chatMessage :=
                {| ce_id := (now, rnd); ce_message := text;
                   ce_playerRole := playerRole; ce_timestamp := now;
                   ce_socketId := sid |} in
              let room' :=
                setChatHistory room (pushChat (chatHistory room) chatMessage) in
              (storeRoom st1 ref room',
               [(ToRoom rid, EvChatMessage chatMessage)])
          end
  end.

(* ===================================================================== *)
(** ** resetGame, resign, offerDraw, respondToDraw                        *)
(* ===================================================================== *)

(** The seat a socket holds in a room, tested white first as every handler
    does ([if (socket.id === room.players.white) ... else if ...black]). *)
Definition seatHeld (room : Room) (sid : jsstring) : option Seat :=
  if bool_decide (Some sid = white (players room)) then Some SWhite
  else if bool_decide (Some sid = black (players room)) then Some SBlack
  else None.

(** [socket.on('resetGame', ...)]: [chess.reset()] and an empty history. *)
Definition onResetGame (sid : jsstring) (st : State) : State * list Emit :=
  match currentRoom st sid with
  | None => (st, [])
  | Some (rid, ref, room) =>
      match seatHeld room sid with
      | Some _ =>
          let room' :=
            {| chess := newChess; players := players room;
               currentPlayer := currentPlayer room;
               spectators := spectators room; moveHistory := [];
               chatHistory := chatHistory room; createdAt := createdAt room;
               lastActivity := lastActivity room |} in
          (storeRoom st ref room',
           [(ToRoom rid, EvGameReset);
            (ToRoom rid, EvBoardState (fen newChess));
            (ToRoom rid, EvMoveHistory [])])
      | None => (st, [])
      end
  end.

(** [socket.on('resign', ...)]. *)
Definition onResign (sid : jsstring) (st : State) : State * list Emit :=
  match currentRoom st sid with
  | None => (st, [])
  | Some (rid, ref, room) =>
      match seatHeld room sid with
      | Some resigningPlayer =>
          (st, [(ToRoom rid,
                 EvGameEnd resignation (Some (opponent resigningPlayer))
                           (Some resigningPlayer) None)])
      | None => (st, [])
      end
  end.

(** [socket.on('offerDraw', ...)]; [io.to(opponentId)] addresses the room
    named by the opponent's socket id. *)
Definition onOfferDraw (sid : jsstring) (st : State) : State * list Emit :=
  match currentRoom st sid with
  | None => (st, [])
  | Some (rid, ref, room) =>
      match seatHeld room sid with
      | Some offeringPlayer =>
          match seatOf (players room) (opponent offeringPlayer) with
          | Some (c :: o) =>
              (st, [(ToRoom (c :: o), EvDrawOfferReceived offeringPlayer);
                    (ToSocket sid, EvDrawOfferSent)])
          | _ =>
              (st, [(ToSocket sid,
                     EvDrawOfferError "No opponent to offer draw to")])
          end
      | None => (st, [])
      end
  end.

(** [socket.on('respondToDraw', (response) => ...)]; [accepted] is the
    truthiness of [response.accepted]. *)
Definition onRespondToDraw (sid : jsstring) (accepted : bool) (st : State)
  : State * list Emit :=
  match currentRoom st sid with
  | None => (st, [])
  | Some (rid, ref, room) =>
      match seatHeld room sid with
      | Some respondingPlayer =>
          if accepted then
            (st, [(ToRoom rid,
                   EvGameEnd draw_agreement None None
                             (Some "Draw accepted by mutual agreement"))])
          else
            match seatOf (players room) (opponent respondingPlayer) with
            | Some (c :: o) =>
                (st, [(ToRoom (c :: o), EvDrawOfferDeclined respondingPlayer)])
            | _ => (st, [])
            end
      | None => (st, [])
      end
  end.

(* ===================================================================== *)
(** ** disconnect and the grace timer                                     *)
(* ===================================================================== *)

Definition gracePeriod : Z := 30000.

(** [handleDisconnection(socket)] at time [now]: the socket leaves the
    spectators at once; a timer replaces any earlier one of the socket. *)
Definition handleDisconnection (sid : jsstring) (now : Z) (st : State)
  : State * list Emit :=
  match currentRoom st sid with
  | None => (st, [])
  | Some (rid, ref, room) =>
      let room' :=
        setSpectators room
          (filter (fun id => id ≠ sid) (spectators room)) in
      let st1 := storeRoom st ref room' in
      (setConn st1 sid
         {| roomId := roomId (connOf st1 sid);
            disconnectTimer :=
              Some {| t_room := ref; t_roomId := rid;
                      t_due := now + gracePeriod |} |},
       [])
  end.

(** The callback of the timer, run by the event loop once it is due: the
    seat of the socket in the captured room object is vacated and the
    occupancy broadcast. *)
Definition onTimer (sid : jsstring) (now : Z) (st : State) : State * list Emit :=
  match disconnectTimer (connOf st sid) with
  | None => (st, [])
  | Some timer =>
      if now <? t_due timer then (st, []) else
      match heap st !! t_room timer with
      | None => (st, [])
      | Some room =>
          let room' :=
            if bool_decide (white (players room) = Some sid) then
              setPlayers room (setSeat (players room) SWhite None)
            else if bool_decide (black (players room) = Some sid) then
              setPlayers room (setSeat (players room) SBlack None)
            else room in
          let st1 := storeRoom st (t_room timer) room' in
          (setConn st1 sid {| roomId := roomId (connOf st1 sid);
                              disconnectTimer := None |},
           [(ToRoom (t_roomId timer), playersUpdate room')])
      end
  end.

(* ===================================================================== *)
(** ** The event loop                                                     *)
(* ===================================================================== *)

(** One turn of the single-threaded event loop: a client message, a
    disconnect, a timer callback or a periodic sweep. *)
Inductive Input :=
| InJoinRoom (sid : jsstring) (roomId preferredRole : JsVal) (now : Z)
             (sessionId : jsstring)
| InReconnect (sid sessionId : jsstring)
| InMove (sid : jsstring) (m : MoveInput) (now : Z)
| InChatMessage (sid : jsstring) (message : JsVal) (now : Z) (rnd : N)
| InResetGame (sid : jsstring)
| InResign (sid : jsstring)
| InOfferDraw (sid : jsstring)
| InRespondToDraw (sid : jsstring) (accepted : bool)
| InDisconnect (sid : jsstring) (now : Z)
| InTimer (sid : jsstring) (now : Z)
| InSweepRooms (now : Z)
| InSweepSessions
| InSweepRateLimits (now : Z).

Definition handle (i : Input) (st : State) : State * list Emit :=
  match i with
  | InJoinRoom sid rid role now sessionId =>
      onJoinRoom sid rid role now sessionId st
  | InReconnect sid sessionId => onReconnect sid sessionId st
  | InMove sid m now => onMove sid m now st
  | InChatMessage sid message now rnd => onChatMessage sid message now rnd st
  | InResetGame sid => onResetGame sid st
  | InResign sid => onResign sid st
  | InOfferDraw sid => onOfferDraw sid st
  | InRespondToDraw sid accepted => onRespondToDraw sid accepted st
  | InDisconnect sid now => handleDisconnection sid now st
  | InTimer sid now => onTimer sid now st
  | InSweepRooms now => (sweepRooms now st, [])
  | InSweepSessions => (sweepSessions st, [])
  | InSweepRateLimits now => (sweepRateLimits now st, [])
  end.

(** A run from a state: the final state and everything emitted, in order. *)
Fixpoint run (inputs : list Input) (st : State) : State * list Emit :=
  match inputs with
  | [] => (st, [])
  | i :: rest =>
      let '(st1, out1) := handle i st in
      let '(st2, out2) := run rest st1 in
      (st2, out1 ++ out2)
  end.

(* ===================================================================== *)
(** ** Notions the properties are stated with                             *)
(* ===================================================================== *)

(** The seat and spectator slots of a room, with their occupants. *)
Definition slots (room : Room) : list jsstring :=
  option_list (white (players room)) ++ option_list (black (players room))
  ++ spectators room.

(** States the server can be in: any inputs, in any order. *)
Inductive reachable : State -> Prop :=
| reachable_init : reachable initState
| reachable_step i st : reachable st -> reachable (handle i st).1.

(** An input is a first join when it is a [joinRoom] or [reconnect] of a
    connection whose [socket.roomId] is still unset and, for a [reconnect],
    the token does not name an inherited member of [playerSessions]: a
    reconnect with such a token leaves [socket.roomId] unset. Other inputs
    are not restricted. *)
Definition firstJoin (st : State) (i : Input) : Prop :=
  match i with
  | InJoinRoom sid _ _ _ _ => roomId (connOf st sid) = None
  | InReconnect sid sessionId =>
      roomId (connOf st sid) = None
      /\ member (playerSessions st) sessionId <> Inherited
  | _ => True
  end.

(** States reached when no connection joins or reconnects a second time. *)
Inductive reachableJoinOnce : State -> Prop :=
| joinOnce_init : reachableJoinOnce initState
| joinOnce_step i st :
    reachableJoinOnce st -> firstJoin st i -> reachableJoinOnce (handle i st).1.

(** The invariant behind single membership: addresses in the registry are
    allocated and not shared between room ids, no connection sits twice in
    a room of the registry, and whoever sits in a room has that room as its
    [socket.roomId]. *)
Definition singleMembership (st : State) : Prop :=
  (forall rid ref, gameRooms st !! rid = Some ref -> (ref < nextRef st)%nat)
  /\ (forall rid1 rid2 ref,
        gameRooms st !! rid1 = Some ref -> gameRooms st !! rid2 = Some ref ->
        rid1 = rid2)
  /\ (forall rid ref room,
        roomAt st rid = Some (ref, room) ->
        NoDup (slots room)
        /\ forall s, s ∈ slots room -> roomId (connOf st s) = Some rid).

(** [room'] is [room] with [sid] put on a seat or among the spectators:
    no occupant is repeated if none was and [sid] is new to the room, and
    nobody but [sid] is added. *)
Definition placed (sid : jsstring) (room room' : Room) : Prop :=
  (NoDup (slots room) -> sid ∉ slots room -> NoDup (slots room'))
  /\ forall s, s ∈ slots room' -> s = sid \/ s ∈ slots room.

(** Every room object holds at most 50 chat entries. *)
Definition chatBounded (st : State) : Prop :=
  forall ref room,
    heap st !! ref = Some room -> (length (chatHistory room) <= 50)%nat.

(** The [gameEnd] events of an output. *)
Definition isGameEnd (e : Emit) : bool :=
  match e.2 with
  | EvGameEnd _ _ _ _ => true
  | _ => false
  end.

Definition gameEnds (out : list Emit) : list Emit := filter (fun e => isGameEnd e = true) out.

(** An output with no broadcast: every event goes to the socket [sid]. *)
Definition unicastOnly (sid : jsstring) (out : list Emit) : Prop :=
  Forall (fun e : Emit => e.1 = ToSocket sid) out.

(** The submitter is in a room of the registry and holds the seat that is
    to move there. *)
Definition onTurn (st : State) (sid rid : jsstring) (ref : nat) (room : Room)
  : Prop :=
  currentRoom st sid = Some (rid, ref, room)
  /\ seatOf (players room) (seatToMove (chess room)) = Some sid.

(** The two conditions of acceptance: the seat and the rules engine. *)
Definition moveAcceptable (st : State) (sid : jsstring) (m : MoveInput) : Prop :=
  exists rid ref room p' r,
    onTurn st sid rid ref room /\ move (chess room) m = MoveOk p' r.

(** What acceptance does: one record more in the history of the
    submitter's room. *)
Definition moveApplied (st st' : State) (sid : jsstring) : Prop :=
  exists rid ref room room' rec,
    currentRoom st sid = Some (rid, ref, room)
    /\ roomAt st' rid = Some (ref, room')
    /\ moveHistory room' = moveHistory room ++ [rec].

(** The payload of the single [gameEnd] of a terminal status: the winner of
    a checkmate is the side that is not to move. *)
Definition gameEndOf (ty : EndType) (p : Position) : Event :=
  match ty with
  | checkmate => EvGameEnd checkmate (Some (opponent (seatToMove p))) None None
  | _ => EvGameEnd ty None None None
  end.

(** The chat verdicts of one connection over its successive submissions at
    the given times. *)
Fixpoint chatVerdicts (sid : jsstring) (times : list Z)
    (limits : gmap jsstring Limit) : list bool :=
  match times with
  | [] => []
  | t :: rest =>
      let '(ok, limits') := checkRateLimit sid (js "chat") 5 30000 t limits in
      ok :: chatVerdicts sid rest limits'
  end.

(** The rate-limit table after those submissions. *)
Fixpoint chatLimits (sid : jsstring) (times : list Z)
    (limits : gmap jsstring Limit) : gmap jsstring Limit :=
  match times with
  | [] => limits
  | t :: rest =>
      chatLimits sid rest
        (checkRateLimit sid (js "chat") 5 30000 t limits).2
  end.

(** What the table knows of a connection, against the log of the
    submissions it let through: the window opened no later than the last
    reading of the clock, and every submission counted lies in it. *)
Definition windowCovers (sid : jsstring) (limits : gmap jsstring Limit)
    (log : list Z) (last : Z) : Prop :=
  match limits !! rateKey sid (js "chat") with
  | None => True
  | Some limit =>
      resetTime limit - 30000 <= last
      /\ count limit
         <= Z.of_nat (length (filter (fun t => resetTime limit - 30000 <= t) log))
  end.

End Coordinator.

(** The submissions among [times] that the limiter let through. *)
Fixpoint letThrough (times : list Z) (verdicts : list bool) : list Z :=
  match times, verdicts with
  | t :: ts, v :: vs => if v then t :: letThrough ts vs else letThrough ts vs
  | _, _ => []
  end.

(** Times that never go back, as successive [Date.now()] readings. *)
Fixpoint nondecreasing (last : Z) (times : list Z) : Prop :=
  match times with
  | [] => True
  | t :: rest => last <= t /\ nondecreasing t rest
  end.

(* ===================================================================== *)
(** ** The specification's own wording, for comparison                    *)
(* ===================================================================== *)

(** The sliding window of the specification: how many earlier messages of
    the sender fall in the 30 seconds that end at [now]. *)
Definition slidingCount (now : Z) (earlier : list Z) : nat :=
  length (filter (fun t => now - 30000 <= t) earlier).

(** The precedence of the specification: checkmate, stalemate, repetition,
    insufficient material, other draw. *)
Definition terminalStatus (cm sm tf im dr : bool) : option EndType :=
  if cm then Some checkmate
  else if sm then Some stalemate
  else if tf then Some threefold
  else if im then Some insufficient
  else if dr then Some draw
  else None.

(** Stripping embedded markup, as the specification words chat
    sanitization: everything from [<] (60) to the next [>] (62) goes. *)
Fixpoint stripMarkup (inTag : bool) (s : jsstring) : jsstring :=
  match s with
  | [] => []
  | c :: s' =>
      if inTag then stripMarkup (negb (c =? 62)%N) s'
      else if (c =? 60)%N then stripMarkup true s'
      else c :: stripMarkup false s'
  end.

(** Trimmed, capped at 200 characters, stripped of markup. *)
Definition sanitizeSpec (s : jsstring) : jsstring :=
  stripMarkup false (take 200 (trim s)).

(* ===================================================================== *)
(** ** A scripted engine and concrete runs                                *)
(* ===================================================================== *)

(** A stand-in for chess.js on which concrete runs can be evaluated. A move
    submitted to it says what the library answers: a legal move with its
    notation and the status of the position it leads to, an illegal move,
    or malformed coordinates. Once a position is terminal nothing is legal.
    Like chess.js 1.0.0-beta.8, the version the repository depends on, it
    has none of the methods [game_over], [in_checkmate], [in_stalemate],
    [in_threefold_repetition], [insufficient_material] and [in_draw] that
    the [move] handler probes: from 1.0.0 on the library names them
    [isGameOver], [isCheckmate], [isStalemate], [isThreefoldRepetition],
    [isInsufficientMaterial] and [isDraw]. *)
Module Stub.

Inductive Status := Playing | Mate | Stale | Repetition | Material | FiftyMoves.

Record Pos := { toMove : Color; status : Status; plies : nat }.

Inductive Submitted :=
| Legal (notation : jsstring) (leadsTo : Status)
| Illegal
| Malformed.

Definition flip (c : Color) : Color :=
  match c with cw => cb | cb => cw end.

Definition isPlaying (s : Status) : bool :=
  match s with Playing => true | _ => false end.

Definition stubMove (p : Pos) (m : Submitted) : MoveOutcome Pos :=
  match m with
  | Legal notation leadsTo =>
      if isPlaying (status p) then
        MoveOk {| toMove := flip (toMove p); status := leadsTo;
                  plies := S (plies p) |}
               {| san := notation; color := toMove p |}
      else MoveNull
  | Illegal => MoveNull
  | Malformed => MoveThrow (js "Invalid move")
  end.

Definition stubFen (p : Pos) : jsstring :=
  match toMove p with cw => js "w" | cb => js "b" end
  ++ js " " ++ repeat 49%N (plies p).

Definition engine : Engine :=
  {| Position := Pos;
     MoveInput := Submitted;
     newChess := {| toMove := cw; status := Playing; plies := 0 |};
     turn := toMove;
     fen := stubFen;
     move := stubMove;
     game_over := None;
     in_checkmate := None;
     in_stalemate := None;
     in_threefold_repetition := None;
     insufficient_material := None;
     in_draw := None |}.

End Stub.

Module Scenario.

#[local] Existing Instance AsciiRuntime.
#[local] Existing Instance Stub.engine.

Definition alice : jsstring := js "sock-alice".
Definition alice2 : jsstring := js "sock-alice-2".
Definition bob : jsstring := js "sock-bob".
Definition room1 : jsstring := js "TEST-1".
Definition room2 : jsstring := js "TEST-2".

Definition joinAs (sid rid : jsstring) (role : string) (now : Z)
    (session : string) : Input :=
  InJoinRoom sid (JStr rid) (JStr (js role)) now (js session).

(** Both seats of TEST-1 taken: alice is white, bob is black. *)
Definition seated : State :=
  (run [joinAs alice room1 "white" 1000 "token-a";
        joinAs bob room1 "black" 2000 "token-b"] initState).1.

Definition e4 : MoveInput := Stub.Legal (js "e4") Stub.Playing.

(** White drops at 10 s, comes back 10 s later on a new connection with the
    token, and the grace timer runs at 40 s. *)
Definition dropAndReturn : list Input :=
  [InDisconnect alice 10000; InReconnect alice2 (js "token-a");
   InTimer alice 40000].

(** A connection that sends [joinRoom] twice. *)
Definition joinTwoRooms : list Input :=
  [joinAs alice room1 "white" 1000 "token-a";
   joinAs alice room2 "white" 2000 "token-c"].

Definition joinSameRoomTwice : list Input :=
  [joinAs alice room1 "white" 1000 "token-a";
   joinAs alice room1 "white" 2000 "token-c"].

(** A game still being played when the sweep of 5 400 000 ms runs. *)
Definition lateMoveThenSweep : list Input :=
  [InMove alice e4 5399000; InSweepRooms 5400000].

Definition resignThenMove : list Input :=
  [InResign alice; InMove alice e4 9000].

(** Seven chat submissions of one connection. *)
Definition burst : list Z := [0; 29000; 29001; 29002; 29003; 30001; 30002].

Definition longText : jsstring := repeat 97%N 201.
Definition markedUp : jsstring := js "<b>hi</b>".

(** The room object a room id leads to (a fresh room if there is none). *)
Definition roomOf (st : State) (rid : jsstring) : Room :=
  match roomAt st rid with
  | Some (_, room) => room
  | None => newRoom 0
  end.

Definition mate : MoveInput := Stub.Legal (js "Qh5#") Stub.Mate.

Definition say (sid : jsstring) (text : string) (now : Z) : Input :=
  InChatMessage sid (JStr (js text)) now 0.

(** Fifty accepted chat messages, one every ten seconds. *)
Definition fiftyChats : list Input :=
  map (fun k : nat => say alice "hi" (Z.of_nat k * 10000)) (seq 1 50).

Definition chatFull : State := (run fiftyChats seated).1.

(** Five chat messages within five milliseconds. *)
Definition fiveChats : list Input :=
  map (fun k : nat => say alice "hi" (Z.of_nat k)) (seq 0 5).

Definition firstFive : list Z := [0; 1; 2; 3; 4].

Definition chatSpent : State := (run fiveChats seated).1.

End Scenario.

(* ===================================================================== *)
(** ** Further notions: strings                                           *)
(* ===================================================================== *)

(** The text does not begin with a character [trim()] would remove. *)
Definition noLeadingSpace (s : jsstring) : Prop :=
  match s with
  | [] => True
  | c :: _ => isSpace c = false
  end.

(** A letter, a digit or a hyphen: what a room id is made of, in either
    case. *)
Definition roomIdChar (c : N) : bool :=
  ((97 <=? c) && (c <=? 122) || (65 <=? c) && (c <=? 90)
   || (48 <=? c) && (c <=? 57) || (c =? 45))%N.

(* ===================================================================== *)
(** ** Further notions: the registry, the room objects, the tables        *)
(* ===================================================================== *)

Section Registry.
Context `{R : JsRuntime} `{E : Engine}.

(** The allocation discipline of room objects: addresses in use lie below
    [nextRef], every registered address holds an object, and no object is
    registered under two ids. *)
Definition wellFormed (st : State) : Prop :=
  (forall ref room, heap st !! ref = Some room -> (ref < nextRef st)%nat)
  /\ (forall rid ref, gameRooms st !! rid = Some ref -> is_Some (heap st !! ref))
  /\ (forall rid1 rid2 ref,
        gameRooms st !! rid1 = Some ref -> gameRooms st !! rid2 = Some ref ->
        rid1 = rid2).

(** The role string of a seat, as [joinRoom] compares it. *)
Definition seatName (s : Seat) : jsstring :=
  match s with SWhite => js "white" | SBlack => js "black" end.

(** The socket an input comes from, for the inputs that act on the room of
    [socket.roomId]. *)
Definition sender (i : Input) : option jsstring :=
  match i with
  | InMove sid _ _ | InChatMessage sid _ _ _ | InResetGame sid | InResign sid
  | InOfferDraw sid | InRespondToDraw sid _ | InDisconnect sid _ => Some sid
  | _ => None
  end.

Definition isSweepRooms (i : Input) : bool :=
  match i with InSweepRooms _ => true | _ => false end.

Definition isJoinRoom (i : Input) : bool :=
  match i with InJoinRoom _ _ _ _ _ => true | _ => false end.

Definition isResetGame (i : Input) : bool :=
  match i with InResetGame _ => true | _ => false end.

(** The inputs that put a connection into a room. *)
Definition isEntry (i : Input) : bool :=
  match i with
  | InJoinRoom _ _ _ _ _ | InReconnect _ _ => true
  | _ => false
  end.

(** The run of the grace timer of socket [h]. *)
Definition isTimerOf (h : jsstring) (i : Input) : Prop :=
  exists now, i = InTimer h now.

(** A chat entry as [chatMessage] stores them: its text is what
    [validateInput] returns for it, and its author is a player. *)
Definition validEntry (e : ChatEntry) : Prop :=
  validateInput (JStr (ce_message e)) 200 = Some (ce_message e)
  /\ ce_playerRole e <> RoleSpectator.

Definition chatValid (st : State) : Prop :=
  forall ref room e,
    heap st !! ref = Some room -> e ∈ chatHistory room -> validEntry e.

(** What one input may do to a room object: it keeps [createdAt]; only a
    [joinRoom] writes [lastActivity]; the move history grows at the end
    unless the input is a reset; the chat history is kept or a valid entry
    is pushed to it; and
    a seat that is held stays with its holder unless the input is the run
    of the holder's own timer. *)
Definition objectStep (i : Input) (room room' : Room) : Prop :=
  createdAt room' = createdAt room
  /\ (isJoinRoom i = false -> lastActivity room' = lastActivity room)
  /\ (isResetGame i = false ->
      exists more, moveHistory room' = moveHistory room ++ more)
  /\ (chatHistory room' = chatHistory room
      \/ exists entry,
           validEntry entry
           /\ chatHistory room' = pushChat (chatHistory room) entry)
  /\ (forall seat h,
        seatOf (players room) seat = Some h -> truthy (Some h) = true ->
        ~ isTimerOf h i ->
        seatOf (players room') seat = Some h).

(** A room id that [validateRoomId] accepts. *)
Definition validId (rid : jsstring) : Prop := validateRoomId (JStr rid) = true.

(** Every room id the server holds -- as a key of [gameRooms], in a session
    or as a [socket.roomId] -- has passed [validateRoomId]. *)
Definition idsValid (st : State) : Prop :=
  (forall rid ref, gameRooms st !! rid = Some ref -> validId rid)
  /\ (forall token session,
        playerSessions st !! token = Some session -> validId (s_roomId session))
  /\ (forall sid rid, roomId (connOf st sid) = Some rid -> validId rid).

(** The verdicts of [checkRateLimit] for one key over successive calls. *)
Fixpoint verdicts (sid action : jsstring) (maxRequests windowMs : Z)
    (times : list Z) (limits : gmap jsstring Limit) : list bool :=
  match times with
  | [] => []
  | t :: rest =>
      let '(ok, limits') :=
        checkRateLimit sid action maxRequests windowMs t limits in
      ok :: verdicts sid action maxRequests windowMs rest limits'
  end.

End Registry.

(* ===================================================================== *)
(** ** utils/performanceMonitor.js                                        *)
(* ===================================================================== *)

(** The counters are JavaScript numbers holding integers; they are taken as
    [Z], exact below 2^53. [formatBytes] works on floating-point logarithms
    and [logMetrics] only prints: neither is embedded. *)
Module Monitor.

Record Metrics := {
  requests : Z;
  errors : Z;
  activeConnections : Z;
  peakConnections : Z;
  totalDataSent : Z;
  totalDataReceived : Z
}.

Record PerformanceMonitor := { startTime : Z; metrics : Metrics }.

(** [new PerformanceMonitor()] at time [now]. *)
Definition create (now : Z) : PerformanceMonitor :=
  {| startTime := now;
     metrics := {| requests := 0; errors := 0; activeConnections := 0;
                   peakConnections := 0; totalDataSent := 0;
                   totalDataReceived := 0 |} |}.

Definition withMetrics (pm : PerformanceMonitor) (m : Metrics)
  : PerformanceMonitor :=
  {| startTime := startTime pm; metrics := m |}.

Definition recordConnection (pm : PerformanceMonitor) : PerformanceMonitor :=
  let m := metrics pm in
  let active := activeConnections m + 1 in
  withMetrics pm
    {| requests := requests m; errors := errors m;
       activeConnections := active;
       peakConnections :=
         if peakConnections m <? active then active else peakConnections m;
       totalDataSent := totalDataSent m;
       totalDataReceived := totalDataReceived m |}.

Definition recordDisconnection (pm : PerformanceMonitor) : PerformanceMonitor :=
  let m := metrics pm in
  withMetrics pm
    {| requests := requests m; errors := errors m;
       activeConnections := Z.max 0 (activeConnections m - 1);
       peakConnections := peakConnections m;
       totalDataSent := totalDataSent m;
       totalDataReceived := totalDataReceived m |}.

Definition recordRequest (pm : PerformanceMonitor) : PerformanceMonitor :=
  let m := metrics pm in
  withMetrics pm
    {| requests := requests m + 1; errors := errors m;
       activeConnections := activeConnections m;
       peakConnections := peakConnections m;
       totalDataSent := totalDataSent m;
       totalDataReceived := totalDataReceived m |}.

Definition recordError (pm : PerformanceMonitor) : PerformanceMonitor :=
  let m := metrics pm in
  withMetrics pm
    {| requests := requests m; errors := errors m + 1;
       activeConnections := activeConnections m;
       peakConnections := peakConnections m;
       totalDataSent := totalDataSent m;
       totalDataReceived := totalDataReceived m |}.

(** The calls [app.js] and other users make on the monitor. *)
Inductive Call := Connection | Disconnection | Request | Error.

Definition record (c : Call) (pm : PerformanceMonitor) : PerformanceMonitor :=
  match c with
  | Connection => recordConnection pm
  | Disconnection => recordDisconnection pm
  | Request => recordRequest pm
  | Error => recordError pm
  end.

(** The monitor after a sequence of calls, and the number of active
    connections it showed after each of them. *)
Fixpoint recordAll (cs : list Call) (pm : PerformanceMonitor)
  : PerformanceMonitor :=
  match cs with
  | [] => pm
  | c :: rest => recordAll rest (record c pm)
  end.

Fixpoint activeTrace (cs : list Call) (pm : PerformanceMonitor) : list Z :=
  match cs with
  | [] => []
  | c :: rest =>
      activeConnections (metrics (record c pm)) :: activeTrace rest (record c pm)
  end.

Definition isCall (c d : Call) : bool :=
  match c, d with
  | Connection, Connection | Disconnection, Disconnection
  | Request, Request | Error, Error => true
  | _, _ => false
  end.

Definition countCalls (c : Call) (cs : list Call) : Z :=
  Z.of_nat (length (List.filter (isCall c) cs)).

(** A number in a template literal: its decimal digits. *)
Definition numberToString (z : Z) : jsstring := js (pretty z).

(** The four fields [formatUptime] computes: [Math.floor] of a quotient of
    integers and the remainder [%], which takes the sign of the dividend. *)
Definition uptimeFields (seconds : Z) : Z * Z * Z * Z :=
  (seconds / 86400,
   Z.rem seconds 86400 / 3600,
   Z.rem seconds 3600 / 60,
   Z.rem seconds 60).

(** The [parts] array of [formatUptime], each part with its field. *)
Definition uptimeParts (seconds : Z) : list (Z * string) :=
  let '(days, hours, minutes, secs) := uptimeFields seconds in
  (if 0 <? days then [(days, "d"%string)] else [])
  ++ (if 0 <? hours then [(hours, "h"%string)] else [])
  ++ (if 0 <? minutes then [(minutes, "m"%string)] else [])
  ++ [(secs, "s"%string)].

(** [parts.join(' ')]. *)
Fixpoint joinSpace (parts : list jsstring) : jsstring :=
  match parts with
  | [] => []
  | [p] => p
  | p :: rest => p ++ js " " ++ joinSpace rest
  end.

Definition formatUptime (seconds : Z) : jsstring :=
  joinSpace (map (fun p : Z * string => numberToString p.1 ++ js p.2)
                 (uptimeParts seconds)).

(** The seconds a unit letter stands for. *)
Definition unitSeconds (u : string) : Z :=
  if String.eqb u "d" then 86400
  else if String.eqb u "h" then 3600
  else if String.eqb u "m" then 60
  else 1.

Definition partsTotal (parts : list (Z * string)) : Z :=
  fold_right (fun p acc => p.1 * unitSeconds p.2 + acc) 0 parts.

End Monitor.

(* ===================================================================== *)
(** ** public/javaScripts/chessGame_new.js: the pure helpers              *)
(* ===================================================================== *)

Module Client.

(** The rest of [s] after its first [>] (62), if it has one. *)
Fixpoint afterClose (s : jsstring) : option jsstring :=
  match s with
  | [] => None
  | c :: s' => if (c =? 62)%N then Some s' else afterClose s'
  end.

(** [s.replace(/<[^>]*>/g, '')]: scanning from the left, a [<] (60) that is
    followed somewhere by a [>] starts a match that ends at the first such
    [>]; the match is dropped and the scan resumes behind it. A [<] with no
    [>] after it matches nothing and stays. [fuel] bounds the scan. *)
Fixpoint removeTagsFuel (fuel : nat) (s : jsstring) : jsstring :=
  match fuel with
  | O => s
  | S fuel' =>
      match s with
      | [] => []
      | c :: s' =>
          if (c =? 60)%N then
            match afterClose s' with
            | Some rest => removeTagsFuel fuel' rest
            | None => c :: removeTagsFuel fuel' s'
            end
          else c :: removeTagsFuel fuel' s'
      end
  end.

Definition removeTags (s : jsstring) : jsstring := removeTagsFuel (length s) s.

(** [sanitizeInput(input, maxLength)]. *)
Definition sanitizeInput (input : JsVal) (maxLength : nat) : jsstring :=
  match input with
  | JStr s => removeTags (take maxLength (trim s))
  | _ => []
  end.

(** The text has a complete tag: a [<] with a [>] somewhere after it. *)
Definition hasTag (s : jsstring) : Prop :=
  exists before inside after, s = before ++ [60%N] ++ inside ++ [62%N] ++ after.

(** [String.fromCharCode(97 + col) + (8 - row)] of [createSquare]. *)
Definition squareName (row col : Z) : jsstring :=
  Z.to_N ((97 + col) mod 65536) :: Monitor.numberToString (8 - row).

(** [parseInt] of the one-character string [squareName[1]]: a digit gives
    its value, anything else NaN; an absent character gives NaN. *)
Definition parseIntChar (c : option N) : option Z :=
  match c with
  | Some d => if ((48 <=? d) && (d <=? 57))%N then Some (Z.of_N d - 48) else None
  | None => None
  end.

(** [a[i]] for a number [i]: an element for an index in range. *)
Definition at_ {A} (a : list A) (i : Z) : option A :=
  if (0 <=? i) then a !! Z.to_nat i else None.

(** [getPieceAt(squareName)] on the array [chess.board()] returns, once
    [chess] is set; an empty cell is [null]. *)
Definition getPieceAt {Piece} (board : list (list (option Piece)))
    (name : jsstring) : option Piece :=
  match name with
  | [] => None
  | c :: _ =>
      let file := Z.of_N c - 97 in
      match parseIntChar (name !! 1%nat) with
      | None => None
      | Some digit =>
          let rank := 8 - digit in
          match at_ board rank with
          | Some line =>
              match at_ line file with
              | Some cell => cell
              | None => None
              end
          | None => None
          end
      end
  end.

End Client.

(* ===================================================================== *)
(** ** Further concrete cases                                             *)
(* ===================================================================== *)

Module Cases.
Import Scenario.

#[local] Existing Instance AsciiRuntime.
#[local] Existing Instance Stub.engine.

Definition carol : jsstring := js "sock-carol".

(** A chat text with white space around it. *)
Definition padded : jsstring := js "  hi there ".

(** A third connection asks for the white seat of TEST-1, which is taken. *)
Definition lateJoin : Input := joinAs alice2 room1 "white" 3000 "token-z".

Definition whiteMoves : Input := InMove alice e4 3000.

(** carol watches TEST-1. *)
Definition watched : State :=
  (run [joinAs carol room1 "spectator" 3000 "token-s"] seated).1.

(** White has dropped at 10 s; its timer is due at 40 s. *)
Definition whiteGone : State := (handleDisconnection alice 10000 seated).1.

Definition whiteTimer : Timer :=
  {| t_room := 0%nat; t_roomId := room1; t_due := 40000 |}.

Definition whiteSession : Session := {| s_roomId := room1; s_role := SWhite |}.

(** TEST-1 after white's first move. *)
Definition afterE4 : State := (run [whiteMoves] seated).1.

(** The registry after the first look-up of TEST-1. *)
Definition created : State := (getOrCreateRoom room1 1000 initState).1.

(** TEST-1 with both seats taken and TEST-2 with carol as white. *)
Definition twoRooms : State :=
  (run [joinAs carol room2 "white" 3000 "token-c"] seated).1.

Definition blackJoinsSecond : Input :=
  joinAs alice2 room2 "black" 4000 "token-d".

(** A room whose id is the string [undefined], with alice as white. *)
Definition undefinedRoom : jsstring := js "undefined".

Definition haunted : State :=
  (run [joinAs alice undefinedRoom "white" 1000 "token-u"] initState).1.

(** The seated state after the idle sweep of 9 000 000 ms: the sessions are
    still there, their room is not. *)
Definition swept : State := sweepRooms 9000000 seated.

(** A text whose tag shields a space from [trim]. *)
Definition tagged : jsstring := js "  <b> hi</b> ".

(** A board with one piece, on e2. *)
Definition board : list (list (option nat)) :=
  <[6%nat := <[4%nat := Some 1%nat]> (replicate 8 None)]>
    (replicate 8 (replicate 8 None)).

(** Two connections, a request, an error, and both connections gone, with
    one disconnection too many. *)
Definition calls : list Monitor.Call :=
  [Monitor.Connection; Monitor.Connection; Monitor.Request; Monitor.Error;
   Monitor.Disconnection; Monitor.Disconnection; Monitor.Disconnection].

End Cases.

(* ===================================================================== *)
(** ** Properties of the handlers                                         *)
(* ===================================================================== *)

Section Properties.
Context `{R : JsRuntime} `{E : Engine}.

(** *** Access-path facts *)

Lemma member_Own {A} (o : gmap jsstring A) (k : jsstring) (a : A) :
  o !! k = Some a -> member o k = Own a.
Proof. unfold member. intros ->. reflexivity. Qed.

Lemma member_cases {A} (o : gmap jsstring A) (k : jsstring) :
  (exists a, o !! k = Some a /\ member o k = Own a)
  \/ (o !! k = None /\ inheritedKey k = true /\ member o k = Inherited)
  \/ (o !! k = None /\ inheritedKey k = false /\ member o k = Absent).
Proof.
  unfold member. destruct (o !! k) as [a|]; [left; eauto|].
  destruct (inheritedKey k); [right; left|right; right]; auto.
Qed.

Lemma currentRoom_roomAt st sid rid ref room :
  currentRoom st sid = Some (rid, ref, room) -> roomAt st rid = Some (ref, room).
Proof.
  unfold currentRoom. destruct (roomId (connOf st sid)) as [[|c rid']|]; try discriminate.
  destruct (roomAt st (c :: rid')) as [[ref' room']|] eqn:Hr; try discriminate.
  intros [= <- <- <-]. exact Hr.
Qed.

Lemma roomAt_lookups st rid ref room :
  roomAt st rid = Some (ref, room) <->
  gameRooms st !! rid = Some ref /\ heap st !! ref = Some room.
Proof.
  unfold roomAt. split.
  - destruct (gameRooms st !! rid) as [ref'|]; try discriminate.
    destruct (heap st !! ref') as [room'|] eqn:Hh; try discriminate.
    intros [= <- <-]. auto.
  - intros [-> ->]. reflexivity.
Qed.

Lemma roomAt_storeRoom st rid ref room room' :
  roomAt st rid = Some (ref, room) ->
  roomAt (storeRoom st ref room') rid = Some (ref, room').
Proof.
  rewrite !roomAt_lookups. intros [Hg Hh]. cbn. split; [exact Hg|].
  apply lookup_insert_eq.
Qed.

(** *** move *)

Lemma onMove_accept st sid m now rid ref room p' r :
  onTurn st sid rid ref room -> move (chess room) m = MoveOk p' r ->
  onMove sid m now st =
    (storeRoom st ref (recordMove room p' r now),
     [(ToRoom rid, EvMove m); (ToRoom rid, EvBoardState (fen p'));
      (ToRoom rid, EvMoveHistory (moveHistory (recordMove room p' r now)))]
     ++ gameEndEvents rid p').
Proof.
  intros [Hc Hs] Hm. unfold onMove. rewrite Hc.
  rewrite bool_decide_eq_false_2 by (intros Hn; apply Hn, Hs).
  rewrite Hm. reflexivity.
Qed.

Lemma seat_not_not (v : option jsstring) (sid : jsstring) :
  ~ v <> Some sid -> v = Some sid.
Proof. intros Hn. destruct (decide (v = Some sid)); [assumption|contradiction]. Qed.

Lemma onMove_cases st sid m now :
  moveAcceptable st sid m \/ (onMove sid m now st).1 = st.
Proof.
  unfold onMove.
  destruct (currentRoom st sid) as [[[rid ref] room]|] eqn:Hc; [|right; reflexivity].
  case_bool_decide as Hs; [right; reflexivity|].
  destruct (move (chess room) m) as [p' r| |msg] eqn:Hm; try (right; reflexivity).
  left. exists rid, ref, room, p', r. split; [split|]; auto using seat_not_not.
Qed.

Lemma onMove_reject st sid m now :
  ~ moveAcceptable st sid m -> (onMove sid m now st).1 = st.
Proof. intros Hno. destruct (onMove_cases st sid m now); [contradiction|assumption]. Qed.

Lemma app_singleton_neq {A} (l : list A) (x : A) : l ++ [x] <> l.
Proof.
  intros Heq. apply (f_equal (@length A)) in Heq. rewrite length_app in Heq.
  cbn in Heq. lia.
Qed.

(** C1. A move submission is accepted -- a record is appended to
    [moveHistory] and the position replaced by the engine's -- exactly
    when the submitter holds the seat that is to move in its room and the
    rules engine accepts the move. Every other submission leaves the whole
    state, hence [moveHistory] and the position, as it was; a submission
    from the wrong seat or out of turn emits nothing, and one the engine
    rejects (by a falsy result or by throwing) emits [moveError] to the
    submitter alone. *)
Theorem move_accepted_iff_seat_and_engine (st : State) (sid : jsstring)
    (m : MoveInput) (now : Z) :
  (moveApplied st (onMove sid m now st).1 sid <-> moveAcceptable st sid m)
  /\ (forall rid ref room p' r,
        onTurn st sid rid ref room -> move (chess room) m = MoveOk p' r ->
        exists room',
          roomAt (onMove sid m now st).1 rid = Some (ref, room')
          /\ chess room' = p'
          /\ moveHistory room'
             = moveHistory room
               ++ [{| mr_move := san r; mr_color := color r;
                      mr_timestamp := now |}])
  /\ (~ moveAcceptable st sid m -> (onMove sid m now st).1 = st)
  /\ ((forall rid ref room, ~ onTurn st sid rid ref room) ->
        onMove sid m now st = (st, []))
  /\ (forall rid ref room,
        onTurn st sid rid ref room ->
        (forall p' r, move (chess room) m <> MoveOk p' r) ->
        onMove sid m now st = (st, [(ToSocket sid, EvMoveError m)])
        /\ unicastOnly sid (onMove sid m now st).2).
Proof.
  split; [|split; [|split; [|split]]].
  - split.
    + intros (rid & ref & room & room' & rec & Hc & Hr & Hh).
      destruct (onMove_cases st sid m now) as [Hy|Hn]; [exact Hy|].
      exfalso. rewrite Hn in Hr.
      rewrite (currentRoom_roomAt _ _ _ _ _ Hc) in Hr.
      injection Hr as <-. exact (app_singleton_neq _ _ (eq_sym Hh)).
    + intros (rid & ref & room & p' & r & Ht & Hm).
      exists rid, ref, room, (recordMove room p' r now).
      eexists. rewrite (onMove_accept _ _ _ _ _ _ _ _ _ Ht Hm). cbn.
      destruct Ht as [Hc Hs]. split; [exact Hc|]. split; [|reflexivity].
      apply roomAt_storeRoom with (room := room), currentRoom_roomAt with (sid := sid), Hc.
  - intros rid ref room p' r Ht Hm. exists (recordMove room p' r now).
    rewrite (onMove_accept _ _ _ _ _ _ _ _ _ Ht Hm). cbn.
    split; [|split; reflexivity].
    destruct Ht as [Hc Hs].
    apply roomAt_storeRoom with (room := room), currentRoom_roomAt with (sid := sid), Hc.
  - apply onMove_reject.
  - intros Hno. unfold onMove.
    destruct (currentRoom st sid) as [[[rid ref] room]|] eqn:Hc; [|reflexivity].
    case_bool_decide as Hs; [reflexivity|].
    exfalso. apply (Hno rid ref room). split; [exact Hc|].
    auto using seat_not_not.
  - intros rid ref room [Hc Hs] Hrej.
    assert (Hout : onMove sid m now st = (st, [(ToSocket sid, EvMoveError m)])).
    { unfold onMove. rewrite Hc.
      rewrite bool_decide_eq_false_2 by (intros Hn; apply Hn, Hs).
      destruct (move (chess room) m) as [p' r| |msg] eqn:Hm; try reflexivity.
      exfalso. exact (Hrej p' r eq_refl). }
    split; [exact Hout|]. rewrite Hout. cbn.
    constructor; [reflexivity|constructor].
Qed.

(** *** gameEnd *)

Lemma gameEndEvents_all_gameEnd rid p :
  gameEnds (gameEndEvents rid p) = gameEndEvents rid p.
Proof.
  unfold gameEndEvents.
  repeat (match goal with |- context [if ?b then _ else _] => destruct b end);
    reflexivity.
Qed.

Lemma gameEndEvents_at_most_one rid p : (length (gameEndEvents rid p) <= 1)%nat.
Proof.
  unfold gameEndEvents.
  repeat (match goal with |- context [if ?b then _ else _] => destruct b end);
    cbn; lia.
Qed.

Lemma gameEnds_onMove st sid m now :
  gameEnds (onMove sid m now st).2 = []
  \/ exists rid ref room p' r,
       onTurn st sid rid ref room /\ move (chess room) m = MoveOk p' r
       /\ gameEnds (onMove sid m now st).2 = gameEndEvents rid p'.
Proof.
  unfold onMove.
  destruct (currentRoom st sid) as [[[rid ref] room]|] eqn:Hc; [|left; reflexivity].
  case_bool_decide as Hs; [left; reflexivity|].
  destruct (move (chess room) m) as [p' r| |msg] eqn:Hm; try (left; reflexivity).
  right. exists rid, ref, room, p', r.
  split; [split; auto using seat_not_not|]. split; [exact Hm|].
  cbn [snd]. unfold gameEnds at 1. cbn. apply gameEndEvents_all_gameEnd.
Qed.

Lemma gameEndEvents_precedence rid p go cm sm tf im dr :
  game_over = Some go -> in_checkmate = Some cm -> in_stalemate = Some sm ->
  in_threefold_repetition = Some tf -> insufficient_material = Some im ->
  in_draw = Some dr ->
  (forall q, go q = cm q || sm q || tf q || im q || dr q) ->
  gameEndEvents rid p =
    match terminalStatus (cm p) (sm p) (tf p) (im p) (dr p) with
    | Some ty => [(ToRoom rid, gameEndOf ty p)]
    | None => []
    end.
Proof.
  intros Hgo Hcm Hsm Htf Him Hdr Hcontract.
  unfold gameEndEvents, terminalStatus, gameEndOf, seatToMove, callIfPresent.
  rewrite Hgo, Hcm, Hsm, Htf, Him, Hdr, Hcontract.
  destruct (cm p), (sm p), (tf p), (im p), (dr p), (turn p); reflexivity.
Qed.

(** What the block under [// Check for game end conditions] does with a
    library that has the methods it probes, as chess.js had up to 0.13: a
    move emits at most one [gameEnd], whatever the engine, and when the
    engine offers the six end-of-game queries and [game_over] is their
    disjunction, an accepted move emits the [gameEnd] of the first
    condition that holds in the order checkmate, stalemate, repetition,
    insufficient material, other draw -- with the side not to move as
    winner for checkmate and no winner otherwise -- and none when no
    condition holds. *)
Lemma one_gameEnd_by_precedence (st : State) (sid : jsstring)
    (m : MoveInput) (now : Z) :
  (length (gameEnds (onMove sid m now st).2) <= 1)%nat
  /\ forall go cm sm tf im dr,
       game_over = Some go -> in_checkmate = Some cm ->
       in_stalemate = Some sm -> in_threefold_repetition = Some tf ->
       insufficient_material = Some im -> in_draw = Some dr ->
       (forall q, go q = cm q || sm q || tf q || im q || dr q) ->
       forall rid ref room p' r,
         onTurn st sid rid ref room -> move (chess room) m = MoveOk p' r ->
         gameEnds (onMove sid m now st).2
         = match terminalStatus (cm p') (sm p') (tf p') (im p') (dr p') with
           | Some ty => [(ToRoom rid, gameEndOf ty p')]
           | None => []
           end
         /\ (go p' = true ->
             exists ty,
               terminalStatus (cm p') (sm p') (tf p') (im p') (dr p') = Some ty
               /\ gameEnds (onMove sid m now st).2 = [(ToRoom rid, gameEndOf ty p')]).
Proof.
  split.
  - destruct (gameEnds_onMove st sid m now) as [->|(rid & ref & room & p' & r & _ & _ & ->)].
    + cbn. lia.
    + apply gameEndEvents_at_most_one.
  - intros go cm sm tf im dr Hgo Hcm Hsm Htf Him Hdr Hcontract rid ref room p' r Ht Hm.
    assert (Hout : gameEnds (onMove sid m now st).2 = gameEndEvents rid p').
    { rewrite (onMove_accept _ _ _ _ _ _ _ _ _ Ht Hm). cbn [snd].
      unfold gameEnds at 1. cbn. apply gameEndEvents_all_gameEnd. }
    rewrite Hout.
    rewrite (gameEndEvents_precedence rid p' go cm sm tf im dr) by assumption.
    split; [reflexivity|]. intros Hover. rewrite Hcontract in Hover.
    unfold terminalStatus.
    destruct (cm p'), (sm p'), (tf p'), (im p'), (dr p');
      try discriminate Hover; eexists; split; reflexivity.
Qed.

(** Without the [game_over] query nothing is ever reported. *)
Lemma gameEndEvents_without_game_over rid p :
  game_over = None -> gameEndEvents rid p = [].
Proof. intros Hnone. unfold gameEndEvents. rewrite Hnone. reflexivity. Qed.

(** So with a library that has no method [game_over], as chess.js from
    1.0.0 on, no move is ever followed by a [gameEnd], whatever position
    it leads to. *)
Lemma no_gameEnd_without_game_over st sid m now :
  game_over = None -> gameEnds (onMove sid m now st).2 = [].
Proof.
  intros Hnone. unfold onMove.
  destruct (currentRoom st sid) as [[[rid ref] room]|]; [|reflexivity].
  destruct (bool_decide _); [reflexivity|].
  destruct (move (chess room) m) as [p' r| |msg]; try reflexivity.
  cbn [snd]. rewrite (gameEndEvents_without_game_over _ _ Hnone).
  reflexivity.
Qed.

(** *** Chat history *)

Lemma sliceLast_length {A} (n : nat) (l : list A) :
  (length (sliceLast n l) <= n)%nat.
Proof. unfold sliceLast. rewrite length_drop. lia. Qed.

Lemma pushChat_length history entry : (length (pushChat history entry) <= 50)%nat.
Proof.
  unfold pushChat. destruct (50 <? length (history ++ [entry]))%nat eqn:Hlt.
  - apply sliceLast_length.
  - apply Nat.ltb_ge in Hlt. exact Hlt.
Qed.

Lemma pushChat_suffix history entry :
  pushChat history entry
  = drop (length (history ++ [entry]) - 50) (history ++ [entry]).
Proof.
  unfold pushChat, sliceLast.
  destruct (50 <? length (history ++ [entry]))%nat eqn:Hlt; [reflexivity|].
  apply Nat.ltb_ge in Hlt.
  replace (length (history ++ [entry]) - 50)%nat with 0%nat by lia. reflexivity.
Qed.

Lemma pushChat_full history entry :
  length history = 50%nat -> pushChat history entry = tail history ++ [entry].
Proof.
  intros Hlen. rewrite pushChat_suffix, length_app. cbn [length].
  replace (length history + 1 - 50)%nat with 1%nat by lia.
  destruct history as [|e history']; [discriminate Hlen|reflexivity].
Qed.

Lemma pushChat_room history entry :
  (length history < 50)%nat -> pushChat history entry = history ++ [entry].
Proof.
  intros Hlen. rewrite pushChat_suffix, length_app. cbn [length].
  replace (length history + 1 - 50)%nat with 0%nat by lia. reflexivity.
Qed.

(** The three ways a chat submission of a socket in a room ends. *)
Lemma onChatMessage_cases st sid message now rnd rid ref room :
  currentRoom st sid = Some (rid, ref, room) ->
  (exists text, onChatMessage sid message now rnd st = (st, [(ToSocket sid, EvChatError text)])
                /\ (checkRateLimit sid (js "chat") 5 30000 now (rateLimits st)).1 = false)
  \/ (exists text limits,
        checkRateLimit sid (js "chat") 5 30000 now (rateLimits st) = (true, limits)
        /\ onChatMessage sid message now rnd st
           = (setRateLimits st limits, [(ToSocket sid, EvChatError text)]))
  \/ (exists text limits entry,
        checkRateLimit sid (js "chat") 5 30000 now (rateLimits st) = (true, limits)
        /\ validateInput message 200 = Some text
        /\ ce_message entry = text /\ ce_socketId entry = sid
        /\ onChatMessage sid message now rnd st
           = (storeRoom (setRateLimits st limits) ref
                (setChatHistory room (pushChat (chatHistory room) entry)),
              [(ToRoom rid, EvChatMessage entry)])).
Proof.
  intros Hc. unfold onChatMessage. rewrite Hc.
  destruct (checkRateLimit sid (js "chat") 5 30000 now (rateLimits st)) as [[|] limits].
  - cbn [negb]. right.
    destruct (bool_decide (Some sid ≠ white (players room))
              && bool_decide (Some sid ≠ black (players room))).
    + left. eauto.
    + destruct (validateInput message 200) as [text|].
      * right. do 2 eexists. eexists. repeat split; reflexivity.
      * left. eauto.
  - left. eexists. split; reflexivity.
Qed.

(** *** Resign and draw *)

(** C7 (as the code has it). A resign from a seated player emits
    [gameEnd] of type resignation to the room, the opponent winning, and
    changes nothing in the state; a resign from a connection without a
    seat, or without a room, emits nothing and changes nothing. The room
    keeps no mark of the resignation: every later submission is handled
    as if no resign had happened. *)
Theorem resign_emits_and_keeps_state (st : State) (sid : jsstring) :
  (forall rid ref room seat,
     currentRoom st sid = Some (rid, ref, room) ->
     seatHeld room sid = Some seat ->
     onResign sid st
     = (st, [(ToRoom rid,
              EvGameEnd resignation (Some (opponent seat)) (Some seat) None)]))
  /\ ((forall rid ref room,
         currentRoom st sid = Some (rid, ref, room) -> seatHeld room sid = None) ->
      onResign sid st = (st, []))
  /\ (onResign sid st).1 = st
  /\ (forall i, handle i (onResign sid st).1 = handle i st).
Proof.
  assert (Hsame : (onResign sid st).1 = st).
  { unfold onResign.
    destruct (currentRoom st sid) as [[[rid ref] room]|]; [|reflexivity].
    destruct (seatHeld room sid); reflexivity. }
  split; [|split; [|split]].
  - intros rid ref room seat Hc Hs. unfold onResign. rewrite Hc, Hs. reflexivity.
  - intros Hnone. unfold onResign.
    destruct (currentRoom st sid) as [[[rid ref] room]|] eqn:Hc; [|reflexivity].
    rewrite (Hnone rid ref room eq_refl). reflexivity.
  - exact Hsame.
  - intros i. rewrite Hsame. reflexivity.
Qed.

Lemma onOfferDraw_state st sid : (onOfferDraw sid st).1 = st.
Proof.
  unfold onOfferDraw.
  destruct (currentRoom st sid) as [[[rid ref] room]|]; [|reflexivity].
  destruct (seatHeld room sid) as [seat|]; [|reflexivity].
  destruct (seatOf (players room) (opponent seat)) as [[|c o]|]; reflexivity.
Qed.

(** C10. Whatever the state -- so whether or not anyone offered a draw --
    a [respondToDraw] with [accepted] true from a seated player broadcasts
    [gameEnd] of type draw_agreement, without a winner, to the room, and
    the state stays as it was. An [offerDraw] changes no state either:
    nothing records that an offer is outstanding. *)
Theorem draw_accept_needs_no_offer (st : State) (sid rid : jsstring)
    (ref : nat) (room : Room) (seat : Seat) :
  currentRoom st sid = Some (rid, ref, room) ->
  seatHeld room sid = Some seat ->
  onRespondToDraw sid true st
  = (st, [(ToRoom rid,
           EvGameEnd draw_agreement None None
                     (Some "Draw accepted by mutual agreement"%string))])
  /\ (forall other, (onOfferDraw other st).1 = st).
Proof.
  intros Hc Hs. split.
  - unfold onRespondToDraw. rewrite Hc, Hs. reflexivity.
  - intros other. apply onOfferDraw_state.
Qed.

Lemma onRespondToDraw_state st sid accepted :
  (onRespondToDraw sid accepted st).1 = st.
Proof.
  unfold onRespondToDraw.
  destruct (currentRoom st sid) as [[[rid ref] room]|]; [|reflexivity].
  destruct (seatHeld room sid) as [seat|]; [|reflexivity].
  destruct accepted; [reflexivity|].
  destruct (seatOf (players room) (opponent seat)) as [[|c o]|]; reflexivity.
Qed.

Lemma onResign_state st sid : (onResign sid st).1 = st.
Proof.
  unfold onResign.
  destruct (currentRoom st sid) as [[[rid ref] room]|]; [|reflexivity].
  destruct (seatHeld room sid); reflexivity.
Qed.


(** *** The bound on chat history, in every reachable state *)

Lemma chatBounded_store st ref room' :
  chatBounded st -> (length (chatHistory room') <= 50)%nat ->
  chatBounded (storeRoom st ref room').
Proof.
  intros Hb Hlen ref0 room0. cbn. rewrite lookup_insert.
  destruct (decide (ref = ref0)); [intros [= <-]; exact Hlen|apply Hb].
Qed.

Lemma chatBounded_same st st' :
  chatBounded st -> heap st' = heap st -> chatBounded st'.
Proof. intros Hb Hheap ref room. rewrite Hheap. apply Hb. Qed.

Lemma chatBounded_current st sid rid ref room :
  chatBounded st -> currentRoom st sid = Some (rid, ref, room) ->
  (length (chatHistory room) <= 50)%nat.
Proof.
  intros Hb Hc. apply currentRoom_roomAt, roomAt_lookups in Hc as [_ Hh].
  exact (Hb _ _ Hh).
Qed.

Lemma assignRole_chatHistory preferredRole sid rid sessionId room sessions
    room' sessions' notice role :
  assignRole preferredRole sid rid sessionId room sessions
  = (room', sessions', notice, role) ->
  chatHistory room' = chatHistory room.
Proof.
  unfold assignRole, takeSeat, spectate.
  repeat (match goal with |- context [if ?b then _ else _] => destruct b end);
    intros [= <- _ _ _]; reflexivity.
Qed.

Lemma getOrCreateRoom_chatBounded rid now st st1 ref room :
  chatBounded st -> getOrCreateRoom rid now st = (st1, Some (ref, room)) ->
  chatBounded st1 /\ (length (chatHistory room) <= 50)%nat.
Proof.
  intros Hb. unfold getOrCreateRoom.
  destruct (roomAt st rid) as [[ref0 room0]|] eqn:Hr.
  - intros [= <- <- <-]. apply roomAt_lookups in Hr as [_ Hh].
    pose proof (Hb _ _ Hh) as Hlen.
    split; [apply chatBounded_store; [exact Hb|exact Hlen]|exact Hlen].
  - destruct (inheritedKey rid); [discriminate|].
    intros [= <- <- <-]. split; [|cbn; lia].
    intros ref0 room0. cbn. rewrite lookup_insert.
    destruct (decide (nextRef st = ref0)); [intros [= <-]; cbn; lia|apply Hb].
Qed.

Lemma handle_chatBounded st i : chatBounded st -> chatBounded (handle i st).1.
Proof.
  intros Hb. destruct i as [sid roomIdV roleV now sessionId|sid sessionId|sid m now
    |sid message now rnd|sid|sid|sid|sid accepted|sid now|sid now|now| |now];
    cbn [handle fst].
  - unfold onJoinRoom.
    destruct (validateRoomId roomIdV); [|exact Hb]. cbn [negb].
    destruct (validRoles roleV); [|exact Hb]. cbn [negb].
    destruct roomIdV as [|rid|]; try exact Hb.
    destruct roleV as [|preferredRole|]; try exact Hb.
    destruct (getOrCreateRoom rid now st) as [st1 [[ref room]|]] eqn:Hget;
      [|exact Hb].
    destruct (getOrCreateRoom_chatBounded _ _ _ _ _ _ Hb Hget) as [Hb1 Hlen].
    destruct (assignRole preferredRole sid rid sessionId room _)
      as [[[room' sessions'] notice] role] eqn:Hassign.
    apply assignRole_chatHistory in Hassign. cbn [fst].
    intros ref0 room0. cbn. rewrite lookup_insert.
    destruct (decide (ref = ref0)); [intros [= <-]; rewrite Hassign; exact Hlen|].
    apply Hb1.
  - unfold onReconnect.
    destruct sessionId as [|c sessionId]; [exact Hb|].
    destruct (member (playerSessions st) _) as [session| |]; [| |exact Hb].
    + destruct (roomAt st (s_roomId session)) as [[ref room]|] eqn:Hr; [|exact Hb].
      apply roomAt_lookups in Hr as [_ Hh]. pose proof (Hb _ _ Hh) as Hlen.
      destruct (negb (truthy (seatOf (players room) (s_role session)))); cbn [fst];
        (intros ref0 room0; cbn; rewrite lookup_insert;
         destruct (decide (ref = ref0)); [intros [= <-]; exact Hlen|apply Hb]).
    + destruct (roomAt st (js "undefined")) as [[ref room]|] eqn:Hr; [|exact Hb].
      apply roomAt_lookups in Hr as [_ Hh]. pose proof (Hb _ _ Hh) as Hlen.
      destruct (negb (truthy (undefinedKey (players room)))); cbn [fst];
        (intros ref0 room0; cbn; rewrite lookup_insert;
         destruct (decide (ref = ref0)); [intros [= <-]; exact Hlen|apply Hb]).
  - unfold onMove.
    destruct (currentRoom st sid) as [[[rid ref] room]|] eqn:Hc; [|exact Hb].
    destruct (bool_decide _); [exact Hb|].
    destruct (move (chess room) m) as [p' r| |msg]; try exact Hb.
    cbn [fst]. apply chatBounded_store; [exact Hb|].
    exact (chatBounded_current _ _ _ _ _ Hb Hc).
  - unfold onChatMessage.
    destruct (currentRoom st sid) as [[[rid ref] room]|] eqn:Hc; [|exact Hb].
    destruct (checkRateLimit sid (js "chat") 5 30000 now (rateLimits st))
      as [[|] limits]; [|exact Hb].
    cbn [negb]. destruct (_ && _); [exact Hb|].
    destruct (validateInput message 200) as [text|]; [|exact Hb].
    cbn [fst].
    apply (chatBounded_store (setRateLimits st limits)); [exact Hb|].
    apply pushChat_length.
  - unfold onResetGame.
    destruct (currentRoom st sid) as [[[rid ref] room]|] eqn:Hc; [|exact Hb].
    destruct (seatHeld room sid); [|exact Hb].
    cbn [fst]. apply chatBounded_store; [exact Hb|].
    exact (chatBounded_current _ _ _ _ _ Hb Hc).
  - rewrite onResign_state. exact Hb.
  - rewrite onOfferDraw_state. exact Hb.
  - rewrite onRespondToDraw_state. exact Hb.
  - unfold handleDisconnection.
    destruct (currentRoom st sid) as [[[rid ref] room]|] eqn:Hc; [|exact Hb].
    cbn [fst].
    apply (chatBounded_same (storeRoom st ref
             (setSpectators room (filter (fun id => id ≠ sid) (spectators room)))));
      [|reflexivity].
    apply chatBounded_store; [exact Hb|].
    exact (chatBounded_current _ _ _ _ _ Hb Hc).
  - unfold onTimer.
    destruct (disconnectTimer (connOf st sid)) as [timer|]; [|exact Hb].
    destruct (now <? t_due timer); [exact Hb|].
    destruct (heap st !! t_room timer) as [room|] eqn:Hh; [|exact Hb].
    cbn [fst]. pose proof (Hb _ _ Hh) as Hlen.
    intros ref0 room0. cbn. rewrite lookup_insert.
    destruct (decide (t_room timer = ref0)); [|apply Hb].
    intros [= <-]. repeat case_bool_decide; exact Hlen.
  - exact Hb.
  - exact Hb.
  - exact Hb.
Qed.

Lemma reachable_chatBounded st : reachable st -> chatBounded st.
Proof.
  induction 1 as [|i st Hreach IH].
  - intros ref room. cbn. rewrite lookup_empty. discriminate.
  - apply handle_chatBounded, IH.
Qed.

(** C6. In every reachable state the [chatHistory] of every room holds at
    most 50 entries. After a chat message is accepted (broadcast as
    [chatMessage]), the history is the old one with the new entry appended,
    cut from the front: when the history held 50 entries exactly the oldest
    one is gone, and below 50 nothing is. *)
Theorem chat_history_bounded_fifo :
  (forall st, reachable st ->
     forall rid ref room,
       roomAt st rid = Some (ref, room) -> (length (chatHistory room) <= 50)%nat)
  /\ (forall (st : State) sid message now rnd rid ref room entry,
        currentRoom st sid = Some (rid, ref, room) ->
        (onChatMessage sid message now rnd st).2
        = [(ToRoom rid, EvChatMessage entry)] ->
        exists room',
          roomAt (onChatMessage sid message now rnd st).1 rid = Some (ref, room')
          /\ chatHistory room' = pushChat (chatHistory room) entry
          /\ (length (chatHistory room') <= 50)%nat
          /\ chatHistory room'
             = drop (length (chatHistory room ++ [entry]) - 50)
                    (chatHistory room ++ [entry])
          /\ (length (chatHistory room) = 50%nat ->
              chatHistory room' = tail (chatHistory room) ++ [entry])
          /\ ((length (chatHistory room) < 50)%nat ->
              chatHistory room' = chatHistory room ++ [entry])).
Proof.
  split.
  - intros st Hreach rid ref room Hr. apply roomAt_lookups in Hr as [_ Hh].
    exact (reachable_chatBounded st Hreach ref room Hh).
  - intros st sid message now rnd rid ref room entry Hc Hout.
    destruct (onChatMessage_cases st sid message now rnd rid ref room Hc)
      as [(text & Heq & _)|[(text & limits & _ & Heq)
                           |(text & limits & e & _ & _ & _ & _ & Heq)]];
      rewrite Heq in Hout; cbn in Hout; try discriminate Hout.
    injection Hout as ->. rewrite Heq. cbn [fst].
    exists (setChatHistory room (pushChat (chatHistory room) entry)).
    split.
    + apply roomAt_storeRoom with (room := room).
      apply currentRoom_roomAt in Hc. apply roomAt_lookups in Hc.
      apply roomAt_lookups. exact Hc.
    + cbn. split; [reflexivity|].
      split; [apply pushChat_length|].
      split; [apply pushChat_suffix|].
      split; [apply pushChat_full|apply pushChat_room].
Qed.

(** *** Chat text *)

Lemma trim_nil : trim [] = [].
Proof. reflexivity. Qed.

Lemma validateInput_Some input n text :
  validateInput input n = Some text <->
  exists s, input = JStr s /\ text = trim s
            /\ (1 <= length (trim s) <= n)%nat /\ allowedChars (trim s) = true.
Proof.
  unfold validateInput. split.
  - destruct input as [|[|c s]|]; try discriminate.
    destruct (length (trim (c :: s)) =? 0)%nat eqn:H0; [discriminate|].
    destruct (n <? length (trim (c :: s)))%nat eqn:Hn; [discriminate|].
    cbn [orb]. destruct (allowedChars (trim (c :: s))) eqn:Ha; [|discriminate].
    cbn [negb]. intros [= <-]. exists (c :: s).
    apply Nat.eqb_neq in H0. apply Nat.ltb_ge in Hn. repeat split; auto; lia.
  - intros (s & -> & -> & [Hlo Hhi] & Ha).
    destruct s as [|c s]; [cbn in Hlo; lia|].
    destruct (length (trim (c :: s)) =? 0)%nat eqn:H0;
      [apply Nat.eqb_eq in H0; lia|].
    destruct (n <? length (trim (c :: s)))%nat eqn:Hn;
      [apply Nat.ltb_lt in Hn; lia|].
    cbn [orb]. rewrite Ha. reflexivity.
Qed.

Lemma seatHeld_Some room sid seat :
  seatHeld room sid = Some seat -> seatOf (players room) seat = Some sid.
Proof.
  unfold seatHeld. repeat case_bool_decide; intros [= <-]; cbn; congruence.
Qed.

Lemma seatHeld_chat_guard room sid seat :
  seatHeld room sid = Some seat ->
  bool_decide (Some sid ≠ white (players room))
  && bool_decide (Some sid ≠ black (players room)) = false.
Proof.
  unfold seatHeld. repeat case_bool_decide; try discriminate; intros _;
    cbn; try reflexivity; contradiction.
Qed.

Lemma seatHeld_playerRole room sid seat :
  seatHeld room sid = Some seat ->
  (if bool_decide (Some sid = white (players room)) then RoleWhite
   else if bool_decide (Some sid = black (players room)) then RoleBlack
   else RoleSpectator) = roleOfSeat seat.
Proof.
  unfold seatHeld. repeat case_bool_decide; intros [= <-]; reflexivity.
Qed.

Lemma stripMarkup_allowed (s : jsstring) :
  allowedChars s = true -> stripMarkup false s = s.
Proof.
  induction s as [|c s IH]; [reflexivity|].
  unfold allowedChars. cbn [forallb stripMarkup].
  intros Hall. apply andb_prop in Hall as [Hc Hs].
  destruct (c =? 60)%N eqn:Hlt.
  - apply N.eqb_eq in Hlt. subst c. discriminate Hc.
  - rewrite (IH Hs). reflexivity.
Qed.

Lemma sanitizeSpec_valid (s : jsstring) :
  (length (trim s) <= 200)%nat -> allowedChars (trim s) = true ->
  sanitizeSpec s = trim s.
Proof.
  intros Hlen Hall. unfold sanitizeSpec.
  rewrite take_ge by exact Hlen. apply stripMarkup_allowed, Hall.
Qed.

(** C9 (as the code has it). For a chat submission of a seated player that
    passes the rate limiter, the text is validated, not rewritten. It is
    accepted exactly when it is a string whose trimmed form has 1 to 200
    code units, all of them among the allowed characters; the stored and
    broadcast text is then the trimmed input itself, on which capping at
    200 and stripping markup change nothing. Any other submission
    -- empty after trimming, longer than 200, or holding a character
    outside the set, such as an angle bracket -- is answered with the
    invalid-content error to the sender alone and leaves every room as it
    was (only the rate-limit table has counted the submission). *)
Theorem chat_text_validated_not_rewritten (st : State) (sid : jsstring)
    (message : JsVal) (now : Z) (rnd : N) (rid : jsstring) (ref : nat)
    (room : Room) (seat : Seat) (limits : gmap jsstring Limit) :
  currentRoom st sid = Some (rid, ref, room) ->
  checkRateLimit sid (js "chat") 5 30000 now (rateLimits st) = (true, limits) ->
  seatHeld room sid = Some seat ->
  (forall text,
     validateInput message 200 = Some text <->
     exists s, message = JStr s /\ text = trim s
               /\ (1 <= length (trim s) <= 200)%nat
               /\ allowedChars (trim s) = true)
  /\ (forall text,
        validateInput message 200 = Some text ->
        exists s, message = JStr s /\ sanitizeSpec s = text)
  /\ (forall text,
        validateInput message 200 = Some text ->
        let entry := {| ce_id := (now, rnd); ce_message := text;
                        ce_playerRole := roleOfSeat seat; ce_timestamp := now;
                        ce_socketId := sid |} in
        onChatMessage sid message now rnd st
        = (storeRoom (setRateLimits st limits) ref
             (setChatHistory room (pushChat (chatHistory room) entry)),
           [(ToRoom rid, EvChatMessage entry)]))
  /\ (validateInput message 200 = None ->
      onChatMessage sid message now rnd st
      = (setRateLimits st limits,
         [(ToSocket sid, EvChatError "Invalid message content")])
      /\ heap (onChatMessage sid message now rnd st).1 = heap st
      /\ gameRooms (onChatMessage sid message now rnd st).1 = gameRooms st
      /\ unicastOnly sid (onChatMessage sid message now rnd st).2).
Proof.
  intros Hc Hlim Hseat.
  split; [intros text; apply validateInput_Some|].
  split.
  { intros text Hv. apply validateInput_Some in Hv as (s & -> & -> & [_ Hhi] & Hall).
    exists s. split; [reflexivity|]. apply sanitizeSpec_valid; assumption. }
  split.
  - intros text Hv entry. unfold onChatMessage.
    rewrite Hc, Hlim. cbn [negb].
    rewrite (seatHeld_chat_guard _ _ _ Hseat), Hv.
    rewrite (seatHeld_playerRole _ _ _ Hseat). reflexivity.
  - intros Hv.
    assert (Hout : onChatMessage sid message now rnd st
                   = (setRateLimits st limits,
                      [(ToSocket sid, EvChatError "Invalid message content")])).
    { unfold onChatMessage. rewrite Hc, Hlim. cbn [negb].
      rewrite (seatHeld_chat_guard _ _ _ Hseat), Hv. reflexivity. }
    rewrite Hout. cbn. repeat split; try reflexivity.
    constructor; [reflexivity|constructor].
Qed.

(** *** Rate limiter *)

Lemma checkRateLimit_refuses sid action maxRequests windowMs now limits :
  (checkRateLimit sid action maxRequests windowMs now limits).1 = false <->
  exists limit, limits !! rateKey sid action = Some limit
                /\ now <= resetTime limit /\ maxRequests <= count limit.
Proof.
  unfold checkRateLimit.
  destruct (limits !! rateKey sid action) as [limit|] eqn:Hl.
  - destruct (resetTime limit <? now) eqn:Hr.
    + cbn. apply Z.ltb_lt in Hr. split; [discriminate|].
      intros (l & [= <-] & Hle & _). lia.
    + apply Z.ltb_ge in Hr.
      destruct (maxRequests <=? count limit) eqn:Hm; cbn.
      * apply Z.leb_le in Hm. split; eauto.
      * apply Z.leb_gt in Hm. split; [discriminate|].
        intros (l & [= <-] & _ & Hge). lia.
  - cbn. split; [discriminate|]. intros (l & [=] & _).
Qed.

Lemma checkRateLimit_refuses_keeps sid action maxRequests windowMs now limits :
  (checkRateLimit sid action maxRequests windowMs now limits).1 = false ->
  (checkRateLimit sid action maxRequests windowMs now limits).2 = limits.
Proof.
  unfold checkRateLimit.
  destruct (limits !! rateKey sid action) as [limit|]; [|discriminate].
  destruct (resetTime limit <? now); [discriminate|].
  destruct (maxRequests <=? count limit); [reflexivity|discriminate].
Qed.

Lemma filter_length_le_weaken (a c : Z) (log : list Z) :
  a <= c ->
  (length (filter (fun t => (c <= t)%Z) log)
   <= length (filter (fun t => (a <= t)%Z) log))%nat.
Proof.
  intros Hac. induction log as [|t log IH]; [reflexivity|].
  rewrite !filter_cons.
  destruct (decide (c <= t)), (decide (a <= t)); cbn; lia.
Qed.

Lemma filter_snoc_counted (c t : Z) (log : list Z) :
  c <= t ->
  length (filter (fun u => c <= u) (log ++ [t]))
  = S (length (filter (fun u => c <= u) log)).
Proof.
  intros Hct. rewrite filter_app, length_app, filter_cons, filter_nil.
  destruct (decide (c <= t)); [cbn; lia|contradiction].
Qed.

Lemma windowCovers_step sid limits log last t :
  windowCovers sid limits log last -> last <= t ->
  windowCovers sid (checkRateLimit sid (js "chat") 5 30000 t limits).2
    (if (checkRateLimit sid (js "chat") 5 30000 t limits).1
     then log ++ [t] else log) t
  /\ ((checkRateLimit sid (js "chat") 5 30000 t limits).1 = false ->
      (5 <= slidingCount t log)%nat).
Proof.
  unfold windowCovers, checkRateLimit, slidingCount. intros Hw Hlast.
  destruct (limits !! rateKey sid (js "chat")) as [limit|] eqn:Hl.
  - destruct Hw as [Hopen Hcount].
    destruct (resetTime limit <? t) eqn:Hr; cbn [fst snd].
    + rewrite lookup_insert_eq. cbn [resetTime count]. split; [|discriminate].
      split; [lia|]. rewrite filter_snoc_counted by lia. lia.
    + apply Z.ltb_ge in Hr.
      destruct (5 <=? count limit) eqn:Hm; cbn [fst snd].
      * apply Z.leb_le in Hm. rewrite Hl. split; [split; [lia|exact Hcount]|].
        intros _.
        pose proof (filter_length_le_weaken (t - 30000) (resetTime limit - 30000) log
                      ltac:(lia)).
        lia.
      * apply Z.leb_gt in Hm.
        rewrite lookup_insert_eq. cbn [resetTime count]. split; [|discriminate].
        split; [lia|]. rewrite filter_snoc_counted by lia. lia.
  - cbn [fst snd]. rewrite lookup_insert_eq. cbn [resetTime count].
    split; [|discriminate].
    split; [lia|]. rewrite filter_snoc_counted by lia. lia.
Qed.

Lemma letThrough_app times1 vs1 times2 vs2 :
  length times1 = length vs1 ->
  letThrough (times1 ++ times2) (vs1 ++ vs2) = letThrough times1 vs1 ++ letThrough times2 vs2.
Proof.
  revert vs1. induction times1 as [|t times1 IH]; intros [|v vs1] Hlen;
    try discriminate; [reflexivity|].
  cbn. injection Hlen as Hlen. rewrite (IH _ Hlen). destruct v; reflexivity.
Qed.

Lemma last_cons_shift {A} (l : list A) (x d : A) :
  List.last (x :: l) d = List.last l x.
Proof.
  revert x d. induction l as [|y l IH]; intros x d; [reflexivity|].
  change (List.last (x :: y :: l) d) with (List.last (y :: l) d).
  rewrite !IH. reflexivity.
Qed.

Lemma windowCovers_run sid times : forall limits log last,
  windowCovers sid limits log last -> nondecreasing last times ->
  windowCovers sid (chatLimits sid times limits)
    (log ++ letThrough times (chatVerdicts sid times limits))
    (List.last times last).
Proof.
  induction times as [|t times IH]; intros limits log last Hw Hnd.
  - cbn. rewrite app_nil_r. exact Hw.
  - destruct Hnd as [Hle Hnd].
    destruct (windowCovers_step sid limits log last t Hw Hle) as [Hw' _].
    cbn [chatLimits chatVerdicts].
    destruct (checkRateLimit sid (js "chat") 5 30000 t limits) as [ok limits'] eqn:Hck.
    cbn [fst snd] in *.
    specialize (IH limits' _ t Hw' Hnd).
    rewrite last_cons_shift.
    cbn [letThrough]. destruct ok; [|exact IH].
    rewrite <- app_assoc in IH. exact IH.
Qed.

Lemma nondecreasing_app last pre t :
  nondecreasing last (pre ++ [t]) ->
  nondecreasing last pre /\ List.last pre last <= t.
Proof.
  revert last. induction pre as [|u pre IH]; intros last.
  - cbn. tauto.
  - cbn [app nondecreasing]. intros [Hle Hnd]. destruct (IH _ Hnd) as [Hpre Hlast].
    split; [split; assumption|].
    rewrite last_cons_shift. exact Hlast.
Qed.

(** The table after a chat submission of a connection in a room is the
    one [checkRateLimit] returns, whatever becomes of the message. *)
Lemma onChatMessage_rateLimits st sid message now rnd rid ref room :
  currentRoom st sid = Some (rid, ref, room) ->
  rateLimits (onChatMessage sid message now rnd st).1
  = (checkRateLimit sid (js "chat") 5 30000 now (rateLimits st)).2.
Proof.
  intros Hc. unfold onChatMessage. rewrite Hc.
  pose proof (checkRateLimit_refuses_keeps sid (js "chat") 5 30000 now
                (rateLimits st)) as Hkeep.
  destruct (checkRateLimit sid (js "chat") 5 30000 now (rateLimits st))
    as [[|] limits]; cbn [negb fst snd] in *.
  - destruct (_ && _); [reflexivity|].
    destruct (validateInput message 200); reflexivity.
  - symmetry. apply Hkeep. reflexivity.
Qed.

(** C8 (as the code has it). The limiter keeps one fixed window per
    connection, not a sliding one. A chat submission of a connection in a
    room is refused -- the rate-limit notice to the sender alone, the whole
    state as it was -- exactly when the connection's window is still open
    ([now] is not past its [resetTime]) and 5 submissions are already
    counted in it. The window is kept as follows: a submission that finds
    no window, or one whose [resetTime] has passed, opens a window with a
    count of one and a [resetTime] 30 s after that submission; one that
    finds the window open with fewer than 5 counted adds one to the count
    and leaves [resetTime] alone; a refused one leaves the entry as it
    is. A refusal implies that at least 5 earlier submissions were let
    through in the 30 s that end now, so a sender under that bound is
    never limited; the converse fails, since the first submission after
    [resetTime] opens a new window with a count of one. *)
Theorem chat_rate_limit_fixed_window :
  (forall (st : State) sid message now rnd rid ref room,
     currentRoom st sid = Some (rid, ref, room) ->
     ((exists limit,
         rateLimits st !! rateKey sid (js "chat") = Some limit
         /\ now <= resetTime limit /\ 5 <= count limit)
      <-> onChatMessage sid message now rnd st
          = (st, [(ToSocket sid,
                   EvChatError "You are sending messages too quickly")]))
     /\ (onChatMessage sid message now rnd st
         = (st, [(ToSocket sid,
                  EvChatError "You are sending messages too quickly")]) ->
         unicastOnly sid (onChatMessage sid message now rnd st).2))
  /\ (forall (st : State) sid message now rnd rid ref room,
        currentRoom st sid = Some (rid, ref, room) ->
        ((rateLimits st !! rateKey sid (js "chat") = None
          \/ exists limit,
               rateLimits st !! rateKey sid (js "chat") = Some limit
               /\ resetTime limit < now) ->
         rateLimits (onChatMessage sid message now rnd st).1
           !! rateKey sid (js "chat")
         = Some {| count := 1; resetTime := now + 30000 |})
        /\ (forall limit,
              rateLimits st !! rateKey sid (js "chat") = Some limit ->
              now <= resetTime limit ->
              (count limit < 5 ->
               rateLimits (onChatMessage sid message now rnd st).1
                 !! rateKey sid (js "chat")
               = Some {| count := count limit + 1;
                         resetTime := resetTime limit |})
              /\ (5 <= count limit ->
                  rateLimits (onChatMessage sid message now rnd st).1
                    !! rateKey sid (js "chat")
                  = Some limit)))
  /\ (forall sid pre t last,
        nondecreasing last (pre ++ [t]) ->
        (checkRateLimit sid (js "chat") 5 30000 t (chatLimits sid pre ∅)).1 = false ->
        (5 <= slidingCount t (letThrough pre (chatVerdicts sid pre ∅)))%nat).
Proof.
  split.
  - intros st sid message now rnd rid ref room Hc. split.
    + split.
      * intros Hfull.
        apply (checkRateLimit_refuses sid (js "chat") 5 30000 now) in Hfull.
        unfold onChatMessage. rewrite Hc.
        destruct (checkRateLimit sid (js "chat") 5 30000 now (rateLimits st))
          as [ok limits].
        cbn [fst] in Hfull. subst ok. reflexivity.
      * intros Hout.
        apply (checkRateLimit_refuses sid (js "chat") 5 30000 now).
        unfold onChatMessage in Hout. rewrite Hc in Hout.
        destruct (checkRateLimit sid (js "chat") 5 30000 now (rateLimits st))
          as [[|] limits]; [|reflexivity].
        exfalso. cbn [negb] in Hout.
        destruct (bool_decide (Some sid ≠ white (players room))
                  && bool_decide (Some sid ≠ black (players room)));
          [discriminate Hout|].
        destruct (validateInput message 200); discriminate Hout.
    + intros ->. constructor; [reflexivity|constructor].
  - split.
    { intros st sid message now rnd rid ref room Hc.
      rewrite (onChatMessage_rateLimits st sid message now rnd rid ref room Hc).
      unfold checkRateLimit. split.
      - intros [Hnone|(limit & Hl & Hpast)].
        + rewrite Hnone. cbn [snd]. apply lookup_insert_eq.
        + rewrite Hl. rewrite (proj2 (Z.ltb_lt (resetTime limit) now)) by lia.
          cbn [snd]. apply lookup_insert_eq.
      - intros limit Hl Hopen. rewrite Hl.
        rewrite (proj2 (Z.ltb_ge (resetTime limit) now)) by lia. split.
        + intros Hroom. rewrite (proj2 (Z.leb_gt 5 (count limit))) by lia.
          cbn [snd]. apply lookup_insert_eq.
        + intros Hfull. rewrite (proj2 (Z.leb_le 5 (count limit))) by lia.
          cbn [snd]. exact Hl. }
    intros sid pre t last Hnd Hrefused.
    apply nondecreasing_app in Hnd as [Hpre Hlast].
    assert (Hempty : windowCovers sid ∅ [] last).
    { unfold windowCovers. rewrite lookup_empty. exact I. }
    pose proof (windowCovers_run sid pre ∅ [] last Hempty Hpre) as Hw.
    rewrite app_nil_l in Hw.
    exact (proj2 (windowCovers_step sid _ _ _ t Hw Hlast) Hrefused).
Qed.

(** *** Single membership *)

Lemma connOf_setConn st sid c s :
  connOf (setConn st sid c) s = if decide (sid = s) then c else connOf st s.
Proof.
  unfold connOf, setConn. cbn. rewrite lookup_insert.
  destruct (decide (sid = s)); reflexivity.
Qed.

(** An assignment to the room object at [ref], with the connections
    possibly updated: single membership survives when the new contents do
    not repeat an occupant, every occupant has the room as its room id,
    and no connection loses its room id. *)
Lemma singleMembership_store st st' ref room' :
  singleMembership st ->
  heap st' = <[ref := room']> (heap st) ->
  gameRooms st' = gameRooms st ->
  nextRef st' = nextRef st ->
  (forall rid, gameRooms st !! rid = Some ref ->
     NoDup (slots room')
     /\ forall s, s ∈ slots room' -> roomId (connOf st' s) = Some rid) ->
  (forall s r, roomId (connOf st s) = Some r -> roomId (connOf st' s) = Some r) ->
  singleMembership st'.
Proof.
  intros (Halloc & Hinj & Hmem) Hheap Hreg Hnext Hnew Hkeep.
  split; [|split].
  - intros rid ref0. rewrite Hreg, Hnext. apply Halloc.
  - intros rid1 rid2 ref0. rewrite Hreg. apply Hinj.
  - intros rid ref0 room0. rewrite roomAt_lookups, Hreg, Hheap.
    intros [Hg Hh]. destruct (decide (ref = ref0)) as [<-|Hne].
    + rewrite lookup_insert_eq in Hh. injection Hh as <-. apply Hnew, Hg.
    + rewrite lookup_insert_ne in Hh by exact Hne.
      destruct (Hmem rid ref0 room0) as [Hnd Hin];
        [apply roomAt_lookups; auto|].
      split; [exact Hnd|]. intros s Hs. apply Hkeep, Hin, Hs.
Qed.

(** States that differ only outside the registry, the heap and the
    connections. *)
Lemma singleMembership_same st st' :
  singleMembership st ->
  heap st' = heap st -> gameRooms st' = gameRooms st ->
  nextRef st' = nextRef st -> conns st' = conns st ->
  singleMembership st'.
Proof.
  intros (Halloc & Hinj & Hmem) Hheap Hreg Hnext Hconns.
  split; [|split].
  - intros rid ref0. rewrite Hreg, Hnext. apply Halloc.
  - intros rid1 rid2 ref0. rewrite Hreg. apply Hinj.
  - intros rid ref0 room0. rewrite roomAt_lookups, Hreg, Hheap.
    intros Hl. apply roomAt_lookups in Hl.
    destruct (Hmem rid ref0 room0 Hl) as [Hnd Hin]. split; [exact Hnd|].
    intros s Hs. unfold connOf. rewrite Hconns. apply Hin, Hs.
Qed.

Lemma getOrCreateRoom_membership rid now st st1 ref room :
  singleMembership st ->
  getOrCreateRoom rid now st = (st1, Some (ref, room)) ->
  singleMembership st1 /\ roomAt st1 rid = Some (ref, room)
  /\ conns st1 = conns st.
Proof.
  intros Hinv. unfold getOrCreateRoom.
  destruct (roomAt st rid) as [[ref0 room0]|] eqn:Hr.
  - intros [= <- <- <-]. split; [|split; [|reflexivity]].
    + pose proof Hr as Hl. apply roomAt_lookups in Hl as [Hg Hh].
      apply (singleMembership_store st _ ref0 (setLastActivity room0 now) Hinv);
        try reflexivity.
      * intros rid' Hg'. destruct Hinv as (_ & Hinj & Hmem).
        rewrite (Hinj _ _ _ Hg' Hg).
        exact (Hmem _ _ _ Hr).
      * auto.
    + apply roomAt_storeRoom with (room := room0), Hr.
  - destruct (inheritedKey rid); [discriminate|].
    intros [= <- <- <-]. destruct Hinv as (Halloc & Hinj & Hmem).
    split; [|split; [|reflexivity]].
    + split; [|split].
      * intros rid' ref'. cbn. rewrite lookup_insert.
        destruct (decide (rid = rid')); [intros [= <-]; lia|].
        intros Hg. apply Halloc in Hg. lia.
      * intros rid1 rid2 ref'. cbn. rewrite !lookup_insert.
        destruct (decide (rid = rid1)) as [<-|], (decide (rid = rid2)) as [<-|];
          auto.
        -- intros [= <-] Hg. apply Halloc in Hg. lia.
        -- intros Hg [= <-]. apply Halloc in Hg. lia.
        -- apply Hinj.
      * intros rid' ref' room'. rewrite roomAt_lookups. cbn.
        rewrite lookup_insert. destruct (decide (rid = rid')) as [<-|Hne].
        -- intros [[= <-] Hh]. rewrite lookup_insert_eq in Hh.
           injection Hh as <-. cbn. split; [constructor|].
           intros s Hs. inversion Hs.
        -- intros [Hg Hh]. pose proof (Halloc _ _ Hg).
           rewrite lookup_insert_ne in Hh by lia.
           apply (Hmem rid' ref' room'). apply roomAt_lookups. auto.
    + apply roomAt_lookups. cbn. rewrite !lookup_insert_eq. auto.
Qed.

Lemma placed_takeSeat sid room seat :
  placed sid room (setPlayers room (setSeat (players room) seat (Some sid))).
Proof.
  unfold placed, slots. destruct room as [ch [wh bl un] cp sp mh chh ca la].
  destruct seat; cbn; split.
  - intros Hnd Hnew. apply NoDup_cons. split.
    + intros Hin. apply Hnew. apply elem_of_app. right. exact Hin.
    + apply NoDup_app in Hnd as (_ & _ & Hnd). exact Hnd.
  - intros s Hs. apply elem_of_cons in Hs as [->|Hs]; [left; reflexivity|].
    right. apply elem_of_app. right. exact Hs.
  - intros Hnd Hnew. apply NoDup_app in Hnd as (Hw & Hdisj & Hrest).
    apply NoDup_app in Hrest as (_ & _ & Hsp).
    apply NoDup_app. split; [exact Hw|]. split.
    + intros x Hx Hin. apply elem_of_cons in Hin as [->|Hin].
      * apply Hnew. apply elem_of_app. left. exact Hx.
      * apply (Hdisj x Hx). apply elem_of_app. right. exact Hin.
    + apply NoDup_cons. split; [|exact Hsp].
      intros Hin. apply Hnew. apply elem_of_app. right.
      apply elem_of_app. right. exact Hin.
  - intros s Hs. apply elem_of_app in Hs as [Hs|Hs].
    + right. apply elem_of_app. left. exact Hs.
    + apply elem_of_cons in Hs as [->|Hs]; [left; reflexivity|].
      right. apply elem_of_app. right. apply elem_of_app. right. exact Hs.
Qed.

Lemma placed_spectate sid room :
  placed sid room (setSpectators room (spectators room ++ [sid])).
Proof.
  unfold placed, slots. cbn. split.
  - intros Hnd Hnew. rewrite !app_assoc. apply NoDup_app. split; [|split].
    + rewrite <- app_assoc. exact Hnd.
    + intros x Hx Hin. apply list_elem_of_singleton in Hin as ->.
      apply Hnew. rewrite <- app_assoc in Hx. exact Hx.
    + apply NoDup_singleton.
  - intros s Hs. rewrite !app_assoc in Hs. apply elem_of_app in Hs as [Hs|Hs].
    + right. rewrite <- app_assoc in Hs. exact Hs.
    + apply list_elem_of_singleton in Hs. left. exact Hs.
Qed.

Lemma placed_assignRole preferredRole sid rid sessionId room sessions
    room' sessions' notice role :
  assignRole preferredRole sid rid sessionId room sessions
  = (room', sessions', notice, role) ->
  placed sid room room'.
Proof.
  unfold assignRole, takeSeat, spectate.
  repeat (match goal with |- context [if ?b then _ else _] => destruct b end);
    intros [= <- _ _ _];
    first [ exact (placed_takeSeat sid room SWhite)
          | exact (placed_takeSeat sid room SBlack)
          | exact (placed_spectate sid room) ].
Qed.

(** The common end of [joinRoom] and [reconnect]: the connection gets the
    room id and the room object its new contents. *)
Lemma singleMembership_place st sid rid ref room room' timer :
  singleMembership st ->
  roomAt st rid = Some (ref, room) ->
  roomId (connOf st sid) = None ->
  placed sid room room' ->
  singleMembership
    (storeRoom (setConn st sid {| roomId := Some rid; disconnectTimer := timer |})
               ref room').
Proof.
  intros Hinv Hr Hfresh [Hnd Hin].
  pose proof Hinv as (_ & Hinj & Hmem).
  destruct (Hmem _ _ _ Hr) as [Hnd0 Hin0].
  pose proof Hr as Hl. apply roomAt_lookups in Hl as [Hg Hh].
  apply (singleMembership_store st _ ref room' Hinv); try reflexivity.
  - intros rid' Hg'. rewrite (Hinj _ _ _ Hg' Hg). split.
    + apply Hnd; [exact Hnd0|]. intros Hs. apply Hin0 in Hs. congruence.
    + intros s Hs. unfold storeRoom, setHeap, connOf. cbn.
      destruct (Hin s Hs) as [->|Hold].
      * rewrite lookup_insert_eq. reflexivity.
      * rewrite lookup_insert. destruct (decide (sid = s)); [reflexivity|].
        apply Hin0, Hold.
  - intros s r Hs. unfold storeRoom, setHeap, connOf. cbn.
    rewrite lookup_insert. destruct (decide (sid = s)) as [<-|]; [congruence|].
    exact Hs.
Qed.

Lemma onJoinRoom_membership st sid roomIdV roleV now sessionId :
  singleMembership st -> roomId (connOf st sid) = None ->
  singleMembership (onJoinRoom sid roomIdV roleV now sessionId st).1.
Proof.
  intros Hinv Hfresh. unfold onJoinRoom.
  destruct (validateRoomId roomIdV); [|exact Hinv]. cbn [negb].
  destruct (validRoles roleV); [|exact Hinv]. cbn [negb].
  destruct roomIdV as [|rid|]; try exact Hinv.
  destruct roleV as [|preferredRole|]; try exact Hinv.
  destruct (getOrCreateRoom rid now st) as [st1 [[ref room]|]] eqn:Hget;
    [|exact Hinv].
  destruct (getOrCreateRoom_membership _ _ _ _ _ _ Hinv Hget) as (Hinv1 & Hr1 & Hc1).
  destruct (assignRole preferredRole sid rid sessionId room _)
    as [[[room' sessions'] notice] role] eqn:Hassign.
  cbn [fst].
  apply placed_assignRole in Hassign.
  assert (Hfresh1 : roomId (connOf st1 sid) = None).
  { unfold connOf. rewrite Hc1. exact Hfresh. }
  pose proof (singleMembership_place st1 sid rid ref room room'
                (disconnectTimer (connOf st1 sid)) Hinv1 Hr1 Hfresh1 Hassign) as Hfinal.
  eapply singleMembership_same; [exact Hfinal| reflexivity..].
Qed.

Lemma onReconnect_membership st sid sessionId :
  singleMembership st -> roomId (connOf st sid) = None ->
  member (playerSessions st) sessionId <> Inherited ->
  singleMembership (onReconnect sid sessionId st).1.
Proof.
  intros Hinv Hfresh Hown. unfold onReconnect.
  destruct sessionId as [|c sessionId]; [exact Hinv|].
  destruct (member (playerSessions st) _) as [session| |];
    [|contradiction|exact Hinv].
  destruct (roomAt st (s_roomId session)) as [[ref room]|] eqn:Hr; [|exact Hinv].
  destruct (negb (truthy (seatOf (players room) (s_role session)))); cbn [fst].
  - apply (singleMembership_place st sid _ ref room _ _ Hinv Hr Hfresh).
    apply placed_takeSeat.
  - apply (singleMembership_place st sid _ ref room _ _ Hinv Hr Hfresh).
    apply placed_spectate.
Qed.

(** An assignment that leaves the occupants of the submitter's room as
    they are (a move, a chat entry, a reset). *)
Lemma singleMembership_sameSlots st sid rid ref room room' :
  singleMembership st ->
  currentRoom st sid = Some (rid, ref, room) ->
  slots room' = slots room ->
  singleMembership (storeRoom st ref room').
Proof.
  intros Hinv Hc Hslots. apply currentRoom_roomAt in Hc.
  pose proof Hinv as (_ & Hinj & Hmem).
  pose proof Hc as Hl. apply roomAt_lookups in Hl as [Hg Hh].
  apply (singleMembership_store st _ ref room' Hinv); try reflexivity; [|auto].
  intros rid' Hg'. rewrite (Hinj _ _ _ Hg' Hg), Hslots. exact (Hmem _ _ _ Hc).
Qed.

Lemma onMove_membership st sid m now :
  singleMembership st -> singleMembership (onMove sid m now st).1.
Proof.
  intros Hinv. unfold onMove.
  destruct (currentRoom st sid) as [[[rid ref] room]|] eqn:Hc; [|exact Hinv].
  destruct (bool_decide _); [exact Hinv|].
  destruct (move (chess room) m) as [p' r| |msg]; try exact Hinv.
  cbn [fst]. apply (singleMembership_sameSlots st sid rid ref room _ Hinv Hc).
  reflexivity.
Qed.

Lemma onChatMessage_membership st sid message now rnd :
  singleMembership st -> singleMembership (onChatMessage sid message now rnd st).1.
Proof.
  intros Hinv. unfold onChatMessage.
  destruct (currentRoom st sid) as [[[rid ref] room]|] eqn:Hc; [|exact Hinv].
  destruct (checkRateLimit sid (js "chat") 5 30000 now (rateLimits st))
    as [[|] limits]; [|exact Hinv].
  cbn [negb].
  assert (Hinv1 : singleMembership (setRateLimits st limits)).
  { apply (singleMembership_same st); auto. }
  destruct (_ && _); [exact Hinv1|].
  destruct (validateInput message 200) as [text|]; [|exact Hinv1].
  cbn [fst].
  apply (singleMembership_sameSlots (setRateLimits st limits) sid rid ref room _ Hinv1);
    [exact Hc|reflexivity].
Qed.

Lemma onResetGame_membership st sid :
  singleMembership st -> singleMembership (onResetGame sid st).1.
Proof.
  intros Hinv. unfold onResetGame.
  destruct (currentRoom st sid) as [[[rid ref] room]|] eqn:Hc; [|exact Hinv].
  destruct (seatHeld room sid); [|exact Hinv].
  cbn [fst]. apply (singleMembership_sameSlots st sid rid ref room _ Hinv Hc).
  reflexivity.
Qed.

Lemma NoDup_app_filter (l1 l2 : list jsstring) (sid : jsstring) :
  NoDup (l1 ++ l2) -> NoDup (l1 ++ filter (fun id => id ≠ sid) l2).
Proof.
  intros Hnd. apply NoDup_app in Hnd as (H1 & Hdisj & H2).
  apply NoDup_app. split; [exact H1|]. split.
  - intros x Hx Hin. apply list_elem_of_filter in Hin as [_ Hin].
    exact (Hdisj x Hx Hin).
  - apply NoDup_filter, H2.
Qed.

Lemma handleDisconnection_membership st sid now :
  singleMembership st -> singleMembership (handleDisconnection sid now st).1.
Proof.
  intros Hinv. unfold handleDisconnection.
  destruct (currentRoom st sid) as [[[rid ref] room]|] eqn:Hc; [|exact Hinv].
  cbn [fst]. apply currentRoom_roomAt in Hc.
  pose proof Hinv as (_ & Hinj & Hmem).
  destruct (Hmem _ _ _ Hc) as [Hnd Hin].
  pose proof Hc as Hl. apply roomAt_lookups in Hl as [Hg Hh].
  eapply (singleMembership_store st _ ref _ Hinv); try reflexivity.
  - intros rid' Hg'. rewrite (Hinj _ _ _ Hg' Hg). unfold slots in *. cbn.
    split.
    + rewrite app_assoc. apply NoDup_app_filter. rewrite <- app_assoc. exact Hnd.
    + intros s Hs. rewrite connOf_setConn.
      assert (Hold : s ∈ option_list (white (players room))
                         ++ option_list (black (players room)) ++ spectators room).
      { rewrite !elem_of_app in *. rewrite list_elem_of_filter in Hs. tauto. }
      destruct (decide (sid = s)) as [<-|]; cbn; apply Hin; exact Hold.
  - intros s r Hs. rewrite connOf_setConn.
    destruct (decide (sid = s)) as [<-|]; cbn; exact Hs.
Qed.

Lemma slots_vacate_white room :
  NoDup (slots room) ->
  NoDup (slots (setPlayers room (setSeat (players room) SWhite None)))
  /\ forall s, s ∈ slots (setPlayers room (setSeat (players room) SWhite None)) ->
               s ∈ slots room.
Proof.
  unfold slots. cbn. intros Hnd. split.
  - apply NoDup_app in Hnd as (_ & _ & Hnd). exact Hnd.
  - intros s Hs. apply elem_of_app. right. exact Hs.
Qed.

Lemma slots_vacate_black room :
  NoDup (slots room) ->
  NoDup (slots (setPlayers room (setSeat (players room) SBlack None)))
  /\ forall s, s ∈ slots (setPlayers room (setSeat (players room) SBlack None)) ->
               s ∈ slots room.
Proof.
  unfold slots. cbn. intros Hnd. split.
  - apply NoDup_app in Hnd as (Hw & Hdisj & Hrest).
    apply NoDup_app in Hrest as (_ & _ & Hsp).
    apply NoDup_app. split; [exact Hw|]. split; [|exact Hsp].
    intros x Hx Hin. apply (Hdisj x Hx). apply elem_of_app. right. exact Hin.
  - intros s Hs. rewrite !elem_of_app in *. tauto.
Qed.

Lemma onTimer_membership st sid now :
  singleMembership st -> singleMembership (onTimer sid now st).1.
Proof.
  intros Hinv. unfold onTimer.
  destruct (disconnectTimer (connOf st sid)) as [timer|]; [|exact Hinv].
  destruct (now <? t_due timer); [exact Hinv|].
  destruct (heap st !! t_room timer) as [room|] eqn:Hh; [|exact Hinv].
  cbn [fst]. pose proof Hinv as (_ & _ & Hmem).
  eapply (singleMembership_store st _ (t_room timer) _ Hinv); try reflexivity.
  - intros rid Hg.
    destruct (Hmem rid (t_room timer) room) as [Hnd Hin];
      [apply roomAt_lookups; auto|].
    assert (Hkeep : forall s, s ∈ slots room ->
              roomId (connOf (setConn (storeRoom st (t_room timer) room) sid
                 {| roomId := roomId (connOf st sid); disconnectTimer := None |}) s)
              = Some rid).
    { intros s Hs. rewrite connOf_setConn.
      destruct (decide (sid = s)) as [<-|]; cbn; apply Hin; exact Hs. }
    repeat case_bool_decide.
    + destruct (slots_vacate_white room Hnd) as [Hnd' Hsub].
      split; [exact Hnd'|]. intros s Hs. apply Hkeep, Hsub, Hs.
    + destruct (slots_vacate_black room Hnd) as [Hnd' Hsub].
      split; [exact Hnd'|]. intros s Hs. apply Hkeep, Hsub, Hs.
    + split; [exact Hnd|]. exact Hkeep.
  - intros s r Hs. rewrite connOf_setConn.
    destruct (decide (sid = s)) as [<-|]; cbn; exact Hs.
Qed.

Lemma sweepRooms_lookup now st rid ref :
  gameRooms (sweepRooms now st) !! rid = Some ref ->
  gameRooms st !! rid = Some ref.
Proof.
  unfold sweepRooms. cbn. rewrite lookup_omap.
  destruct (gameRooms st !! rid) as [ref0|]; [|discriminate]. cbn.
  destruct (heap st !! ref0) as [room|]; [|auto].
  destruct (inactivityThreshold <? now - lastActivity room); [discriminate|auto].
Qed.

Lemma sweepRooms_membership st now :
  singleMembership st -> singleMembership (sweepRooms now st).
Proof.
  intros (Halloc & Hinj & Hmem). split; [|split].
  - intros rid ref Hg. apply sweepRooms_lookup in Hg. exact (Halloc _ _ Hg).
  - intros rid1 rid2 ref H1 H2. apply sweepRooms_lookup in H1, H2.
    exact (Hinj _ _ _ H1 H2).
  - intros rid ref room Hr. apply roomAt_lookups in Hr as [Hg Hh].
    apply sweepRooms_lookup in Hg.
    apply (Hmem rid ref room). apply roomAt_lookups. auto.
Qed.

Lemma handle_membership st i :
  singleMembership st -> firstJoin st i -> singleMembership (handle i st).1.
Proof.
  intros Hinv Hfirst. destruct i; cbn [handle fst].
  - apply onJoinRoom_membership; assumption.
  - destruct Hfirst as [Hfresh Hown]. apply onReconnect_membership; assumption.
  - apply onMove_membership, Hinv.
  - apply onChatMessage_membership, Hinv.
  - apply onResetGame_membership, Hinv.
  - rewrite onResign_state. exact Hinv.
  - rewrite onOfferDraw_state. exact Hinv.
  - rewrite onRespondToDraw_state. exact Hinv.
  - apply handleDisconnection_membership, Hinv.
  - apply onTimer_membership, Hinv.
  - apply sweepRooms_membership, Hinv.
  - apply (singleMembership_same st); auto.
  - apply (singleMembership_same st); auto.
Qed.

Lemma initState_membership : singleMembership initState.
Proof.
  split; [|split].
  - intros rid ref. cbn. rewrite lookup_empty. discriminate.
  - intros rid1 rid2 ref. cbn. rewrite lookup_empty. discriminate.
  - intros rid ref room. rewrite roomAt_lookups. cbn. rewrite lookup_empty.
    intros [[=] _].
Qed.

Lemma reachableJoinOnce_membership st :
  reachableJoinOnce st -> singleMembership st.
Proof.
  induction 1 as [|i st Hreach IH Hfirst].
  - apply initState_membership.
  - apply handle_membership; assumption.
Qed.

(** *** Grace period and idle sweep: what the handlers do *)

(** A disconnect leaves the seats of the room as they are: the seat stays
    occupied by the old socket id until the timer runs. *)
Lemma handleDisconnection_keeps_players st sid now rid ref room :
  currentRoom st sid = Some (rid, ref, room) ->
  exists room',
    roomAt (handleDisconnection sid now st).1 rid = Some (ref, room')
    /\ players room' = players room.
Proof.
  intros Hc. unfold handleDisconnection. rewrite Hc. cbn [fst].
  exists (setSpectators room (filter (fun id => id ≠ sid) (spectators room))).
  split; [|reflexivity].
  apply currentRoom_roomAt, roomAt_lookups in Hc as [Hg Hh].
  apply roomAt_lookups. cbn. split; [exact Hg|apply lookup_insert_eq].
Qed.

(** A reconnect that finds its seat still occupied is made a spectator;
    the seat is not handed over. *)
Lemma onReconnect_seat_taken st sid (token : jsstring) session ref room :
  token <> [] ->
  playerSessions st !! token = Some session ->
  roomAt st (s_roomId session) = Some (ref, room) ->
  truthy (seatOf (players room) (s_role session)) = true ->
  exists room',
    roomAt (onReconnect sid token st).1 (s_roomId session) = Some (ref, room')
    /\ players room' = players room
    /\ spectators room' = spectators room ++ [sid]
    /\ In (ToSocket sid, EvRoleAssigned RoleSpectator)
          (onReconnect sid token st).2.
Proof.
  intros Hne Hs Hr Htaken. unfold onReconnect.
  destruct token as [|c token]; [contradiction|].
  rewrite (member_Own _ _ _ Hs), Hr, Htaken. cbn [negb fst snd].
  exists (setSpectators room (spectators room ++ [sid])).
  split; [|split; [reflexivity|split; [reflexivity|left; reflexivity]]].
  apply roomAt_lookups in Hr as [Hg Hh].
  apply roomAt_lookups. cbn. split; [exact Hg|apply lookup_insert_eq].
Qed.

(** A move stores nothing in [lastActivity]: every room object keeps the
    value it had, and the registry is as it was. *)
Lemma onMove_keeps_lastActivity st sid m now ref room :
  heap st !! ref = Some room ->
  gameRooms (onMove sid m now st).1 = gameRooms st
  /\ exists room',
       heap (onMove sid m now st).1 !! ref = Some room'
       /\ lastActivity room' = lastActivity room.
Proof.
  intros Hh. unfold onMove.
  destruct (currentRoom st sid) as [[[rid ref0] room0]|] eqn:Hc; [|eauto].
  destruct (bool_decide _); [eauto|].
  destruct (move (chess room0) m) as [p' r| |msg]; eauto.
  cbn [fst]. split; [reflexivity|]. cbn.
  apply currentRoom_roomAt, roomAt_lookups in Hc as [_ Hh0].
  destruct (decide (ref0 = ref)) as [->|Hne].
  - rewrite lookup_insert_eq. eexists. split; [reflexivity|]. cbn. congruence.
  - rewrite lookup_insert_ne by exact Hne. eauto.
Qed.

(** Hence a reconnect that arrives between the disconnect of a seated
    player and the run of its timer cannot give the seat back: the token's
    seat is still held, by the socket id that left. *)
Lemma reconnect_before_timer_spectates st (sid : jsstring) now rid ref room
    (token : jsstring) session other :
  currentRoom st sid = Some (rid, ref, room) ->
  sid <> [] ->
  seatOf (players room) (s_role session) = Some sid ->
  token <> [] ->
  playerSessions st !! token = Some session ->
  s_roomId session = rid ->
  In (ToSocket other, EvRoleAssigned RoleSpectator)
     (onReconnect other token (handleDisconnection sid now st).1).2.
Proof.
  intros Hc Hsid Hseat Htoken Hs Hrid.
  destruct (handleDisconnection_keeps_players st sid now rid ref room Hc)
    as (room' & Hr' & Hplayers).
  assert (Hs' : playerSessions (handleDisconnection sid now st).1 !! token
                = Some session).
  { unfold handleDisconnection. rewrite Hc. exact Hs. }
  rewrite <- Hrid in Hr'.
  destruct (onReconnect_seat_taken _ other token session ref room' Htoken Hs' Hr')
    as (_ & _ & _ & _ & Hin).
  - rewrite Hplayers, Hseat. destruct sid; [contradiction|reflexivity].
  - exact Hin.
Qed.

End Properties.

(* ===================================================================== *)
(** ** Properties of the string helpers                                   *)
(* ===================================================================== *)

Lemma dropSpaces_noLeadingSpace s : noLeadingSpace (dropSpaces s).
Proof.
  induction s as [|c s IH]; [exact I|].
  cbn. destruct (isSpace c) eqn:Hc; [exact IH|exact Hc].
Qed.

Lemma dropSpaces_fixed s : noLeadingSpace s -> dropSpaces s = s.
Proof. destruct s as [|c s]; [reflexivity|]. cbn. intros ->. reflexivity. Qed.

Lemma dropSpaces_suffix s : exists pre, s = pre ++ dropSpaces s.
Proof.
  induction s as [|c s [pre IH]]; [exists []; reflexivity|].
  cbn. destruct (isSpace c).
  - exists (c :: pre). cbn. rewrite <- IH. reflexivity.
  - exists []. reflexivity.
Qed.

Lemma noLeadingSpace_prefix (x y : jsstring) :
  noLeadingSpace (x ++ y) -> x <> [] -> noLeadingSpace x.
Proof. destruct x as [|c x]; [contradiction|]. cbn. auto. Qed.

Lemma trim_noLeadingSpace s : noLeadingSpace (trim s).
Proof.
  unfold trim.
  destruct (dropSpaces_suffix (rev (dropSpaces s))) as [pre Hpre].
  set (b := dropSpaces (rev (dropSpaces s))) in *.
  destruct (decide (rev b = [])) as [->|Hne]; [exact I|].
  apply (noLeadingSpace_prefix (rev b) (rev pre)); [|exact Hne].
  rewrite <- rev_app_distr, <- Hpre, rev_involutive.
  apply dropSpaces_noLeadingSpace.
Qed.

Lemma trim_noTrailingSpace s : noLeadingSpace (rev (trim s)).
Proof. unfold trim. rewrite rev_involutive. apply dropSpaces_noLeadingSpace. Qed.

Lemma trim_fixed s :
  noLeadingSpace s -> noLeadingSpace (rev s) -> trim s = s.
Proof.
  intros Hl Ht. unfold trim.
  rewrite (dropSpaces_fixed s Hl), (dropSpaces_fixed (rev s) Ht).
  apply rev_involutive.
Qed.

Lemma trim_idempotent s : trim (trim s) = trim s.
Proof. apply trim_fixed; [apply trim_noLeadingSpace|apply trim_noTrailingSpace]. Qed.

Lemma validateInput_fixpoint input n text :
  validateInput input n = Some text -> validateInput (JStr text) n = Some text.
Proof.
  intros Hv. apply validateInput_Some in Hv as (s & -> & -> & Hlen & Hall).
  apply validateInput_Some. exists (trim s).
  rewrite trim_idempotent. auto.
Qed.

(** X1. What [validateInput] returns is in normal form: it begins and ends
    with a character that is not white space, and validating it again
    returns it unchanged. *)
Theorem validateInput_result_is_normal (input : JsVal) (n : nat) (text : jsstring) :
  validateInput input n = Some text ->
  validateInput (JStr text) n = Some text
  /\ trim text = text
  /\ noLeadingSpace text /\ noLeadingSpace (rev text)
  /\ text <> [].
Proof.
  intros Hv. split; [exact (validateInput_fixpoint _ _ _ Hv)|].
  apply validateInput_Some in Hv as (s & -> & -> & Hlen & Hall).
  split; [apply trim_idempotent|].
  split; [apply trim_noLeadingSpace|].
  split; [apply trim_noTrailingSpace|].
  intros Hnil. rewrite Hnil in Hlen. cbn in Hlen. lia.
Qed.

(* ===================================================================== *)
(** ** Further properties of the coordinator                              *)
(* ===================================================================== *)

Section MoreProperties.
Context `{R : JsRuntime} `{E : Engine}.

(** *** The registry stays well formed *)

Lemma wellFormed_store st st' ref room room' :
  wellFormed st -> heap st !! ref = Some room ->
  heap st' = <[ref := room']> (heap st) ->
  gameRooms st' = gameRooms st -> nextRef st' = nextRef st ->
  wellFormed st'.
Proof.
  intros (Halloc & Hlive & Hinj) Hh Hheap Hreg Hnext. split; [|split].
  - intros ref0 room0. rewrite Hheap, Hnext, lookup_insert.
    destruct (decide (ref = ref0)) as [<-|]; [intros _; eauto|apply Halloc].
  - intros rid ref0. rewrite Hreg, Hheap, lookup_insert. intros Hg.
    destruct (decide (ref = ref0)); [eauto|exact (Hlive _ _ Hg)].
  - intros rid1 rid2 ref0. rewrite Hreg. apply Hinj.
Qed.

Lemma wellFormed_same st st' :
  wellFormed st -> heap st' = heap st -> gameRooms st' = gameRooms st ->
  nextRef st' = nextRef st -> wellFormed st'.
Proof.
  intros (Halloc & Hlive & Hinj) Hheap Hreg Hnext. split; [|split].
  - intros ref room. rewrite Hheap, Hnext. apply Halloc.
  - intros rid ref. rewrite Hreg, Hheap. apply Hlive.
  - intros rid1 rid2 ref. rewrite Hreg. apply Hinj.
Qed.

Lemma wellFormed_roomAt st rid ref :
  wellFormed st -> gameRooms st !! rid = Some ref ->
  exists room, roomAt st rid = Some (ref, room).
Proof.
  intros (_ & Hlive & _) Hg. destruct (Hlive _ _ Hg) as [room Hh].
  exists room. apply roomAt_lookups. auto.
Qed.

Lemma getOrCreateRoom_wellFormed rid now st st1 ref room :
  wellFormed st -> getOrCreateRoom rid now st = (st1, Some (ref, room)) ->
  wellFormed st1 /\ heap st1 !! ref = Some room
  /\ gameRooms st1 !! rid = Some ref.
Proof.
  intros Hwf. unfold getOrCreateRoom.
  destruct (roomAt st rid) as [[ref0 room0]|] eqn:Hr.
  - intros [= <- <- <-]. apply roomAt_lookups in Hr as [Hg Hh].
    split; [|split; [apply lookup_insert_eq|exact Hg]].
    apply (wellFormed_store st _ ref0 room0 (setLastActivity room0 now) Hwf Hh);
      reflexivity.
  - destruct (inheritedKey rid); [discriminate|].
    intros [= <- <- <-]. pose proof Hwf as (Halloc & Hlive & Hinj).
    assert (Hnone : gameRooms st !! rid = None).
    { destruct (gameRooms st !! rid) as [ref0|] eqn:Hg; [|reflexivity].
      destruct (wellFormed_roomAt st rid ref0 Hwf Hg) as [room0 Hr0].
      congruence. }
    split; [|split; cbn; apply lookup_insert_eq].
    split; [|split].
    + intros ref0 room0. cbn. rewrite lookup_insert.
      destruct (decide (nextRef st = ref0)) as [<-|]; [lia|].
      intros Hh. apply Halloc in Hh. lia.
    + intros rid0 ref0. cbn. rewrite !lookup_insert.
      destruct (decide (rid = rid0)) as [<-|].
      * intros [= <-]. rewrite decide_True by reflexivity. eauto.
      * intros Hg. destruct (Hlive _ _ Hg) as [room0 Hh].
        pose proof (Halloc _ _ Hh).
        rewrite decide_False by lia. eauto.
    + intros rid1 rid2 ref0. cbn. rewrite !lookup_insert.
      destruct (decide (rid = rid1)) as [<-|], (decide (rid = rid2)) as [<-|];
        auto.
      * intros [= <-] Hg. destruct (Hlive _ _ Hg) as [room0 Hh].
        apply Halloc in Hh. lia.
      * intros Hg [= <-]. destruct (Hlive _ _ Hg) as [room0 Hh].
        apply Halloc in Hh. lia.
      * apply Hinj.
Qed.

Lemma currentRoom_heap st sid rid ref room :
  currentRoom st sid = Some (rid, ref, room) ->
  gameRooms st !! rid = Some ref /\ heap st !! ref = Some room
  /\ roomId (connOf st sid) = Some rid.
Proof.
  intros Hc. pose proof (currentRoom_roomAt _ _ _ _ _ Hc) as Hr.
  apply roomAt_lookups in Hr as [Hg Hh]. split; [exact Hg|split; [exact Hh|]].
  unfold currentRoom in Hc.
  destruct (roomId (connOf st sid)) as [[|c rid']|]; try discriminate.
  destruct (roomAt st (c :: rid')) as [[ref' room']|]; try discriminate.
  injection Hc as <- _ _. reflexivity.
Qed.

Lemma currentRoom_nonempty st sid rid ref room :
  currentRoom st sid = Some (rid, ref, room) -> rid <> [].
Proof.
  unfold currentRoom.
  destruct (roomId (connOf st sid)) as [[|c rid']|]; try discriminate.
  destruct (roomAt st (c :: rid')) as [[ref' room']|]; try discriminate.
  intros [= <- _ _]. discriminate.
Qed.

Lemma currentRoom_intro st sid rid ref room :
  rid <> [] -> roomId (connOf st sid) = Some rid ->
  roomAt st rid = Some (ref, room) ->
  currentRoom st sid = Some (rid, ref, room).
Proof.
  intros Hne Hid Hr. unfold currentRoom. rewrite Hid.
  destruct rid as [|c rid']; [contradiction|]. rewrite Hr. reflexivity.
Qed.

Lemma handle_wellFormed st i : wellFormed st -> wellFormed (handle i st).1.
Proof.
  intros Hwf. destruct i as [sid roomIdV roleV now sessionId|sid sessionId|sid m now
    |sid message now rnd|sid|sid|sid|sid accepted|sid now|sid now|now| |now];
    cbn [handle fst].
  - unfold onJoinRoom.
    destruct (validateRoomId roomIdV); [|exact Hwf]. cbn [negb].
    destruct (validRoles roleV); [|exact Hwf]. cbn [negb].
    destruct roomIdV as [|rid|]; try exact Hwf.
    destruct roleV as [|preferredRole|]; try exact Hwf.
    destruct (getOrCreateRoom rid now st) as [st1 [[ref room]|]] eqn:Hget;
      [|exact Hwf].
    destruct (getOrCreateRoom_wellFormed _ _ _ _ _ _ Hwf Hget) as (Hwf1 & Hh1 & _).
    destruct (assignRole preferredRole sid rid sessionId room _)
      as [[[room' sessions'] notice] role].
    cbn [fst].
    apply (wellFormed_store st1 _ ref room room' Hwf1 Hh1); reflexivity.
  - unfold onReconnect.
    destruct sessionId as [|c sessionId]; [exact Hwf|].
    destruct (member (playerSessions st) _) as [session| |]; [| |exact Hwf].
    + destruct (roomAt st (s_roomId session)) as [[ref room]|] eqn:Hr; [|exact Hwf].
      apply roomAt_lookups in Hr as [_ Hh].
      destruct (negb (truthy (seatOf (players room) (s_role session)))); cbn [fst];
        eapply (wellFormed_store st _ ref room _ Hwf Hh); reflexivity.
    + destruct (roomAt st (js "undefined")) as [[ref room]|] eqn:Hr; [|exact Hwf].
      apply roomAt_lookups in Hr as [_ Hh].
      destruct (negb (truthy (undefinedKey (players room)))); cbn [fst];
        eapply (wellFormed_store st _ ref room _ Hwf Hh); reflexivity.
  - unfold onMove.
    destruct (currentRoom st sid) as [[[rid ref] room]|] eqn:Hc; [|exact Hwf].
    apply currentRoom_heap in Hc as (_ & Hh & _).
    destruct (bool_decide _); [exact Hwf|].
    destruct (move (chess room) m) as [p' r| |msg]; try exact Hwf.
    cbn [fst]. eapply (wellFormed_store st _ ref room _ Hwf Hh); reflexivity.
  - unfold onChatMessage.
    destruct (currentRoom st sid) as [[[rid ref] room]|] eqn:Hc; [|exact Hwf].
    apply currentRoom_heap in Hc as (_ & Hh & _).
    destruct (checkRateLimit sid (js "chat") 5 30000 now (rateLimits st))
      as [[|] limits]; [|exact Hwf].
    cbn [negb]. destruct (_ && _); [exact Hwf|].
    destruct (validateInput message 200) as [text|]; [|exact Hwf].
    cbn [fst]. eapply (wellFormed_store st _ ref room _ Hwf Hh); reflexivity.
  - unfold onResetGame.
    destruct (currentRoom st sid) as [[[rid ref] room]|] eqn:Hc; [|exact Hwf].
    apply currentRoom_heap in Hc as (_ & Hh & _).
    destruct (seatHeld room sid); [|exact Hwf].
    cbn [fst]. eapply (wellFormed_store st _ ref room _ Hwf Hh); reflexivity.
  - rewrite onResign_state. exact Hwf.
  - rewrite onOfferDraw_state. exact Hwf.
  - rewrite onRespondToDraw_state. exact Hwf.
  - unfold handleDisconnection.
    destruct (currentRoom st sid) as [[[rid ref] room]|] eqn:Hc; [|exact Hwf].
    apply currentRoom_heap in Hc as (_ & Hh & _).
    cbn [fst]. eapply (wellFormed_store st _ ref room _ Hwf Hh); reflexivity.
  - unfold onTimer.
    destruct (disconnectTimer (connOf st sid)) as [timer|]; [|exact Hwf].
    destruct (now <? t_due timer); [exact Hwf|].
    destruct (heap st !! t_room timer) as [room|] eqn:Hh; [|exact Hwf].
    cbn [fst]. eapply (wellFormed_store st _ (t_room timer) room _ Hwf Hh);
      reflexivity.
  - destruct Hwf as (Halloc & Hlive & Hinj). split; [|split].
    + exact Halloc.
    + intros rid ref Hg. apply sweepRooms_lookup in Hg. exact (Hlive _ _ Hg).
    + intros rid1 rid2 ref H1 H2. apply sweepRooms_lookup in H1, H2.
      exact (Hinj _ _ _ H1 H2).
  - apply (wellFormed_same st); auto.
  - apply (wellFormed_same st); auto.
Qed.

Lemma reachable_wellFormed st : reachable st -> wellFormed st.
Proof.
  induction 1 as [|i st Hreach IH].
  - split; [|split].
    + intros ref room. cbn. rewrite lookup_empty. discriminate.
    + intros rid ref. cbn. rewrite lookup_empty. discriminate.
    + intros rid1 rid2 ref. cbn. rewrite lookup_empty. discriminate.
  - apply handle_wellFormed, IH.
Qed.

(** *** What an input may do to a room object *)

Lemma objectStep_refl i room : objectStep i room room.
Proof.
  split; [reflexivity|]. split; [reflexivity|].
  split; [intros _; exists []; symmetry; apply app_nil_r|].
  split; [left; reflexivity|]. auto.
Qed.

Lemma objectStep_seats i room room' :
  createdAt room' = createdAt room ->
  lastActivity room' = lastActivity room ->
  moveHistory room' = moveHistory room ->
  chatHistory room' = chatHistory room ->
  (forall seat h, seatOf (players room) seat = Some h -> truthy (Some h) = true ->
                  ~ isTimerOf h i -> seatOf (players room') seat = Some h) ->
  objectStep i room room'.
Proof.
  intros Hc Hl Hm Hch Hs. split; [exact Hc|]. split; [auto|].
  split; [intros _; exists []; rewrite Hm; symmetry; apply app_nil_r|].
  split; [left; exact Hch|exact Hs].
Qed.

Lemma store_object i st st' ref0 old new :
  heap st' = <[ref0 := new]> (heap st) ->
  heap st !! ref0 = Some old ->
  objectStep i old new ->
  forall ref room,
    heap st !! ref = Some room ->
    exists room', heap st' !! ref = Some room' /\ objectStep i room room'.
Proof.
  intros Hheap Hold Hstep ref room Hh. rewrite Hheap, lookup_insert.
  destruct (decide (ref0 = ref)) as [<-|].
  - exists new. split; [reflexivity|]. congruence.
  - exists room. split; [exact Hh|apply objectStep_refl].
Qed.

Lemma takeSeat_keeps_held room seat sid seat0 h :
  truthy (seatOf (players room) seat) = false ->
  seatOf (players room) seat0 = Some h -> truthy (Some h) = true ->
  seatOf (players (setPlayers room (setSeat (players room) seat (Some sid)))) seat0
  = Some h.
Proof.
  intros Hfree Hheld Htruthy.
  destruct seat, seat0; cbn [seatOf setSeat setPlayers players white black] in *;
    try exact Hheld; rewrite Hheld in Hfree; congruence.
Qed.

Lemma assignRole_object i preferredRole sid rid sessionId room sessions
    room' sessions' notice role :
  assignRole preferredRole sid rid sessionId room sessions
  = (room', sessions', notice, role) ->
  createdAt room' = createdAt room /\ lastActivity room' = lastActivity room
  /\ moveHistory room' = moveHistory room /\ chatHistory room' = chatHistory room
  /\ chess room' = chess room
  /\ (forall seat h, seatOf (players room) seat = Some h ->
        truthy (Some h) = true -> ~ isTimerOf h i ->
        seatOf (players room') seat = Some h).
Proof.
  unfold assignRole, takeSeat, spectate.
  destruct (bool_decide (preferredRole = js "white")).
  - destruct (truthy (white (players room))) eqn:Hw; cbn [negb];
      intros [= <- _ _ _]; repeat split; auto.
    intros seat h Hheld Htruthy _.
    exact (takeSeat_keeps_held room SWhite sid seat h Hw Hheld Htruthy).
  - destruct (bool_decide (preferredRole = js "black")).
    + destruct (truthy (black (players room))) eqn:Hb; cbn [negb];
        intros [= <- _ _ _]; repeat split; auto.
      intros seat h Hheld Htruthy _.
      exact (takeSeat_keeps_held room SBlack sid seat h Hb Hheld Htruthy).
    + destruct (_ || _); [intros [= <- _ _ _]; repeat split; auto|].
      destruct (truthy (white (players room))) eqn:Hw; cbn [negb].
      * destruct (truthy (black (players room))) eqn:Hb; cbn [negb];
          intros [= <- _ _ _]; repeat split; auto.
        intros seat h Hheld Htruthy _.
        exact (takeSeat_keeps_held room SBlack sid seat h Hb Hheld Htruthy).
      * intros [= <- _ _ _]; repeat split; auto.
        intros seat h Hheld Htruthy _.
        exact (takeSeat_keeps_held room SWhite sid seat h Hw Hheld Htruthy).
Qed.

Lemma handle_object st i ref room :
  wellFormed st -> heap st !! ref = Some room ->
  exists room', heap (handle i st).1 !! ref = Some room' /\ objectStep i room room'.
Proof.
  intros Hwf Hh.
  assert (Hsame : exists room', heap st !! ref = Some room' /\ objectStep i room room')
    by (exists room; split; [exact Hh|apply objectStep_refl]).
  destruct i as [sid roomIdV roleV now sessionId|sid sessionId|sid m now
    |sid message now rnd|sid|sid|sid|sid accepted|sid now|sid now|now| |now];
    cbn [handle fst].
  - unfold onJoinRoom.
    destruct (validateRoomId roomIdV); [|exact Hsame]. cbn [negb].
    destruct (validRoles roleV); [|exact Hsame]. cbn [negb].
    destruct roomIdV as [|rid|]; try exact Hsame.
    destruct roleV as [|preferredRole|]; try exact Hsame.
    destruct (getOrCreateRoom rid now st) as [st1 [[ref0 room1]|]] eqn:Hget;
      [|exact Hsame].
    destruct (assignRole preferredRole sid rid sessionId room1 _)
      as [[[room' sessions'] notice] role] eqn:Hassign.
    cbn [fst].
    apply (assignRole_object (InJoinRoom sid (JStr rid) (JStr preferredRole) now sessionId))
      in Hassign as (Hc & Hl & Hm & Hch & _ & Hs).
    unfold getOrCreateRoom in Hget.
    destruct (roomAt st rid) as [[ref1 room0]|] eqn:Hr;
      [|destruct (inheritedKey rid); [discriminate|]].
    + injection Hget as <- <- <-. apply roomAt_lookups in Hr as [_ Hh0].
      cbn. rewrite lookup_insert. destruct (decide (ref1 = ref)) as [<-|Hne].
      * exists room'. split; [reflexivity|].
        assert (room0 = room) as -> by congruence.
        split; [rewrite Hc; reflexivity|]. split; [discriminate|].
        split; [intros _; exists []; rewrite Hm; symmetry; apply app_nil_r|].
        split; [left; rewrite Hch; reflexivity|].
        intros seat h Hheld Htruthy Hnot. apply Hs; assumption.
      * rewrite lookup_insert_ne by exact Hne. exact Hsame.
    + injection Hget as <- <- <-. cbn. rewrite lookup_insert.
      destruct Hwf as (Halloc & _). pose proof (Halloc _ _ Hh).
      rewrite decide_False by lia. rewrite lookup_insert_ne by lia. exact Hsame.
  - unfold onReconnect.
    destruct sessionId as [|c sessionId]; [exact Hsame|].
    destruct (member (playerSessions st) _) as [session| |]; [| |exact Hsame].
    { destruct (roomAt st (s_roomId session)) as [[ref0 room0]|] eqn:Hr; [|exact Hsame].
      apply roomAt_lookups in Hr as [_ Hh0].
      destruct (truthy (seatOf (players room0) (s_role session))) eqn:Hfree;
        cbn [negb fst].
      + eapply store_object with (st := st) (ref0 := ref0) (old := room0);
        [reflexivity|exact Hh0| |exact Hh].
        apply objectStep_seats; auto.
      + eapply store_object with (st := st) (ref0 := ref0) (old := room0);
        [reflexivity|exact Hh0| |exact Hh].
        apply objectStep_seats; try reflexivity.
        intros seat h Hheld Htruthy _.
        exact (takeSeat_keeps_held room0 _ sid seat h Hfree Hheld Htruthy). }
    { destruct (roomAt st (js "undefined")) as [[ref0 room0]|] eqn:Hr; [|exact Hsame].
      apply roomAt_lookups in Hr as [_ Hh0].
      destruct (truthy (undefinedKey (players room0))); cbn [negb fst].
      + eapply store_object with (st := st) (ref0 := ref0) (old := room0);
        [reflexivity|exact Hh0| |exact Hh].
        apply objectStep_seats; auto.
      + eapply store_object with (st := st) (ref0 := ref0) (old := room0);
        [reflexivity|exact Hh0| |exact Hh].
        apply objectStep_seats; try reflexivity.
        intros seat h Hheld _ _. destruct seat; exact Hheld. }
  - unfold onMove.
    destruct (currentRoom st sid) as [[[rid ref0] room0]|] eqn:Hc; [|exact Hsame].
    apply currentRoom_heap in Hc as (_ & Hh0 & _).
    destruct (bool_decide _); [exact Hsame|].
    destruct (move (chess room0) m) as [p' r| |msg]; try exact Hsame.
    cbn [fst]. eapply store_object with (st := st) (ref0 := ref0) (old := room0);
      [reflexivity|exact Hh0| |exact Hh].
    split; [reflexivity|]. split; [reflexivity|].
    split; [intros _; eexists; reflexivity|].
    split; [left; reflexivity|]. auto.
  - unfold onChatMessage.
    destruct (currentRoom st sid) as [[[rid ref0] room0]|] eqn:Hc; [|exact Hsame].
    apply currentRoom_heap in Hc as (_ & Hh0 & _).
    destruct (checkRateLimit sid (js "chat") 5 30000 now (rateLimits st))
      as [[|] limits]; [|exact Hsame].
    cbn [negb]. destruct (_ && _) eqn:Hguard; [exact Hsame|].
    destruct (validateInput message 200) as [text|] eqn:Hv; [|exact Hsame].
    cbn [fst].
    eapply store_object with (st := (setRateLimits st limits)) (ref0 := ref0) (old := room0);
      [reflexivity|exact Hh0| |exact Hh].
    split; [reflexivity|]. split; [reflexivity|].
    split; [intros _; exists []; symmetry; apply app_nil_r|].
    split; [|auto]. right. eexists. split; [|reflexivity].
    split; [exact (validateInput_fixpoint _ _ _ Hv)|]. cbn.
    repeat case_bool_decide; try discriminate; cbn in Hguard; congruence.
  - unfold onResetGame.
    destruct (currentRoom st sid) as [[[rid ref0] room0]|] eqn:Hc; [|exact Hsame].
    apply currentRoom_heap in Hc as (_ & Hh0 & _).
    destruct (seatHeld room0 sid); [|exact Hsame].
    cbn [fst]. eapply store_object with (st := st) (ref0 := ref0) (old := room0);
      [reflexivity|exact Hh0| |exact Hh].
    split; [reflexivity|]. split; [reflexivity|].
    split; [discriminate|]. split; [left; reflexivity|]. auto.
  - rewrite onResign_state. exact Hsame.
  - rewrite onOfferDraw_state. exact Hsame.
  - rewrite onRespondToDraw_state. exact Hsame.
  - unfold handleDisconnection.
    destruct (currentRoom st sid) as [[[rid ref0] room0]|] eqn:Hc; [|exact Hsame].
    apply currentRoom_heap in Hc as (_ & Hh0 & _).
    cbn [fst]. eapply store_object with (st := st) (ref0 := ref0) (old := room0);
      [reflexivity|exact Hh0| |exact Hh].
    apply objectStep_seats; auto.
  - unfold onTimer.
    destruct (disconnectTimer (connOf st sid)) as [timer|]; [|exact Hsame].
    destruct (now <? t_due timer); [exact Hsame|].
    destruct (heap st !! t_room timer) as [room0|] eqn:Hh0; [|exact Hsame].
    cbn [fst].
    eapply store_object with (st := st) (ref0 := (t_room timer)) (old := room0);
      [reflexivity|exact Hh0| |exact Hh].
    repeat case_bool_decide.
    + apply objectStep_seats; try reflexivity.
      intros seat h Hheld Htruthy Hnot. destruct seat; cbn in *; [|exact Hheld].
      exfalso. apply Hnot. exists now. congruence.
    + apply objectStep_seats; try reflexivity.
      intros seat h Hheld Htruthy Hnot. destruct seat; cbn in *; [exact Hheld|].
      exfalso. apply Hnot. exists now. congruence.
    + apply objectStep_refl.
  - exact Hsame.
  - exact Hsame.
  - exact Hsame.
Qed.

(** Only the idle sweep takes a room out of the registry. *)
Lemma handle_registry st i rid ref :
  wellFormed st -> gameRooms st !! rid = Some ref -> isSweepRooms i = false ->
  gameRooms (handle i st).1 !! rid = Some ref.
Proof.
  intros Hwf Hg Hnot.
  destruct i as [sid roomIdV roleV now sessionId|sid sessionId|sid m now
    |sid message now rnd|sid|sid|sid|sid accepted|sid now|sid now|now| |now];
    cbn [handle fst]; try discriminate Hnot.
  - unfold onJoinRoom.
    destruct (validateRoomId roomIdV); [|exact Hg]. cbn [negb].
    destruct (validRoles roleV); [|exact Hg]. cbn [negb].
    destruct roomIdV as [|rid0|]; try exact Hg.
    destruct roleV as [|preferredRole|]; try exact Hg.
    destruct (getOrCreateRoom rid0 now st) as [st1 [[ref0 room1]|]] eqn:Hget;
      [|exact Hg].
    destruct (assignRole preferredRole sid rid0 sessionId room1 _)
      as [[[room' sessions'] notice] role].
    cbn [fst]. unfold getOrCreateRoom in Hget.
    destruct (roomAt st rid0) as [[ref1 room0]|] eqn:Hr;
      [|destruct (inheritedKey rid0); [discriminate|]].
    + injection Hget as <- <- <-. exact Hg.
    + injection Hget as <- <- <-. cbn. rewrite lookup_insert.
      destruct (decide (rid0 = rid)) as [->|]; [|exact Hg].
      destruct (wellFormed_roomAt st rid ref Hwf Hg) as [room0 Hr0]. congruence.
  - unfold onReconnect.
    destruct sessionId as [|c sessionId]; [exact Hg|].
    destruct (member (playerSessions st) _) as [session| |]; [| |exact Hg].
    + destruct (roomAt st (s_roomId session)) as [[ref0 room0]|]; [|exact Hg].
      destruct (negb _); exact Hg.
    + destruct (roomAt st (js "undefined")) as [[ref0 room0]|]; [|exact Hg].
      destruct (negb _); exact Hg.
  - unfold onMove.
    destruct (currentRoom st sid) as [[[rid0 ref0] room0]|]; [|exact Hg].
    destruct (bool_decide _); [exact Hg|].
    destruct (move (chess room0) m) as [p' r| |msg]; exact Hg.
  - unfold onChatMessage.
    destruct (currentRoom st sid) as [[[rid0 ref0] room0]|]; [|exact Hg].
    destruct (checkRateLimit sid (js "chat") 5 30000 now (rateLimits st))
      as [[|] limits]; [|exact Hg].
    cbn [negb]. destruct (_ && _); [exact Hg|].
    destruct (validateInput message 200) as [text|]; exact Hg.
  - unfold onResetGame.
    destruct (currentRoom st sid) as [[[rid0 ref0] room0]|]; [|exact Hg].
    destruct (seatHeld room0 sid); exact Hg.
  - rewrite onResign_state. exact Hg.
  - rewrite onOfferDraw_state. exact Hg.
  - rewrite onRespondToDraw_state. exact Hg.
  - unfold handleDisconnection.
    destruct (currentRoom st sid) as [[[rid0 ref0] room0]|]; exact Hg.
  - unfold onTimer.
    destruct (disconnectTimer (connOf st sid)) as [timer|]; [|exact Hg].
    destruct (now <? t_due timer); [exact Hg|].
    destruct (heap st !! t_room timer) as [room0|]; exact Hg.
  - exact Hg.
  - exact Hg.
Qed.

(** The two together, for a registered room. *)
Lemma handle_room st i rid ref room :
  reachable st -> roomAt st rid = Some (ref, room) -> isSweepRooms i = false ->
  exists room', roomAt (handle i st).1 rid = Some (ref, room')
                /\ objectStep i room room'.
Proof.
  intros Hreach Hr Hnot. apply reachable_wellFormed in Hreach.
  apply roomAt_lookups in Hr as [Hg Hh].
  destruct (handle_object st i ref room Hreach Hh) as (room' & Hh' & Hstep).
  exists room'. split; [|exact Hstep].
  apply roomAt_lookups. split; [|exact Hh'].
  apply handle_registry; assumption.
Qed.

(** A room object that appears was created by a [joinRoom], with empty
    histories. *)
Lemma handle_fresh st i ref room' :
  heap st !! ref = None -> heap (handle i st).1 !! ref = Some room' ->
  chatHistory room' = [] /\ moveHistory room' = [].
Proof.
  intros Hnone.
  assert (Hstore : forall (st0 : State) ref0 (old new : Room),
            heap st0 = heap st -> heap st !! ref0 = Some old ->
            <[ref0 := new]> (heap st0) !! ref = Some room' ->
            chatHistory room' = [] /\ moveHistory room' = []).
  { intros st0 ref0 old new Heq Hold. rewrite Heq, lookup_insert.
    destruct (decide (ref0 = ref)) as [<-|]; congruence. }
  assert (Hsame : heap st !! ref = Some room' ->
                  chatHistory room' = [] /\ moveHistory room' = [])
    by congruence.
  destruct i as [sid roomIdV roleV now sessionId|sid sessionId|sid m now
    |sid message now rnd|sid|sid|sid|sid accepted|sid now|sid now|now| |now];
    cbn [handle fst]; try exact Hsame.
  - unfold onJoinRoom.
    destruct (validateRoomId roomIdV); [|exact Hsame]. cbn [negb].
    destruct (validRoles roleV); [|exact Hsame]. cbn [negb].
    destruct roomIdV as [|rid|]; try exact Hsame.
    destruct roleV as [|preferredRole|]; try exact Hsame.
    destruct (getOrCreateRoom rid now st) as [st1 [[ref0 room1]|]] eqn:Hget;
      [|exact Hsame].
    destruct (assignRole preferredRole sid rid sessionId room1 _)
      as [[[room'' sessions'] notice] role] eqn:Hassign.
    cbn [fst].
    apply (assignRole_object (InSweepSessions)) in Hassign
      as (_ & _ & Hm & Hch & _).
    unfold getOrCreateRoom in Hget.
    destruct (roomAt st rid) as [[ref1 room0]|] eqn:Hr;
      [|destruct (inheritedKey rid); [discriminate|]].
    + injection Hget as <- <- <-. apply roomAt_lookups in Hr as [_ Hh0].
      cbn. rewrite !lookup_insert.
      destruct (decide (ref1 = ref)) as [<-|]; congruence.
    + injection Hget as <- <- <-. cbn. rewrite !lookup_insert.
      destruct (decide (nextRef st = ref)) as [<-|]; [|exact Hsame].
      intros [= <-]. rewrite Hm, Hch. auto.
  - unfold onReconnect.
    destruct sessionId as [|c sessionId]; [exact Hsame|].
    destruct (member (playerSessions st) _) as [session| |]; [| |exact Hsame].
    + destruct (roomAt st (s_roomId session)) as [[ref0 room0]|] eqn:Hr; [|exact Hsame].
      apply roomAt_lookups in Hr as [_ Hh0].
      destruct (negb _); cbn [fst]; cbn; eapply Hstore; eauto.
    + destruct (roomAt st (js "undefined")) as [[ref0 room0]|] eqn:Hr; [|exact Hsame].
      apply roomAt_lookups in Hr as [_ Hh0].
      destruct (negb _); cbn [fst]; cbn; eapply Hstore; eauto.
  - unfold onMove.
    destruct (currentRoom st sid) as [[[rid ref0] room0]|] eqn:Hc; [|exact Hsame].
    apply currentRoom_heap in Hc as (_ & Hh0 & _).
    destruct (bool_decide _); [exact Hsame|].
    destruct (move (chess room0) m) as [p' r| |msg]; try exact Hsame.
    cbn [fst]. cbn. eapply Hstore; eauto.
  - unfold onChatMessage.
    destruct (currentRoom st sid) as [[[rid ref0] room0]|] eqn:Hc; [|exact Hsame].
    apply currentRoom_heap in Hc as (_ & Hh0 & _).
    destruct (checkRateLimit sid (js "chat") 5 30000 now (rateLimits st))
      as [[|] limits]; [|exact Hsame].
    cbn [negb]. destruct (_ && _); [exact Hsame|].
    destruct (validateInput message 200) as [text|]; [|exact Hsame].
    cbn [fst]. cbn. eapply Hstore; eauto.
  - unfold onResetGame.
    destruct (currentRoom st sid) as [[[rid ref0] room0]|] eqn:Hc; [|exact Hsame].
    apply currentRoom_heap in Hc as (_ & Hh0 & _).
    destruct (seatHeld room0 sid); [|exact Hsame].
    cbn [fst]. cbn. eapply Hstore; eauto.
  - rewrite onResign_state. exact Hsame.
  - rewrite onOfferDraw_state. exact Hsame.
  - rewrite onRespondToDraw_state. exact Hsame.
  - unfold handleDisconnection.
    destruct (currentRoom st sid) as [[[rid ref0] room0]|] eqn:Hc; [|exact Hsame].
    apply currentRoom_heap in Hc as (_ & Hh0 & _).
    cbn [fst]. cbn. eapply Hstore; eauto.
  - unfold onTimer.
    destruct (disconnectTimer (connOf st sid)) as [timer|]; [|exact Hsame].
    destruct (now <? t_due timer); [exact Hsame|].
    destruct (heap st !! t_room timer) as [room0|] eqn:Hh0; [|exact Hsame].
    cbn [fst]. cbn. eapply Hstore; eauto.
Qed.

Lemma pushChat_elem history entry e :
  e ∈ pushChat history entry -> e = entry \/ e ∈ history.
Proof.
  rewrite pushChat_suffix. intros Hin.
  apply list_elem_of_lookup in Hin as [k Hk]. rewrite lookup_drop in Hk.
  apply list_elem_of_lookup_2 in Hk. apply elem_of_app in Hk as [Hk|Hk].
  - right. exact Hk.
  - left. apply list_elem_of_singleton in Hk. exact Hk.
Qed.

Lemma handle_chatValid st i :
  wellFormed st -> chatValid st -> chatValid (handle i st).1.
Proof.
  intros Hwf Hvalid ref room' e Hh' Hin.
  destruct (heap st !! ref) as [room|] eqn:Hh.
  - destruct (handle_object st i ref room Hwf Hh) as (room'' & Hh'' & Hstep).
    assert (room'' = room') as -> by congruence.
    destruct Hstep as (_ & _ & _ & [Hsame|(entry & Hentry & Hpush)] & _).
    + rewrite Hsame in Hin. exact (Hvalid ref room e Hh Hin).
    + rewrite Hpush in Hin. apply pushChat_elem in Hin as [->|Hin];
        [exact Hentry|exact (Hvalid ref room e Hh Hin)].
  - destruct (handle_fresh st i ref room' Hh Hh') as [Hnil _].
    rewrite Hnil in Hin. inversion Hin.
Qed.

(** X2. In every reachable state every entry of every chat history is
    valid: its text is non-empty, trimmed, at most 200 code units of
    allowed characters ([validateInput] returns it unchanged) and its
    author role is white or black, never spectator. *)
Theorem stored_chat_entries_valid (st : State) :
  reachable st ->
  forall rid ref room e,
    roomAt st rid = Some (ref, room) -> e ∈ chatHistory room ->
    validateInput (JStr (ce_message e)) 200 = Some (ce_message e)
    /\ (1 <= length (ce_message e) <= 200)%nat
    /\ allowedChars (ce_message e) = true
    /\ ce_playerRole e <> RoleSpectator.
Proof.
  intros Hreach rid ref room e Hr Hin.
  assert (Hvalid : chatValid st).
  { clear rid ref room e Hr Hin. induction Hreach as [|i st Hreach IH].
    - intros ref room e. cbn. rewrite lookup_empty. discriminate.
    - apply handle_chatValid; [apply reachable_wellFormed, Hreach|exact IH]. }
  apply roomAt_lookups in Hr as [_ Hh].
  destruct (Hvalid ref room e Hh Hin) as [Hv Hrole].
  split; [exact Hv|].
  apply validateInput_Some in Hv as (s & [= <-] & Htrim & Hlen & Hall).
  rewrite <- Htrim in Hlen, Hall. auto.
Qed.

(** X3. A seat that is held stays with its holder through every input
    except the run of the holder's own grace timer (and the sweep that
    removes the whole room): joins, reconnects, moves, resignations and
    other players' timers never vacate or hand over an occupied seat. *)
Theorem seat_kept_until_own_timer (st : State) (i : Input)
    (rid : jsstring) (ref : nat) (room : Room) (seat : Seat) (h : jsstring) :
  reachable st ->
  roomAt st rid = Some (ref, room) ->
  seatOf (players room) seat = Some h -> h <> [] ->
  isSweepRooms i = false -> ~ isTimerOf h i ->
  exists room',
    roomAt (handle i st).1 rid = Some (ref, room')
    /\ seatOf (players room') seat = Some h.
Proof.
  intros Hreach Hr Hseat Hne Hsweep Htimer.
  destruct (handle_room st i rid ref room Hreach Hr Hsweep) as (room' & Hr' & Hstep).
  exists room'. split; [exact Hr'|].
  destruct Hstep as (_ & _ & _ & _ & Hkeep).
  apply Hkeep; [exact Hseat| |exact Htimer].
  destruct h; [contradiction|reflexivity].
Qed.

(** X4. A room's [createdAt] never changes once the room exists, and its
    [lastActivity] is written by [joinRoom] and by nothing else: no move,
    chat message, reset, resignation, draw message, reconnect, disconnect
    or timer touches it. *)
Theorem lastActivity_written_only_by_join (st : State) (i : Input)
    (rid : jsstring) (ref : nat) (room : Room) :
  reachable st ->
  roomAt st rid = Some (ref, room) -> isSweepRooms i = false ->
  exists room',
    roomAt (handle i st).1 rid = Some (ref, room')
    /\ createdAt room' = createdAt room
    /\ (isJoinRoom i = false -> lastActivity room' = lastActivity room).
Proof.
  intros Hreach Hr Hsweep.
  destruct (handle_room st i rid ref room Hreach Hr Hsweep) as (room' & Hr' & Hstep).
  exists room'. split; [exact Hr'|].
  destruct Hstep as (Hc & Hl & _). auto.
Qed.

(** X5. The move history of a room is append-only between resets: every
    input other than [resetGame] (and the sweep that removes the room)
    leaves the recorded moves as a prefix of the new history. *)
Theorem moveHistory_append_only (st : State) (i : Input)
    (rid : jsstring) (ref : nat) (room : Room) :
  reachable st ->
  roomAt st rid = Some (ref, room) ->
  isSweepRooms i = false -> isResetGame i = false ->
  exists room' more,
    roomAt (handle i st).1 rid = Some (ref, room')
    /\ moveHistory room' = moveHistory room ++ more.
Proof.
  intros Hreach Hr Hsweep Hreset.
  destruct (handle_room st i rid ref room Hreach Hr Hsweep) as (room' & Hr' & Hstep).
  destruct Hstep as (_ & _ & Hm & _). destruct (Hm Hreset) as [more Hmore].
  exists room', more. auto.
Qed.

(** *** Seats and slots *)

(** C4 (as the code has it). A seat is one property of [room.players] and
    names one connection; a [joinRoom] or [reconnect] takes a seat only
    when it is free, so in every reachable state an occupied seat stays
    with its occupant whoever else joins or reconnects. The handlers do
    not stop a connection from joining again, so membership is single only
    along runs in which every [joinRoom] and [reconnect] comes from a
    connection whose [socket.roomId] is still unset and no [reconnect]
    presents a token that names an inherited member of [playerSessions]
    (such a reconnect acts on the room named [undefined] and leaves
    [socket.roomId] unset): in the states of such runs no connection
    occupies two slots of a room of the registry, and no connection
    occupies slots in two rooms of the registry. *)
Theorem one_slot_per_connection_when_joining_once :
  (forall st i rid ref room seat h,
     reachable st -> isEntry i = true ->
     roomAt st rid = Some (ref, room) ->
     seatOf (players room) seat = Some h -> h <> [] ->
     exists room',
       roomAt (handle i st).1 rid = Some (ref, room')
       /\ seatOf (players room') seat = Some h)
  /\ (forall st, reachableJoinOnce st ->
        (forall rid ref room,
           roomAt st rid = Some (ref, room) -> NoDup (slots room))
        /\ (forall sid rid1 ref1 room1 rid2 ref2 room2,
              roomAt st rid1 = Some (ref1, room1) ->
              roomAt st rid2 = Some (ref2, room2) ->
              sid ∈ slots room1 -> sid ∈ slots room2 -> rid1 = rid2)).
Proof.
  split.
  - intros st i rid ref room seat h Hreach Hentry Hr Hseat Hne.
    assert (Hsweep : isSweepRooms i = false) by (destruct i; try discriminate; reflexivity).
    assert (Htimer : ~ isTimerOf h i)
      by (intros [now ->]; discriminate Hentry).
    destruct (handle_room st i rid ref room Hreach Hr Hsweep)
      as (room' & Hr' & Hstep).
    exists room'. split; [exact Hr'|].
    destruct Hstep as (_ & _ & _ & _ & Hkeep).
    apply Hkeep; [exact Hseat| |exact Htimer].
    destruct h; [contradiction|reflexivity].
  - intros st Hreach. apply reachableJoinOnce_membership in Hreach.
    destruct Hreach as (_ & _ & Hmem). split.
    + intros rid ref room Hr. exact (proj1 (Hmem _ _ _ Hr)).
    + intros sid rid1 ref1 room1 rid2 ref2 room2 Hr1 Hr2 Hs1 Hs2.
      pose proof (proj2 (Hmem _ _ _ Hr1) sid Hs1) as Hid1.
      pose proof (proj2 (Hmem _ _ _ Hr2) sid Hs2) as Hid2.
      congruence.
Qed.

(** *** Rooms do not interfere *)

Lemma roomAt_store_other st st' rid0 ref0 new rid :
  wellFormed st -> gameRooms st !! rid0 = Some ref0 ->
  heap st' = <[ref0 := new]> (heap st) -> gameRooms st' = gameRooms st ->
  rid <> rid0 -> roomAt st' rid = roomAt st rid.
Proof.
  intros (_ & _ & Hinj) Hg0 Hheap Hreg Hne. unfold roomAt. rewrite Hreg.
  destruct (gameRooms st !! rid) as [ref|] eqn:Hg; [|reflexivity].
  rewrite Hheap, lookup_insert_ne; [reflexivity|].
  intros <-. apply Hne. exact (Hinj _ _ _ Hg Hg0).
Qed.

Lemma onJoinRoom_other_room st sid rid0 roleV now token rid :
  wellFormed st -> rid <> rid0 ->
  roomAt (onJoinRoom sid (JStr rid0) roleV now token st).1 rid = roomAt st rid.
Proof.
  intros Hwf Hne. unfold onJoinRoom.
  destruct (validateRoomId (JStr rid0)); [|reflexivity]. cbn [negb].
  destruct (validRoles roleV); [|reflexivity]. cbn [negb].
  destruct roleV as [|preferredRole|]; try reflexivity.
  destruct (getOrCreateRoom rid0 now st) as [st1 [[ref0 room1]|]] eqn:Hget;
    [|reflexivity].
  destruct (getOrCreateRoom_wellFormed _ _ _ _ _ _ Hwf Hget) as (Hwf1 & Hh1 & Hg1).
  destruct (assignRole preferredRole sid rid0 token room1 _)
    as [[[room' sessions'] notice] role].
  cbn [fst].
  rewrite (roomAt_store_other st1 _ rid0 ref0 room' rid Hwf1 Hg1) by auto.
  unfold getOrCreateRoom in Hget.
  destruct (roomAt st rid0) as [[ref1 room0]|] eqn:Hr;
    [|destruct (inheritedKey rid0); [discriminate|]].
  - injection Hget as <- <- <-. apply roomAt_lookups in Hr as [Hg0 _].
    apply (roomAt_store_other st _ rid0 ref1 (setLastActivity room0 now));
      auto.
  - injection Hget as <- <- <-. unfold roomAt. cbn.
    rewrite lookup_insert_ne by auto.
    destruct (gameRooms st !! rid) as [ref|] eqn:Hg; [|reflexivity].
    destruct Hwf as (Halloc & Hlive & _).
    destruct (Hlive _ _ Hg) as [room Hh]. pose proof (Halloc _ _ Hh).
    rewrite lookup_insert_ne by lia. reflexivity.
Qed.

(** X6. Rooms are isolated. A move, chat message, reset, resignation,
    draw message or disconnect of a connection leaves every room other
    than the connection's own as it was, and a [joinRoom] leaves every
    room other than the one joined as it was. *)
Theorem rooms_isolated (st : State) :
  reachable st ->
  (forall i sid rid,
     sender i = Some sid -> roomId (connOf st sid) <> Some rid ->
     roomAt (handle i st).1 rid = roomAt st rid)
  /\ (forall sid rid0 roleV now token rid,
        rid <> rid0 ->
        roomAt (onJoinRoom sid (JStr rid0) roleV now token st).1 rid
        = roomAt st rid).
Proof.
  intros Hreach. apply reachable_wellFormed in Hreach as Hwf.
  split; [|intros; apply onJoinRoom_other_room; assumption].
  intros i sid rid Hsender Hother.
  assert (Hstore : forall rid0 ref0 room0 (st' : State) new,
            currentRoom st sid = Some (rid0, ref0, room0) ->
            heap st' = <[ref0 := new]> (heap st) ->
            gameRooms st' = gameRooms st ->
            roomAt st' rid = roomAt st rid).
  { intros rid0 ref0 room0 st' new Hc Hheap Hreg.
    apply currentRoom_heap in Hc as (Hg0 & _ & Hid).
    apply (roomAt_store_other st st' rid0 ref0 new rid Hwf Hg0 Hheap Hreg).
    congruence. }
  destruct i as [sid0 roomIdV roleV now sessionId|sid0 sessionId|sid0 m now
    |sid0 message now rnd|sid0|sid0|sid0|sid0 accepted|sid0 now|sid0 now|now| |now];
    try discriminate Hsender; injection Hsender as ->; cbn [handle fst].
  - unfold onMove.
    destruct (currentRoom st sid) as [[[rid0 ref0] room0]|] eqn:Hc; [|reflexivity].
    destruct (bool_decide _); [reflexivity|].
    destruct (move (chess room0) m) as [p' r| |msg]; try reflexivity.
    cbn [fst]. eapply Hstore; reflexivity.
  - unfold onChatMessage.
    destruct (currentRoom st sid) as [[[rid0 ref0] room0]|] eqn:Hc; [|reflexivity].
    destruct (checkRateLimit sid (js "chat") 5 30000 now (rateLimits st))
      as [[|] limits]; [|reflexivity].
    cbn [negb]. destruct (_ && _); [reflexivity|].
    destruct (validateInput message 200) as [text|]; [|reflexivity].
    cbn [fst]. eapply Hstore; reflexivity.
  - unfold onResetGame.
    destruct (currentRoom st sid) as [[[rid0 ref0] room0]|] eqn:Hc; [|reflexivity].
    destruct (seatHeld room0 sid); [|reflexivity].
    cbn [fst]. eapply Hstore; reflexivity.
  - rewrite onResign_state. reflexivity.
  - rewrite onOfferDraw_state. reflexivity.
  - rewrite onRespondToDraw_state. reflexivity.
  - unfold handleDisconnection.
    destruct (currentRoom st sid) as [[[rid0 ref0] room0]|] eqn:Hc; [|reflexivity].
    cbn [fst]. eapply Hstore; reflexivity.
Qed.

(** *** Room ids *)

Lemma handle_idsValid st i : idsValid st -> idsValid (handle i st).1.
Proof.
  intros Hvalid. pose proof Hvalid as (Hreg & Hses & Hconn).
  assert (Hkeep : forall (st' : State) sid0 timer,
            gameRooms st' = gameRooms st ->
            playerSessions st' = playerSessions st ->
            conns st' = <[sid0 := {| roomId := roomId (connOf st sid0);
                                     disconnectTimer := timer |}]> (conns st) ->
            idsValid st').
  { intros st' sid0 timer Hg Hs Hc. split; [|split].
    - intros rid ref. rewrite Hg. apply Hreg.
    - intros token session. rewrite Hs. apply Hses.
    - intros sid rid. unfold connOf at 1. rewrite Hc, lookup_insert.
      destruct (decide (sid0 = sid)) as [<-|]; cbn; apply Hconn. }
  assert (Hsame : forall (st' : State),
            gameRooms st' = gameRooms st ->
            playerSessions st' = playerSessions st ->
            conns st' = conns st -> idsValid st').
  { intros st' Hg Hs Hc. split; [|split].
    - intros rid ref. rewrite Hg. apply Hreg.
    - intros token session. rewrite Hs. apply Hses.
    - intros sid rid. unfold connOf. rewrite Hc. apply Hconn. }
  destruct i as [sid roomIdV roleV now sessionId|sid sessionId|sid m now
    |sid message now rnd|sid|sid|sid|sid accepted|sid now|sid now|now| |now];
    cbn [handle fst].
  - unfold onJoinRoom.
    destruct (validateRoomId roomIdV) eqn:Hid; [|exact Hvalid]. cbn [negb].
    destruct (validRoles roleV); [|exact Hvalid]. cbn [negb].
    destruct roomIdV as [|rid|]; try exact Hvalid.
    destruct roleV as [|preferredRole|]; try exact Hvalid.
    destruct (getOrCreateRoom rid now st) as [st1 [[ref room]|]] eqn:Hget;
      [|exact Hvalid].
    assert (Hst1 : (forall rid0 ref0, gameRooms st1 !! rid0 = Some ref0 -> validId rid0)
                   /\ playerSessions st1 = playerSessions st
                   /\ conns st1 = conns st).
    { unfold getOrCreateRoom in Hget.
      destruct (roomAt st rid) as [[ref1 room0]|];
        [|destruct (inheritedKey rid); [discriminate|]];
        injection Hget as <- <- <-; (split; [|split; reflexivity]).
      - exact Hreg.
      - intros rid0 ref0. cbn. rewrite lookup_insert.
        destruct (decide (rid = rid0)) as [<-|]; [intros _; exact Hid|apply Hreg]. }
    destruct Hst1 as (Hreg1 & Hses1 & Hconn1).
    destruct (assignRole preferredRole sid rid sessionId room _)
      as [[[room' sessions'] notice] role] eqn:Hassign.
    cbn [fst]. split; [|split].
    + exact Hreg1.
    + intros token session. cbn.
      unfold assignRole, takeSeat, spectate in Hassign.
      repeat (match type of Hassign with
              | context [if ?b then _ else _] => destruct b
              end);
        injection Hassign as _ <- _ _; cbn; rewrite ?lookup_insert, ?Hses1;
        try (destruct (decide (sessionId = token)); [intros [= <-]; exact Hid|]);
        apply Hses.
    + intros sid0 rid0. unfold connOf. cbn. rewrite lookup_insert.
      destruct (decide (sid = sid0)); [intros [= <-]; exact Hid|].
      rewrite Hconn1. apply Hconn.
  - unfold onReconnect.
    destruct sessionId as [|c sessionId]; [exact Hvalid|].
    unfold member.
    destruct (playerSessions st !! _) as [session|] eqn:Hs;
      [|destruct (inheritedKey _); [|exact Hvalid]].
    + destruct (roomAt st (s_roomId session)) as [[ref room]|]; [|exact Hvalid].
      pose proof (Hses _ _ Hs) as Hid.
      destruct (negb _); cbn [fst]; (split; [exact Hreg|split; [exact Hses|]]);
        intros sid0 rid0; unfold connOf; cbn; rewrite lookup_insert;
        (destruct (decide (sid = sid0)); [intros [= <-]; exact Hid|apply Hconn]).
    + destruct (roomAt st (js "undefined")) as [[ref room]|]; [|exact Hvalid].
      destruct (negb _); cbn [fst]; (split; [exact Hreg|split; [exact Hses|]]);
        intros sid0 rid0; unfold connOf; cbn; rewrite lookup_insert;
        (destruct (decide (sid = sid0)); [discriminate|apply Hconn]).
  - unfold onMove.
    destruct (currentRoom st sid) as [[[rid ref] room]|]; [|exact Hvalid].
    destruct (bool_decide _); [exact Hvalid|].
    destruct (move (chess room) m) as [p' r| |msg]; exact Hvalid.
  - unfold onChatMessage.
    destruct (currentRoom st sid) as [[[rid ref] room]|]; [|exact Hvalid].
    destruct (checkRateLimit sid (js "chat") 5 30000 now (rateLimits st))
      as [[|] limits]; [|exact Hvalid].
    cbn [negb]. destruct (_ && _); [apply Hsame; reflexivity|].
    destruct (validateInput message 200) as [text|]; apply Hsame; reflexivity.
  - unfold onResetGame.
    destruct (currentRoom st sid) as [[[rid ref] room]|]; [|exact Hvalid].
    destruct (seatHeld room sid); [|exact Hvalid].
    cbn [fst]. apply Hsame; reflexivity.
  - rewrite onResign_state. exact Hvalid.
  - rewrite onOfferDraw_state. exact Hvalid.
  - rewrite onRespondToDraw_state. exact Hvalid.
  - unfold handleDisconnection.
    destruct (currentRoom st sid) as [[[rid ref] room]|]; [|exact Hvalid].
    cbn [fst]. eapply Hkeep; reflexivity.
  - unfold onTimer.
    destruct (disconnectTimer (connOf st sid)) as [timer|]; [|exact Hvalid].
    destruct (now <? t_due timer); [exact Hvalid|].
    destruct (heap st !! t_room timer) as [room|]; [|exact Hvalid].
    cbn [fst]. eapply Hkeep; reflexivity.
  - split; [|split; [exact Hses|exact Hconn]].
    intros rid ref Hg. apply sweepRooms_lookup in Hg. exact (Hreg _ _ Hg).
  - split; [exact Hreg|split; [|exact Hconn]].
    intros token session. cbn. rewrite lookup_omap.
    destruct (playerSessions st !! token) as [s0|] eqn:Hs; [|discriminate]. cbn.
    destruct (gameRooms st !! s_roomId s0); [|discriminate].
    intros [= <-]. exact (Hses _ _ Hs).
  - apply Hsame; reflexivity.
Qed.

(** X7. Every room id the server holds has passed [validateRoomId]: in
    every reachable state the keys of [gameRooms], the room id of every
    session and every [socket.roomId] are non-empty strings whose
    upper-cased form is 4 to 12 characters of A-Z, 0-9 and hyphen. *)
Theorem held_room_ids_valid (st : State) :
  reachable st ->
  (forall rid ref, gameRooms st !! rid = Some ref ->
     rid <> [] /\ roomPattern (toUpperCase rid) = true)
  /\ (forall token session, playerSessions st !! token = Some session ->
        s_roomId session <> [] /\ roomPattern (toUpperCase (s_roomId session)) = true)
  /\ (forall sid rid, roomId (connOf st sid) = Some rid ->
        rid <> [] /\ roomPattern (toUpperCase rid) = true).
Proof.
  intros Hreach.
  assert (Hvalid : idsValid st).
  { induction Hreach as [|i st Hreach IH]; [|apply handle_idsValid, IH].
    split; [|split].
    - intros rid ref. cbn. rewrite lookup_empty. discriminate.
    - intros token session. cbn. rewrite lookup_empty. discriminate.
    - intros sid rid. unfold connOf. cbn. rewrite lookup_empty. discriminate. }
  assert (Hshape : forall rid, validId rid ->
            rid <> [] /\ roomPattern (toUpperCase rid) = true).
  { intros [|c rid]; unfold validId; cbn; [discriminate|].
    intros Hp. split; [discriminate|exact Hp]. }
  destruct Hvalid as (Hreg & Hses & Hconn).
  split; [|split].
  - intros rid ref Hg. apply Hshape. exact (Hreg _ _ Hg).
  - intros token session Hs. apply Hshape. exact (Hses _ _ Hs).
  - intros sid rid Hc. apply Hshape. exact (Hconn _ _ Hc).
Qed.

(** *** The sweeps *)

Lemma onJoinRoom_room st sid rid roleV now token :
  validateRoomId (JStr rid) = true -> validRoles roleV = true ->
  inheritedKey rid = false ->
  exists ref room',
    roomAt (onJoinRoom sid (JStr rid) roleV now token st).1 rid = Some (ref, room')
    /\ lastActivity room' = now
    /\ roomId (connOf (onJoinRoom sid (JStr rid) roleV now token st).1 sid)
       = Some rid.
Proof.
  intros Hid Hrole Hown. unfold onJoinRoom. rewrite Hid, Hrole. cbn [negb].
  destruct roleV as [|preferredRole|]; try discriminate Hrole.
  destruct (getOrCreateRoom rid now st) as [st1 [[ref room]|]] eqn:Hget;
    [|unfold getOrCreateRoom in Hget; rewrite Hown in Hget;
      destruct (roomAt st rid) as [[ref1 room0]|]; discriminate Hget].
  destruct (assignRole preferredRole sid rid token room _)
    as [[[room' sessions'] notice] role] eqn:Hassign.
  cbn [fst].
  apply (assignRole_object InSweepSessions) in Hassign as (_ & Hl & _).
  assert (Hst1 : gameRooms st1 !! rid = Some ref /\ lastActivity room = now).
  { unfold getOrCreateRoom in Hget. rewrite Hown in Hget.
    destruct (roomAt st rid) as [[ref1 room0]|] eqn:Hr;
      injection Hget as <- <- <-.
    - apply roomAt_lookups in Hr as [Hg _]. auto.
    - cbn. rewrite lookup_insert_eq. auto. }
  destruct Hst1 as [Hg1 Hl1].
  exists ref, room'. split; [|split].
  - apply roomAt_lookups. cbn. rewrite lookup_insert_eq. auto.
  - congruence.
  - unfold connOf. cbn. rewrite lookup_insert_eq. reflexivity.
Qed.

(** X8. The idle sweep removes exactly the rooms whose last activity lies
    more than an hour back: a room survives when at most 3 600 000 ms have
    passed, the bound included. It deletes registry entries only; room
    objects, sessions and connections stay. So a room joined within the
    last hour is never swept; the id joined is one that does not name an
    inherited member of [gameRooms], for which [joinRoom] neither finds
    nor creates a room. *)
Theorem idle_sweep_removes_exactly_idle_rooms (st : State) (now : Z) :
  (forall rid ref room,
     roomAt (sweepRooms now st) rid = Some (ref, room)
     <-> roomAt st rid = Some (ref, room)
         /\ now - lastActivity room <= inactivityThreshold)
  /\ heap (sweepRooms now st) = heap st
  /\ playerSessions (sweepRooms now st) = playerSessions st
  /\ conns (sweepRooms now st) = conns st
  /\ (forall sid rid roleV t token,
        validateRoomId (JStr rid) = true -> validRoles roleV = true ->
        inheritedKey rid = false ->
        now <= t + inactivityThreshold ->
        exists ref room,
          roomAt (sweepRooms now (onJoinRoom sid (JStr rid) roleV t token st).1) rid
          = Some (ref, room)).
Proof.
  assert (Hiff : forall (st0 : State) rid ref room,
     roomAt (sweepRooms now st0) rid = Some (ref, room)
     <-> roomAt st0 rid = Some (ref, room)
         /\ now - lastActivity room <= inactivityThreshold).
  { intros st0 rid ref room. rewrite !roomAt_lookups. unfold sweepRooms. cbn.
    rewrite lookup_omap.
    destruct (gameRooms st0 !! rid) as [ref0|]; cbn.
    - destruct (heap st0 !! ref0) as [room0|] eqn:Hh0.
      + destruct (inactivityThreshold <? now - lastActivity room0) eqn:Hidle.
        * apply Z.ltb_lt in Hidle. split; [intros [[=] _]|].
          intros [[[= <-] Hh] Hle]. assert (room0 = room) as -> by congruence. lia.
        * apply Z.ltb_ge in Hidle. split.
          -- intros [[= <-] Hh]. assert (room0 = room) as -> by congruence. auto.
          -- intros [[Hg Hh] _]. auto.
      + split; [intros [[= <-] Hh]; congruence|intros [[[= <-] Hh] _]; congruence].
    - split; [intros [[=] _]|intros [[[=] _] _]]. }
  split; [apply Hiff|]. repeat (split; [reflexivity|]).
  intros sid rid roleV t token Hid Hrole Hown Hle.
  destruct (onJoinRoom_room st sid rid roleV t token Hid Hrole Hown)
    as (ref & room & Hr & Hl & _).
  exists ref, room. apply Hiff. split; [exact Hr|]. lia.
Qed.

(** X9. The session sweep keeps exactly the sessions whose room id is
    still a key of the registry; it touches nothing else and sweeping
    twice is sweeping once. After the idle sweep and the session sweep no
    token of a removed room is left. *)
Theorem session_sweep_keeps_sessions_of_live_rooms (st : State) :
  (forall token session,
     playerSessions (sweepSessions st) !! token = Some session
     <-> playerSessions st !! token = Some session
         /\ is_Some (gameRooms st !! s_roomId session))
  /\ gameRooms (sweepSessions st) = gameRooms st
  /\ heap (sweepSessions st) = heap st
  /\ sweepSessions (sweepSessions st) = sweepSessions st
  /\ (reachable st ->
      forall now token session,
        playerSessions (sweepSessions (sweepRooms now st)) !! token = Some session ->
        exists ref room,
          roomAt st (s_roomId session) = Some (ref, room)
          /\ now - lastActivity room <= inactivityThreshold).
Proof.
  assert (Hiff : forall (st0 : State) token session,
     playerSessions (sweepSessions st0) !! token = Some session
     <-> playerSessions st0 !! token = Some session
         /\ is_Some (gameRooms st0 !! s_roomId session)).
  { intros st0 token session. unfold sweepSessions. cbn. rewrite lookup_omap.
    destruct (playerSessions st0 !! token) as [s0|]; cbn.
    - destruct (gameRooms st0 !! s_roomId s0) as [ref|] eqn:Hg.
      + split; [intros [= <-]; eauto|intros [[= <-] _]; reflexivity].
      + split; [discriminate|]. intros [[= <-] [ref Href]]. congruence.
    - split; [discriminate|intros [[=] _]]. }
  split; [apply Hiff|]. split; [reflexivity|]. split; [reflexivity|].
  split.
  - unfold sweepSessions at 1 3. cbn. f_equal. apply map_eq. intros token.
    rewrite !lookup_omap.
    destruct (playerSessions st !! token) as [s0|]; [|reflexivity]. cbn.
    destruct (gameRooms st !! s_roomId s0) eqn:Hg; [|reflexivity]. cbn.
    rewrite Hg. reflexivity.
  - intros Hreach now token session Hs. apply Hiff in Hs as [_ [ref Hg]].
    pose proof (sweepRooms_lookup now st _ _ Hg) as Hg0.
    unfold sweepRooms in Hg. cbn in Hg. rewrite lookup_omap, Hg0 in Hg. cbn in Hg.
    apply reachable_wellFormed in Hreach.
    destruct (wellFormed_roomAt st _ ref Hreach Hg0) as [room Hr].
    pose proof Hr as Hl. apply roomAt_lookups in Hl as [_ Hh]. rewrite Hh in Hg.
    exists ref, room. split; [exact Hr|].
    destruct (inactivityThreshold <? now - lastActivity room) eqn:Hidle;
      [discriminate|]. apply Z.ltb_ge in Hidle. exact Hidle.
Qed.

(** *** The rate limiter *)

Lemma rateKey_inj sid1 sid2 action :
  rateKey sid1 action = rateKey sid2 action -> sid1 = sid2.
Proof. unfold rateKey. intros Heq. exact (app_inv_tail _ _ _ Heq). Qed.

(** The verdict and the new entry of a key depend on its entry alone. *)
Lemma checkRateLimit_ext sid action maxRequests windowMs now limits1 limits2 :
  limits1 !! rateKey sid action = limits2 !! rateKey sid action ->
  (checkRateLimit sid action maxRequests windowMs now limits1).1
  = (checkRateLimit sid action maxRequests windowMs now limits2).1
  /\ (checkRateLimit sid action maxRequests windowMs now limits1).2
       !! rateKey sid action
     = (checkRateLimit sid action maxRequests windowMs now limits2).2
       !! rateKey sid action.
Proof.
  intros Heq. unfold checkRateLimit. rewrite <- Heq.
  destruct (limits1 !! rateKey sid action) as [limit|] eqn:Hl.
  - destruct (resetTime limit <? now); cbn [fst snd];
      [rewrite !lookup_insert_eq; auto|].
    destruct (maxRequests <=? count limit); cbn [fst snd];
      [rewrite Hl; auto|rewrite !lookup_insert_eq; auto].
  - cbn [fst snd]. rewrite !lookup_insert_eq. auto.
Qed.

Lemma checkRateLimit_other_key sid action maxRequests windowMs now limits key :
  key <> rateKey sid action ->
  (checkRateLimit sid action maxRequests windowMs now limits).2 !! key
  = limits !! key.
Proof.
  intros Hne. unfold checkRateLimit.
  destruct (limits !! rateKey sid action) as [limit|].
  - destruct (resetTime limit <? now); cbn [snd];
      [apply lookup_insert_ne; auto|].
    destruct (maxRequests <=? count limit); cbn [snd];
      [reflexivity|apply lookup_insert_ne; auto].
  - cbn [snd]. apply lookup_insert_ne. auto.
Qed.

Lemma verdicts_ext sid action maxRequests windowMs times :
  forall limits1 limits2,
    limits1 !! rateKey sid action = limits2 !! rateKey sid action ->
    verdicts sid action maxRequests windowMs times limits1
    = verdicts sid action maxRequests windowMs times limits2.
Proof.
  induction times as [|t times IH]; intros limits1 limits2 Heq; [reflexivity|].
  cbn [verdicts].
  destruct (checkRateLimit_ext sid action maxRequests windowMs t _ _ Heq)
    as [Hv Hk].
  destruct (checkRateLimit sid action maxRequests windowMs t limits1) as [ok1 l1].
  destruct (checkRateLimit sid action maxRequests windowMs t limits2) as [ok2 l2].
  cbn [fst snd] in *. subst ok2. f_equal. apply IH, Hk.
Qed.

(** X10. The sweep of the rate-limit table cannot be observed: it deletes
    only entries whose window closed more than five minutes ago, and every
    later call of [checkRateLimit], for any key, gets the verdict it would
    have got without the sweep. *)
Theorem rate_limit_sweep_keeps_verdicts (st : State) (now : Z)
    (sid action : jsstring) (maxRequests windowMs : Z) (times : list Z) :
  (forall key limit,
     rateLimits (sweepRateLimits now st) !! key = Some limit
     <-> rateLimits st !! key = Some limit /\ now <= resetTime limit + 300000)
  /\ (Forall (fun t => now <= t) times ->
      verdicts sid action maxRequests windowMs times
               (rateLimits (sweepRateLimits now st))
      = verdicts sid action maxRequests windowMs times (rateLimits st)).
Proof.
  split.
  { intros key limit. unfold sweepRateLimits. cbn [rateLimits setRateLimits].
    rewrite lookup_omap. destruct (rateLimits st !! key) as [l0|]; cbn.
    - destruct (resetTime l0 + 300000 <? now) eqn:Hold.
      + apply Z.ltb_lt in Hold. split; [discriminate|]. intros [[= <-] Hle]. lia.
      + apply Z.ltb_ge in Hold. split; [intros [= <-]; auto|intros [[= <-] _]; auto].
    - split; [discriminate|intros [[=] _]]. }
  intros Hlater. unfold sweepRateLimits. cbn [rateLimits setRateLimits].
  destruct times as [|t times]; [reflexivity|].
  apply Forall_cons in Hlater as [Ht _]. cbn [verdicts].
  set (swept := omap _ (rateLimits st)).
  assert (Hstep : (checkRateLimit sid action maxRequests windowMs t swept).1
                  = (checkRateLimit sid action maxRequests windowMs t (rateLimits st)).1
                  /\ (checkRateLimit sid action maxRequests windowMs t swept).2
                       !! rateKey sid action
                     = (checkRateLimit sid action maxRequests windowMs t (rateLimits st)).2
                       !! rateKey sid action).
  { destruct (rateLimits st !! rateKey sid action) as [limit|] eqn:Hl.
    - destruct (resetTime limit + 300000 <? now) eqn:Hold.
      + apply Z.ltb_lt in Hold.
        assert (Hs : swept !! rateKey sid action = None).
        { unfold swept. rewrite lookup_omap, Hl. cbn.
          rewrite (proj2 (Z.ltb_lt _ _) Hold). reflexivity. }
        unfold checkRateLimit. rewrite Hs, Hl.
        rewrite (proj2 (Z.ltb_lt (resetTime limit) t)) by lia.
        cbn [fst snd]. rewrite !lookup_insert_eq. auto.
      + apply checkRateLimit_ext. unfold swept. rewrite lookup_omap, Hl. cbn.
        rewrite Hold. reflexivity.
    - apply checkRateLimit_ext. unfold swept. rewrite lookup_omap, Hl.
      reflexivity. }
  destruct Hstep as [Hv Hk].
  destruct (checkRateLimit sid action maxRequests windowMs t swept) as [ok1 l1].
  destruct (checkRateLimit sid action maxRequests windowMs t (rateLimits st))
    as [ok2 l2].
  cbn [fst snd] in *. subst ok2. f_equal. apply verdicts_ext, Hk.
Qed.

Lemma verdicts_in_window sid action maxRequests windowMs times :
  forall limits done limit,
    limits !! rateKey sid action = Some limit ->
    (1 <= done)%nat ->
    count limit = Z.max 1 (Z.min (Z.of_nat done) maxRequests) ->
    Forall (fun u => u <= resetTime limit) times ->
    verdicts sid action maxRequests windowMs times limits
    = map (fun k : nat => bool_decide (k = 0%nat \/ Z.of_nat k < maxRequests))
          (seq done (length times)).
Proof.
  induction times as [|u times IH]; intros limits done limit Hl Hdone Hcount Hin;
    [reflexivity|].
  apply Forall_cons in Hin as [Hu Hin]. cbn [verdicts length seq map].
  unfold checkRateLimit. rewrite Hl.
  rewrite (proj2 (Z.ltb_ge (resetTime limit) u)) by lia.
  destruct (maxRequests <=? count limit) eqn:Hfull.
  - apply Z.leb_le in Hfull.
    rewrite bool_decide_eq_false_2 by lia. f_equal.
    apply (IH limits (S done) limit Hl); [lia|lia|exact Hin].
  - apply Z.leb_gt in Hfull.
    rewrite bool_decide_eq_true_2 by lia. f_equal.
    eapply (IH _ (S done)); [apply lookup_insert_eq|lia| |exact Hin].
    cbn. lia.
Qed.

(** X11. From a table without an entry for the key, the first submission
    is let through whatever [maxRequests] is, zero and negative values
    included, and it opens the window. Of the submissions that arrive no
    later than [windowMs] after it, the k-th (counting the first as 0)
    passes exactly when k is below [maxRequests]. *)
Theorem first_window_lets_through_exactly_max (sid action : jsstring)
    (maxRequests windowMs t : Z) (rest : list Z)
    (limits : gmap jsstring Limit) :
  limits !! rateKey sid action = None ->
  Forall (fun u => u <= t + windowMs) rest ->
  verdicts sid action maxRequests windowMs (t :: rest) limits
  = map (fun k : nat => bool_decide (k = 0%nat \/ Z.of_nat k < maxRequests))
        (seq 0 (S (length rest))).
Proof.
  intros Hnone Hin. cbn [verdicts seq map].
  unfold checkRateLimit. rewrite Hnone.
  rewrite bool_decide_eq_true_2 by (left; reflexivity). f_equal.
  eapply (verdicts_in_window _ _ _ _ rest _ 1%nat);
    [apply lookup_insert_eq|lia|cbn; lia|exact Hin].
Qed.

(** X12. The limiter keeps connections apart: a call for one connection
    leaves the entry of every other connection as it was, so it changes
    none of the verdicts another connection gets for the same action. *)
Theorem rate_limit_per_connection (sid1 sid2 action : jsstring)
    (max1 window1 t : Z) (maxRequests windowMs : Z) (times : list Z)
    (limits : gmap jsstring Limit) :
  sid1 <> sid2 ->
  (checkRateLimit sid1 action max1 window1 t limits).2 !! rateKey sid2 action
  = limits !! rateKey sid2 action
  /\ verdicts sid2 action maxRequests windowMs times
       (checkRateLimit sid1 action max1 window1 t limits).2
     = verdicts sid2 action maxRequests windowMs times limits.
Proof.
  intros Hne.
  assert (Hkey : (checkRateLimit sid1 action max1 window1 t limits).2
                   !! rateKey sid2 action
                 = limits !! rateKey sid2 action).
  { apply checkRateLimit_other_key. intros Heq. apply Hne. symmetry.
    exact (rateKey_inj _ _ _ Heq). }
  split; [exact Hkey|]. apply verdicts_ext, Hkey.
Qed.

(** *** Reconnect, disconnect and the grace timer *)

(** X13. A reconnect is silent -- no event, no change of state -- exactly
    when the token is empty, when [playerSessions[sessionId]] finds
    nothing, neither a stored session nor an inherited member, when it
    finds a stored session whose room has no room object in the registry
    any more, or
    when it finds an inherited member and there is no room named
    [undefined]. With a room of that name a token such as [constructor]
    is not silent. *)
Theorem reconnect_silent_iff (st : State) (sid token : jsstring) :
  onReconnect sid token st = (st, [])
  <-> token = []
      \/ member (playerSessions st) token = Absent
      \/ (exists session,
            member (playerSessions st) token = Own session
            /\ roomAt st (s_roomId session) = None)
      \/ (member (playerSessions st) token = Inherited
          /\ roomAt st (js "undefined") = None).
Proof.
  unfold onReconnect.
  destruct (member (playerSessions st) token) as [session| |] eqn:Hs.
  - destruct (roomAt st (s_roomId session)) as [[ref room]|] eqn:Hr.
    + destruct token as [|c token]; [tauto|]. split.
      * cbv zeta.
        destruct (truthy (seatOf (players room) (s_role session)));
          cbn [negb]; intros Heq; apply (f_equal snd) in Heq;
          cbn [snd] in Heq; unfold roomSnapshot in Heq; discriminate Heq.
      * intros [Hnil|[Habsent|[(s0 & Hs0 & Hr0)|[Hinh _]]]]; try discriminate.
        injection Hs0 as <-. congruence.
    + split; [|destruct token; reflexivity]. intros _. right. right. left. eauto.
  - destruct (roomAt st (js "undefined")) as [[ref room]|] eqn:Hr.
    + destruct token as [|c token]; [tauto|]. split.
      * cbv zeta.
        destruct (truthy (undefinedKey (players room)));
          cbn [negb]; intros Heq; apply (f_equal snd) in Heq;
          cbn [snd] in Heq; unfold roomSnapshot in Heq; discriminate Heq.
      * intros [Hnil|[Habsent|[(s0 & Hs0 & _)|[_ Hnone]]]]; discriminate.
    + split; [|destruct token; reflexivity]. intros _. right. right. right. auto.
  - split; [|destruct token; reflexivity]. intros _. right. left. reflexivity.
Qed.

Lemma handleDisconnection_spec st sid now rid ref room :
  currentRoom st sid = Some (rid, ref, room) ->
  (handleDisconnection sid now st).2 = []
  /\ gameRooms (handleDisconnection sid now st).1 = gameRooms st
  /\ playerSessions (handleDisconnection sid now st).1 = playerSessions st
  /\ heap (handleDisconnection sid now st).1
     = <[ref := setSpectators room
                  (filter (fun id => id ≠ sid) (spectators room))]> (heap st)
  /\ connOf (handleDisconnection sid now st).1 sid
     = {| roomId := Some rid;
          disconnectTimer := Some {| t_room := ref; t_roomId := rid;
                                     t_due := now + gracePeriod |} |}
  /\ (forall s, s <> sid ->
        connOf (handleDisconnection sid now st).1 s = connOf st s).
Proof.
  intros Hc. pose proof (currentRoom_heap _ _ _ _ _ Hc) as (_ & _ & Hid).
  unfold handleDisconnection. rewrite Hc. cbn [fst snd].
  repeat (split; [reflexivity|]). split.
  - rewrite connOf_setConn, decide_True by reflexivity.
    f_equal. exact Hid.
  - intros s Hne. rewrite connOf_setConn, decide_False by auto. reflexivity.
Qed.

Lemma seatHeld_seatOf room sid seat :
  seatHeld room sid = Some seat -> seatOf (players room) seat = Some sid.
Proof.
  unfold seatHeld. repeat case_bool_decide; intros [= <-]; cbn; congruence.
Qed.

(** The room the holder's timer leaves behind. *)
Lemma onTimer_vacates st sid now timer room seat :
  disconnectTimer (connOf st sid) = Some timer ->
  t_due timer <= now ->
  heap st !! t_room timer = Some room ->
  seatHeld room sid = Some seat ->
  onTimer sid now st
  = (setConn (storeRoom st (t_room timer)
                (setPlayers room (setSeat (players room) seat None)))
             sid {| roomId := roomId (connOf st sid); disconnectTimer := None |},
     [(ToRoom (t_roomId timer),
       playersUpdate (setPlayers room (setSeat (players room) seat None)))]).
Proof.
  intros Ht Hdue Hh Hseat. unfold onTimer. rewrite Ht.
  rewrite (proj2 (Z.ltb_ge now (t_due timer))) by lia. rewrite Hh.
  unfold seatHeld in Hseat.
  repeat case_bool_decide; try discriminate; injection Hseat as <-;
    try reflexivity; congruence.
Qed.

(** X14. Once the grace period is over the token gives the seat back: if
    a seated player disconnects, its timer runs at or after 30 s, and then
    any connection reconnects with the token of that seat, the connection
    gets the seat under the same role, with the room snapshot and an
    occupancy broadcast, and the token stays valid. *)
Theorem reconnect_after_grace_restores_seat (st : State)
    (h other token : jsstring) (session : Session)
    (rid : jsstring) (ref : nat) (room : Room) (t0 now : Z) :
  currentRoom st h = Some (rid, ref, room) ->
  seatHeld room h = Some (s_role session) ->
  token <> [] ->
  playerSessions st !! token = Some session ->
  s_roomId session = rid ->
  t0 + gracePeriod <= now ->
  exists room',
    roomAt (run [InDisconnect h t0; InTimer h now; InReconnect other token] st).1 rid
    = Some (ref, room')
    /\ seatOf (players room') (s_role session) = Some other
    /\ seatOf (players room') (opponent (s_role session))
       = seatOf (players room) (opponent (s_role session))
    /\ (run [InDisconnect h t0; InTimer h now; InReconnect other token] st).2
       = [(ToRoom rid,
           playersUpdate
             (setPlayers
                (setSpectators room
                   (filter (fun id => id ≠ h) (spectators room)))
                (setSeat (players room) (s_role session) None)))]
         ++ roomSnapshot other (roleOfSeat (s_role session)) room'
         ++ [(ToRoom rid, playersUpdate room')]
    /\ playerSessions
         (run [InDisconnect h t0; InTimer h now; InReconnect other token] st).1
       = playerSessions st.
Proof.
  intros Hc Hseat Htoken Hs Hrid Hdue.
  pose proof (currentRoom_heap _ _ _ _ _ Hc) as (Hg & Hh & Hid).
  destruct (handleDisconnection_spec st h t0 rid ref room Hc)
    as (Hout1 & Hg1 & Hs1 & Hh1 & Hconn1 & _).
  cbn [run handle].
  destruct (handleDisconnection h t0 st) as [st1 out1]. cbn [fst snd] in *.
  subst out1.
  set (room1 := setSpectators room (filter (fun id => id ≠ h) (spectators room))) in *.
  assert (Htimer : onTimer h now st1
            = (setConn (storeRoom st1 ref
                          (setPlayers room1 (setSeat (players room1) (s_role session) None)))
                       h {| roomId := roomId (connOf st1 h); disconnectTimer := None |},
               [(ToRoom rid,
                 playersUpdate
                   (setPlayers room1 (setSeat (players room1) (s_role session) None)))])).
  { apply (onTimer_vacates st1 h now
             {| t_room := ref; t_roomId := rid; t_due := t0 + gracePeriod |} room1).
    - rewrite Hconn1. reflexivity.
    - cbn. lia.
    - cbn. rewrite Hh1. apply lookup_insert_eq.
    - exact Hseat. }
  rewrite Htimer.
  set (room2 := setPlayers room1 (setSeat (players room1) (s_role session) None)) in *.
  set (st2 := setConn (storeRoom st1 ref room2) h _) in *.
  assert (Hr2 : roomAt st2 (s_roomId session) = Some (ref, room2)).
  { rewrite Hrid. apply roomAt_lookups. cbn. rewrite Hg1.
    split; [exact Hg|apply lookup_insert_eq]. }
  assert (Hs2 : playerSessions st2 !! token = Some session)
    by (cbn; rewrite Hs1; exact Hs).
  assert (Hfree : truthy (seatOf (players room2) (s_role session)) = false)
    by (destruct (s_role session); reflexivity).
  unfold onReconnect. destruct token as [|c token]; [contradiction|].
  rewrite (member_Own _ _ _ Hs2), Hr2, Hfree. cbn [negb fst snd].
  eexists. split; [|split; [|split; [|split]]].
  - rewrite <- Hrid. apply roomAt_lookups. cbn. rewrite Hg1.
    split; [rewrite Hrid; exact Hg|apply lookup_insert_eq].
  - destruct (s_role session); reflexivity.
  - destruct (s_role session); reflexivity.
  - rewrite Hrid. reflexivity.
  - cbn. exact Hs1.
Qed.

(** X15. The grace timer of a connection runs once. Before it is due its
    callback does nothing; when it runs it broadcasts one occupancy update
    to the room it was armed for and removes itself, so that any later
    run for the connection does nothing. *)
Theorem grace_timer_runs_once (st : State) (sid : jsstring) (now : Z)
    (timer : Timer) (room : Room) :
  disconnectTimer (connOf st sid) = Some timer ->
  heap st !! t_room timer = Some room ->
  (now < t_due timer -> onTimer sid now st = (st, []))
  /\ (t_due timer <= now ->
      (exists room',
         heap (onTimer sid now st).1 !! t_room timer = Some room'
         /\ spectators room' = spectators room
         /\ (onTimer sid now st).2 = [(ToRoom (t_roomId timer), playersUpdate room')])
      /\ disconnectTimer (connOf (onTimer sid now st).1 sid) = None
      /\ forall later,
           onTimer sid later (onTimer sid now st).1 = ((onTimer sid now st).1, [])).
Proof.
  intros Ht Hh. split.
  - intros Hearly. unfold onTimer. rewrite Ht.
    rewrite (proj2 (Z.ltb_lt now (t_due timer))) by lia. reflexivity.
  - intros Hdue.
    assert (Hnone : disconnectTimer (connOf (onTimer sid now st).1 sid) = None).
    { unfold onTimer. rewrite Ht.
      rewrite (proj2 (Z.ltb_ge now (t_due timer))) by lia. rewrite Hh.
      cbn [fst]. rewrite connOf_setConn, decide_True by reflexivity. reflexivity. }
    split; [|split; [exact Hnone|]].
    + unfold onTimer. rewrite Ht.
      rewrite (proj2 (Z.ltb_ge now (t_due timer))) by lia. rewrite Hh.
      cbn [fst snd]. eexists. split; [cbn; apply lookup_insert_eq|].
      split; [|reflexivity]. repeat case_bool_decide; reflexivity.
    + intros later. unfold onTimer at 1. rewrite Hnone. reflexivity.
Qed.

(** X16. A spectator's disconnect takes it out of the spectators at once
    but tells nobody: the room hears of it only when the timer runs, in an
    occupancy update that counts the remaining spectators and reports the
    seats unchanged. *)
Theorem spectator_leaves_silently_then_update (st : State) (sid rid : jsstring)
    (ref : nat) (room : Room) (t0 now : Z) :
  currentRoom st sid = Some (rid, ref, room) ->
  seatHeld room sid = None ->
  t0 + gracePeriod <= now ->
  (handleDisconnection sid t0 st).2 = []
  /\ (exists room1,
        roomAt (handleDisconnection sid t0 st).1 rid = Some (ref, room1)
        /\ (sid ∉ spectators room1)
        /\ (forall s, s <> sid -> (s ∈ spectators room1) <-> (s ∈ spectators room))
        /\ players room1 = players room)
  /\ (run [InDisconnect sid t0; InTimer sid now] st).2
     = [(ToRoom rid,
         EvPlayersUpdate (occupancy (white (players room)))
                         (occupancy (black (players room)))
                         (length (filter (fun id => id ≠ sid) (spectators room))))].
Proof.
  intros Hc Hseat Hdue.
  pose proof (currentRoom_heap _ _ _ _ _ Hc) as (Hg & Hh & Hid).
  destruct (handleDisconnection_spec st sid t0 rid ref room Hc)
    as (Hout1 & Hg1 & Hs1 & Hh1 & Hconn1 & _).
  split; [exact Hout1|]. split.
  - eexists. split.
    + apply roomAt_lookups. rewrite Hg1, Hh1.
      split; [exact Hg|apply lookup_insert_eq].
    + cbn. split; [|split; [|reflexivity]].
      * rewrite list_elem_of_filter. tauto.
      * intros s Hne. rewrite list_elem_of_filter. tauto.
  - cbn [run handle].
    destruct (handleDisconnection sid t0 st) as [st1 out1]. cbn [fst snd] in *.
    subst out1. unfold onTimer. rewrite Hconn1. cbn [disconnectTimer t_due t_room t_roomId].
    rewrite (proj2 (Z.ltb_ge now (t0 + gracePeriod))) by lia.
    rewrite Hh1, lookup_insert_eq.
    unfold seatHeld in Hseat. cbn [players setSpectators].
    repeat case_bool_decide; try discriminate; try congruence.
    reflexivity.
Qed.

(** *** Joining *)

Lemma seatName_white seat :
  bool_decide (seatName seat = js "white")
  = match seat with SWhite => true | SBlack => false end.
Proof. destruct seat; reflexivity. Qed.

Lemma seatName_black : bool_decide (seatName SBlack = js "black") = true.
Proof. reflexivity. Qed.

Lemma validRoles_seatName seat : validRoles (JStr (seatName seat)) = true.
Proof. destruct seat; reflexivity. Qed.

Lemma assignRole_seatName seat sid rid sessionId room sessions :
  assignRole (seatName seat) sid rid sessionId room sessions
  = if negb (truthy (seatOf (players room) seat)) then
      takeSeat seat sid rid sessionId room sessions
    else
      spectate sid room sessions
        [(ToSocket sid, EvRoleUnavailable seat (unavailableMessage seat))].
Proof.
  unfold assignRole. rewrite seatName_white. destruct seat; [reflexivity|].
  rewrite seatName_black. reflexivity.
Qed.

Lemma getOrCreateRoom_roomAt rid now st st1 ref room :
  getOrCreateRoom rid now st = (st1, Some (ref, room)) ->
  gameRooms st1 !! rid = Some ref /\ heap st1 !! ref = Some room
  /\ playerSessions st1 = playerSessions st.
Proof.
  unfold getOrCreateRoom. destruct (roomAt st rid) as [[ref0 room0]|] eqn:Hr.
  - intros [= <- <- <-]. apply roomAt_lookups in Hr as [Hg Hh]. cbn.
    rewrite lookup_insert_eq. auto.
  - destruct (inheritedKey rid); [discriminate|].
    intros [= <- <- <-]. cbn. rewrite !lookup_insert_eq. auto.
Qed.

(** [getOrCreateRoom] returns an inherited member exactly for an id that
    names one and is not the id of a room; it then leaves the state as it
    was. *)
Lemma getOrCreateRoom_None rid now st st1 :
  getOrCreateRoom rid now st = (st1, None)
  <-> roomAt st rid = None /\ inheritedKey rid = true /\ st1 = st.
Proof.
  unfold getOrCreateRoom. destruct (roomAt st rid) as [[ref0 room0]|].
  - split; [discriminate|intros [[=] _]].
  - destruct (inheritedKey rid).
    + split; [intros [= <-]; auto|intros (_ & _ & ->); reflexivity].
    + split; [discriminate|intros (_ & [=] & _)].
Qed.

(** X17. What a join for a named seat gives. For a well-formed room id
    that does not name an inherited member of [gameRooms], [getOrCreateRoom]
    returns a room object, found or created. Whenever it does, a request
    for white or black gets the seat exactly when the seat is free: then
    the socket is seated, the session token is bound to that room and
    seat, and the socket is sent the token before the room snapshot; when
    the seat is occupied the seat and the session table are left alone, the
    socket is appended to the spectators and is told that the role is
    unavailable. When [getOrCreateRoom] returns an inherited member
    instead -- the ids [constructor], [toString] and [valueOf] pass the
    format check -- the handler throws on [room.players]: nothing is
    emitted, and no room, seat or session is written. *)
Theorem join_grants_seat_iff_free (st : State) (sid rid token : jsstring)
    (seat : Seat) (now : Z) :
  validateRoomId (JStr rid) = true ->
  (inheritedKey rid = false ->
   exists st1 ref room, getOrCreateRoom rid now st = (st1, Some (ref, room)))
  /\ (forall st1 ref room,
        getOrCreateRoom rid now st = (st1, Some (ref, room)) ->
        exists room',
          roomAt (onJoinRoom sid (JStr rid) (JStr (seatName seat)) now token st).1 rid
          = Some (ref, room')
          /\ roomId (connOf (onJoinRoom sid (JStr rid) (JStr (seatName seat))
                                       now token st).1 sid)
             = Some rid
          /\ (onJoinRoom sid (JStr rid) (JStr (seatName seat)) now token st).2
             = (if truthy (seatOf (players room) seat)
                then [(ToSocket sid,
                       EvRoleUnavailable seat (unavailableMessage seat))]
                else [(ToSocket sid, EvSessionId token)])
               ++ roomSnapshot sid
                    (if truthy (seatOf (players room) seat) then RoleSpectator
                     else roleOfSeat seat) room'
               ++ [(ToRoom rid, playersUpdate room')]
          /\ seatOf (players room') (opponent seat)
             = seatOf (players room) (opponent seat)
          /\ (truthy (seatOf (players room) seat) = false ->
              seatOf (players room') seat = Some sid
              /\ spectators room' = spectators room
              /\ playerSessions (onJoinRoom sid (JStr rid) (JStr (seatName seat))
                                            now token st).1
                 = <[token := {| s_roomId := rid; s_role := seat |}]>
                     (playerSessions st))
          /\ (truthy (seatOf (players room) seat) = true ->
              seatOf (players room') seat = seatOf (players room) seat
              /\ spectators room' = spectators room ++ [sid]
              /\ playerSessions (onJoinRoom sid (JStr rid) (JStr (seatName seat))
                                            now token st).1
                 = playerSessions st))
  /\ (forall st1,
        getOrCreateRoom rid now st = (st1, None) ->
        inheritedKey rid = true
        /\ (onJoinRoom sid (JStr rid) (JStr (seatName seat)) now token st).2 = []
        /\ heap (onJoinRoom sid (JStr rid) (JStr (seatName seat)) now token st).1
           = heap st
        /\ gameRooms (onJoinRoom sid (JStr rid) (JStr (seatName seat)) now token st).1
           = gameRooms st
        /\ playerSessions (onJoinRoom sid (JStr rid) (JStr (seatName seat))
                                      now token st).1
           = playerSessions st).
Proof.
  intros Hvalid. split; [|split].
  - intros Hown. unfold getOrCreateRoom. rewrite Hown.
    destruct (roomAt st rid) as [[ref0 room0]|]; eauto.
  - intros st1 ref room Hget.
    destruct (getOrCreateRoom_roomAt _ _ _ _ _ _ Hget) as (Hg1 & Hh1 & Hs1).
    unfold onJoinRoom. rewrite Hvalid, validRoles_seatName. cbn [negb].
    rewrite Hget. rewrite assignRole_seatName.
    destruct (truthy (seatOf (players room) seat)) eqn:Htaken; cbn [negb].
    + unfold spectate. cbn [fst snd].
      eexists. split; [apply roomAt_lookups; cbn; split;
                       [exact Hg1|apply lookup_insert_eq]|].
      split; [unfold connOf; cbn; rewrite lookup_insert_eq; reflexivity|].
      split; [reflexivity|]. split; [reflexivity|].
      split; [discriminate|]. intros _. cbn. auto.
    + unfold takeSeat. cbn [fst snd].
      eexists. split; [apply roomAt_lookups; cbn; split;
                       [exact Hg1|apply lookup_insert_eq]|].
      split; [unfold connOf; cbn; rewrite lookup_insert_eq; reflexivity|].
      split; [reflexivity|]. split; [destruct seat; reflexivity|].
      split; [|discriminate]. intros _. cbn.
      split; [destruct seat; reflexivity|]. split; [reflexivity|].
      rewrite Hs1. reflexivity.
  - intros st1 Hget. pose proof Hget as Hnone.
    apply getOrCreateRoom_None in Hnone as (_ & Hinh & _).
    split; [exact Hinh|].
    unfold onJoinRoom. rewrite Hvalid, validRoles_seatName. cbn [negb].
    rewrite Hget. auto.
Qed.

(** X18. A join as spectator, when [getOrCreateRoom] returns a room
    object, never touches a seat or the session table and issues no token:
    the socket is appended to the spectators and sent the snapshot, and the
    room is told the new spectator count. *)
Theorem spectator_join_takes_no_seat (st st1 : State) (sid rid token : jsstring)
    (now : Z) (ref : nat) (room : Room) :
  validateRoomId (JStr rid) = true ->
  getOrCreateRoom rid now st = (st1, Some (ref, room)) ->
  roomAt (onJoinRoom sid (JStr rid) (JStr (js "spectator")) now token st).1 rid
  = Some (ref, setSpectators room (spectators room ++ [sid]))
  /\ playerSessions (onJoinRoom sid (JStr rid) (JStr (js "spectator")) now token st).1
     = playerSessions st
  /\ (onJoinRoom sid (JStr rid) (JStr (js "spectator")) now token st).2
     = roomSnapshot sid RoleSpectator room
       ++ [(ToRoom rid,
            EvPlayersUpdate (occupancy (white (players room)))
                            (occupancy (black (players room)))
                            (S (length (spectators room))))].
Proof.
  intros Hvalid Hget.
  destruct (getOrCreateRoom_roomAt _ _ _ _ _ _ Hget) as (Hg1 & Hh1 & Hs1).
  unfold onJoinRoom. rewrite Hvalid.
  change (validRoles (JStr (js "spectator"))) with true.
  cbn [negb]. rewrite Hget.
  change (assignRole (js "spectator") sid rid token room (playerSessions
            (setConn st1 sid {| roomId := Some rid;
               disconnectTimer := disconnectTimer (connOf st1 sid) |})))
    with (spectate sid room (playerSessions st1) []).
  unfold spectate. cbn [fst snd].
  split; [apply roomAt_lookups; cbn; split; [exact Hg1|apply lookup_insert_eq]|].
  split; [cbn; exact Hs1|].
  unfold roomSnapshot, playersUpdate. cbn.
  rewrite length_app. cbn. rewrite Nat.add_1_r. reflexivity.
Qed.

(** X19. The role check in front of the assignment lets through the three
    strings [white], [black] and [spectator] only. Any other role -- the
    string [viewer], for which the assignment has a branch, or a missing
    role, for which it has the automatic assignment -- is answered with an
    error to the sender and changes nothing, so that neither branch is
    ever taken. *)
Theorem join_refuses_roles_outside_three (st : State) (sid token : jsstring)
    (roomV roleV : JsVal) (now : Z) :
  roleV <> JStr (js "white") ->
  roleV <> JStr (js "black") ->
  roleV <> JStr (js "spectator") ->
  onJoinRoom sid roomV roleV now token st
  = (st, [(ToSocket sid,
           EvError (if validateRoomId roomV then "Invalid role specified"
                    else "Invalid room ID format"))]).
Proof.
  intros Hw Hb Hs. unfold onJoinRoom.
  destruct (validateRoomId roomV); cbn [negb]; [|reflexivity].
  assert (Hno : validRoles roleV = false).
  { destruct roleV as [|s|]; try reflexivity. unfold validRoles.
    repeat case_bool_decide; try reflexivity; congruence. }
  rewrite Hno. reflexivity.
Qed.

(** *** Draw offers and reset *)

(** X20. A draw offer is addressed by seat, not by presence. While the
    opponent's grace period runs the offer is still reported as sent,
    addressed to the opponent's socket id; once the opponent's timer has
    run the offer is refused for want of an opponent. *)
Theorem draw_offer_during_and_after_grace (st : State) (sid opp rid : jsstring)
    (ref : nat) (room : Room) (seat : Seat) (t0 now : Z) :
  currentRoom st sid = Some (rid, ref, room) ->
  currentRoom st opp = Some (rid, ref, room) ->
  seatHeld room sid = Some seat ->
  seatHeld room opp = Some (opponent seat) ->
  opp <> [] ->
  t0 + gracePeriod <= now ->
  (run [InDisconnect opp t0; InOfferDraw sid] st).2
  = [(ToRoom opp, EvDrawOfferReceived seat); (ToSocket sid, EvDrawOfferSent)]
  /\ (run [InDisconnect opp t0; InTimer opp now; InOfferDraw sid] st).2
     = [(ToRoom rid,
         playersUpdate
           (setPlayers
              (setSpectators room
                 (filter (fun id => id ≠ opp) (spectators room)))
              (setSeat (players room) (opponent seat) None)));
        (ToSocket sid, EvDrawOfferError "No opponent to offer draw to")].
Proof.
  intros Hc Hco Hseat Hoseat Hne Hdue.
  assert (Hdiff : sid <> opp).
  { intros ->. rewrite Hseat in Hoseat. destruct seat; discriminate. }
  pose proof (currentRoom_heap _ _ _ _ _ Hc) as (Hg & Hh & Hid).
  pose proof (currentRoom_nonempty _ _ _ _ _ Hc) as Hrid.
  destruct (handleDisconnection_spec st opp t0 rid ref room Hco)
    as (Hout1 & Hg1 & Hs1 & Hh1 & Hconn1 & Hother).
  specialize (Hother sid Hdiff).
  cbn [run handle].
  destruct (handleDisconnection opp t0 st) as [st1 out1]. cbn [fst snd] in *.
  subst out1.
  set (room1 := setSpectators room (filter (fun id => id ≠ opp) (spectators room))) in *.
  assert (Hc1 : currentRoom st1 sid = Some (rid, ref, room1)).
  { apply currentRoom_intro; [exact Hrid|rewrite Hother; exact Hid|].
    apply roomAt_lookups. rewrite Hg1, Hh1.
    split; [exact Hg|apply lookup_insert_eq]. }
  split.
  - unfold onOfferDraw. rewrite Hc1.
    change (seatHeld room1 sid) with (seatHeld room sid). rewrite Hseat.
    change (players room1) with (players room).
    rewrite (seatHeld_seatOf _ _ _ Hoseat).
    destruct opp; [contradiction|]. reflexivity.
  - assert (Htimer : onTimer opp now st1
            = (setConn (storeRoom st1 ref
                          (setPlayers room1 (setSeat (players room1) (opponent seat) None)))
                       opp {| roomId := roomId (connOf st1 opp); disconnectTimer := None |},
               [(ToRoom rid,
                 playersUpdate
                   (setPlayers room1 (setSeat (players room1) (opponent seat) None)))])).
    { apply (onTimer_vacates st1 opp now
               {| t_room := ref; t_roomId := rid; t_due := t0 + gracePeriod |} room1).
      - rewrite Hconn1. reflexivity.
      - cbn. lia.
      - cbn. rewrite Hh1. apply lookup_insert_eq.
      - exact Hoseat. }
    rewrite Htimer. cbn [fst snd].
    set (room2 := setPlayers room1 (setSeat (players room1) (opponent seat) None)) in *.
    set (st2 := setConn (storeRoom st1 ref room2) opp _).
    assert (Hc2 : currentRoom st2 sid = Some (rid, ref, room2)).
    { apply currentRoom_intro; [exact Hrid| |].
      - unfold st2. rewrite connOf_setConn, decide_False by auto.
        change (roomId (connOf st1 sid) = Some rid). rewrite Hother. exact Hid.
      - apply roomAt_lookups. cbn. rewrite Hg1.
        split; [exact Hg|apply lookup_insert_eq]. }
    unfold onOfferDraw. rewrite Hc2.
    assert (Hheld2 : seatHeld room2 sid = Some seat).
    { unfold seatHeld in *. cbn.
      destruct seat; cbn; repeat case_bool_decide; try congruence;
        try discriminate. }
    rewrite Hheld2.
    assert (Hgone : seatOf (players room2) (opponent seat) = None)
      by (destruct seat; reflexivity).
    rewrite Hgone. reflexivity.
Qed.

(** X21. A reset starts the game over and keeps the rest. For a seated
    socket it sets the position back and clears the move list but leaves
    [currentPlayer], the seats, the spectators, the chat and both time
    stamps as they are, and the three events go to the whole room; for a
    socket without a seat it does nothing. Whatever the position was
    before, the next move is judged against the initial position: if the
    engine accepts it there from the holder of the seat to move, it is
    the only record of the new move list. *)
Theorem reset_starts_game_over (st : State) (sid rid : jsstring)
    (ref : nat) (room : Room) :
  currentRoom st sid = Some (rid, ref, room) ->
  (seatHeld room sid = None -> onResetGame sid st = (st, []))
  /\ (seatHeld room sid <> None ->
      (exists room',
         currentRoom (onResetGame sid st).1 sid = Some (rid, ref, room')
         /\ chess room' = newChess /\ moveHistory room' = []
         /\ currentPlayer room' = currentPlayer room
         /\ players room' = players room
         /\ spectators room' = spectators room
         /\ chatHistory room' = chatHistory room
         /\ createdAt room' = createdAt room
         /\ lastActivity room' = lastActivity room
         /\ (onResetGame sid st).2
            = [(ToRoom rid, EvGameReset);
               (ToRoom rid, EvBoardState (fen newChess));
               (ToRoom rid, EvMoveHistory [])])
      /\ forall mover m now p' r,
           currentRoom st mover = Some (rid, ref, room) ->
           seatOf (players room) (seatToMove newChess) = Some mover ->
           move newChess m = MoveOk p' r ->
           exists room'',
             roomAt (run [InResetGame sid; InMove mover m now] st).1 rid
             = Some (ref, room'')
             /\ chess room'' = p'
             /\ moveHistory room''
                = [{| mr_move := san r; mr_color := color r;
                      mr_timestamp := now |}]).
Proof.
  intros Hc.
  pose proof (currentRoom_heap _ _ _ _ _ Hc) as (Hg & Hh & Hid).
  pose proof (currentRoom_nonempty _ _ _ _ _ Hc) as Hrid.
  split.
  - intros Hnone. unfold onResetGame. rewrite Hc, Hnone. reflexivity.
  - intros Hheld. split.
    + unfold onResetGame. rewrite Hc.
      destruct (seatHeld room sid); [|contradiction].
      cbn [fst snd]. eexists. split.
      * apply currentRoom_intro; [exact Hrid|exact Hid|].
        apply roomAt_lookups. cbn. split; [exact Hg|apply lookup_insert_eq].
      * cbn. repeat split; reflexivity.
    + intros mover m now p' r Hcm Hseat Hm.
      pose proof (currentRoom_heap _ _ _ _ _ Hcm) as (_ & _ & Hidm).
      cbn [run handle]. unfold onResetGame. rewrite Hc.
      destruct (seatHeld room sid); [|contradiction].
      cbn [fst snd].
      set (room1 := {| chess := newChess; players := players room;
                       currentPlayer := currentPlayer room;
                       spectators := spectators room; moveHistory := [];
                       chatHistory := chatHistory room;
                       createdAt := createdAt room;
                       lastActivity := lastActivity room |}).
      assert (Hturn : onTurn (storeRoom st ref room1) mover rid ref room1).
      { split; [|exact Hseat].
        apply currentRoom_intro; [exact Hrid|exact Hidm|].
        apply roomAt_lookups. cbn. split; [exact Hg|apply lookup_insert_eq]. }
      rewrite (onMove_accept _ _ _ now _ _ _ _ _ Hturn Hm). cbn [fst].
      eexists. split.
      * apply roomAt_lookups. cbn. split; [exact Hg|apply lookup_insert_eq].
      * split; reflexivity.
Qed.

(** X22. The limiter is charged before anything else is looked at. For a
    connection in a room every chat submission leaves the table as
    [checkRateLimit] returns it -- also when the sender turns out to be a
    spectator or the text to be invalid --, and a submission the limiter
    refuses changes nothing and is answered with the one error. A
    submission of a connection that is in no room is not counted. *)
Theorem chat_attempts_counted_before_checks (st : State) (sid : jsstring)
    (message : JsVal) (now : Z) (rnd : N) :
  (currentRoom st sid = None -> onChatMessage sid message now rnd st = (st, []))
  /\ (currentRoom st sid <> None ->
      rateLimits (onChatMessage sid message now rnd st).1
      = (checkRateLimit sid (js "chat") 5 30000 now (rateLimits st)).2
      /\ ((checkRateLimit sid (js "chat") 5 30000 now (rateLimits st)).1 = false ->
          onChatMessage sid message now rnd st
          = (st, [(ToSocket sid,
                   EvChatError "You are sending messages too quickly")]))
      /\ ((checkRateLimit sid (js "chat") 5 30000 now (rateLimits st)).1 = true ->
          forall rid ref room,
            currentRoom st sid = Some (rid, ref, room) ->
            seatHeld room sid = None ->
            (onChatMessage sid message now rnd st).2
            = [(ToSocket sid, EvChatError "Only players can send messages")])).
Proof.
  split.
  - intros Hnone. unfold onChatMessage. rewrite Hnone. reflexivity.
  - intros Hsome. unfold onChatMessage.
    destruct (currentRoom st sid) as [[[rid ref] room]|] eqn:Hc; [|contradiction].
    assert (Hkeep : (checkRateLimit sid (js "chat") 5 30000 now (rateLimits st)).1
                    = false ->
                    (checkRateLimit sid (js "chat") 5 30000 now (rateLimits st)).2
                    = rateLimits st).
    { unfold checkRateLimit.
      destruct (rateLimits st !! rateKey sid (js "chat")) as [limit|]; cbn;
        [|discriminate].
      destruct (resetTime limit <? now); cbn; [discriminate|].
      destruct (5 <=? count limit); cbn; [reflexivity|discriminate]. }
    destruct (checkRateLimit sid (js "chat") 5 30000 now (rateLimits st))
      as [ok limits]. cbn [fst snd] in *.
    destruct ok; cbn [negb].
    + split; [|split; [discriminate|]].
      * destruct (bool_decide (Some sid ≠ white (players room))
                  && bool_decide (Some sid ≠ black (players room)));
          [reflexivity|].
        destruct (validateInput message 200); reflexivity.
      * intros _ rid0 ref0 room0 [= <- <- <-] Hnoseat.
        unfold seatHeld in Hnoseat.
        repeat case_bool_decide; try discriminate; try congruence.
        reflexivity.
    + split; [symmetry; apply Hkeep; reflexivity|].
      split; [reflexivity|discriminate].
Qed.

(** *** Room ids *)

Lemma roomPatternChar_asciiUpper c :
  roomPatternChar (asciiUpper c) = roomIdChar c.
Proof.
  unfold asciiUpper.
  destruct (N.leb_spec 97 c), (N.leb_spec c 122); cbn [andb];
  unfold roomPatternChar, roomIdChar;
  repeat match goal with
         | |- context [(?a <=? ?b)%N] => destruct (N.leb_spec a b)
         | |- context [(?a =? ?b)%N] => destruct (N.eqb_spec a b)
         end; cbn; try reflexivity; try lia.
Qed.

(** X23. The room id check is case-insensitive and admits hyphens. For a
    string on which [toUpperCase] acts as the ASCII upper-casing -- every
    string of ASCII characters --, the id is valid exactly when it has 4 to
    12 characters, each a letter of either case, a digit or a hyphen. *)
Theorem validateRoomId_letters_digits_hyphen (s : jsstring) :
  toUpperCase s = map asciiUpper s ->
  validateRoomId (JStr s) = true
  <-> (4 <= length s <= 12)%nat /\ Forall (fun c => roomIdChar c = true) s.
Proof.
  intros Hup. unfold validateRoomId.
  destruct s as [|c s']; [cbn; split; [discriminate|lia]|].
  rewrite Hup. unfold roomPattern. rewrite length_map, !andb_true_iff.
  rewrite Nat.leb_le, Nat.leb_le, forallb_forall, Forall_forall.
  split.
  - intros [[Hlo Hhi] Hall]. split; [lia|].
    intros x Hx. rewrite <- roomPatternChar_asciiUpper. apply Hall.
    apply in_map. apply list_elem_of_In. exact Hx.
  - intros [[Hlo Hhi] Hall]. split; [split; assumption|].
    intros x Hx. apply in_map_iff in Hx as (y & <- & Hy).
    rewrite roomPatternChar_asciiUpper. apply Hall.
    apply list_elem_of_In. exact Hy.
Qed.

End MoreProperties.

(* ===================================================================== *)
(** ** Properties of the performance monitor                              *)
(* ===================================================================== *)

Module MonitorProperties.
Import Monitor.

Lemma max_fold_ge (p : Z) (l : list Z) : p <= fold_right Z.max p l.
Proof. induction l as [|a l IH]; cbn; lia. Qed.

Lemma max_fold_shift (a p : Z) (l : list Z) :
  fold_right Z.max (Z.max a p) l = Z.max a (fold_right Z.max p l).
Proof. induction l as [|b l IH]; cbn; [reflexivity|rewrite IH; lia]. Qed.

Lemma countCalls_cons c d cs :
  countCalls c (d :: cs) = (if isCall c d then 1 else 0) + countCalls c cs.
Proof.
  unfold countCalls. cbn [List.filter]. destruct (isCall c d); cbn [length]; lia.
Qed.

Lemma recordAll_counters (cs : list Call) (pm : PerformanceMonitor) :
  0 <= activeConnections (metrics pm) <= peakConnections (metrics pm) ->
  let m := metrics (recordAll cs pm) in
  0 <= activeConnections m <= peakConnections m
  /\ peakConnections m
     = fold_right Z.max (peakConnections (metrics pm)) (activeTrace cs pm)
  /\ requests m = requests (metrics pm) + countCalls Request cs
  /\ errors m = errors (metrics pm) + countCalls Error cs
  /\ startTime (recordAll cs pm) = startTime pm
  /\ totalDataSent m = totalDataSent (metrics pm)
  /\ totalDataReceived m = totalDataReceived (metrics pm).
Proof.
  revert pm. induction cs as [|c cs IH]; intros pm Hinv.
  - cbn. unfold countCalls. cbn. repeat split; lia.
  - cbn [recordAll activeTrace fold_right].
    assert (Hinv' : 0 <= activeConnections (metrics (record c pm))
                    <= peakConnections (metrics (record c pm))).
    { destruct c; cbn; try lia.
      destruct (Z.ltb_spec (peakConnections (metrics pm))
                           (activeConnections (metrics pm) + 1)); lia. }
    destruct (IH _ Hinv') as (Ha & Hp & Hr & He & Hs & Hds & Hdr).
    split; [exact Ha|]. split; [|split; [|split; [|split; [|split]]]].
    + rewrite Hp.
      pose proof (max_fold_ge (peakConnections (metrics (record c pm)))
                    (activeTrace cs (record c pm))) as Hge.
      destruct c; cbn in *.
      * destruct (Z.ltb_spec (peakConnections (metrics pm))
                             (activeConnections (metrics pm) + 1)) as [Hlt|Hle].
        -- replace (activeConnections (metrics pm) + 1)
             with (Z.max (activeConnections (metrics pm) + 1)
                         (peakConnections (metrics pm))) at 1 by lia.
           rewrite max_fold_shift. lia.
        -- lia.
      * lia.
      * lia.
      * lia.
    + rewrite Hr. unfold countCalls. destruct c; cbn; lia.
    + rewrite He. unfold countCalls. destruct c; cbn; lia.
    + rewrite Hs. destruct c; reflexivity.
    + rewrite Hds. destruct c; reflexivity.
    + rewrite Hdr. destruct c; reflexivity.
Qed.

(** X24. The counters of the monitor after any sequence of calls on a new
    monitor: the active connections never go below zero nor above the
    peak, the peak is the largest number of active connections shown after
    any call, requests and errors count their calls, and the start time
    and the two data totals are never written. *)
Theorem monitor_counters (cs : list Call) (now : Z) :
  let m := metrics (recordAll cs (create now)) in
  0 <= activeConnections m <= peakConnections m
  /\ peakConnections m = fold_right Z.max 0 (activeTrace cs (create now))
  /\ peakConnections m <= countCalls Connection cs
  /\ requests m = countCalls Request cs
  /\ errors m = countCalls Error cs
  /\ startTime (recordAll cs (create now)) = now
  /\ totalDataSent m = 0 /\ totalDataReceived m = 0.
Proof.
  destruct (recordAll_counters cs (create now)) as (Ha & Hp & Hr & He & Hs & Hds & Hdr);
    [cbn; lia|].
  cbv zeta. split; [exact Ha|]. split; [exact Hp|].
  split; [|split; [exact Hr|split; [exact He|split; [exact Hs|split;
           [exact Hds|exact Hdr]]]]].
  - (* the peak is bounded by the connections made *)
    clear.
    assert (Hgen : forall pm,
               0 <= activeConnections (metrics pm) <= peakConnections (metrics pm) ->
               peakConnections (metrics (recordAll cs pm))
               <= Z.max (peakConnections (metrics pm))
                        (activeConnections (metrics pm) + countCalls Connection cs)
               /\ activeConnections (metrics (recordAll cs pm))
                  <= activeConnections (metrics pm) + countCalls Connection cs).
    { induction cs as [|c cs IH]; intros pm Hinv.
      - unfold countCalls. cbn. lia.
      - cbn [recordAll].
        assert (Hinv' : 0 <= activeConnections (metrics (record c pm))
                        <= peakConnections (metrics (record c pm))).
        { destruct c; cbn; try lia.
          destruct (Z.ltb_spec (peakConnections (metrics pm))
                               (activeConnections (metrics pm) + 1)); lia. }
        specialize (IH _ Hinv'). rewrite countCalls_cons.
        assert (Hcount : 0 <= countCalls Connection cs)
          by apply Nat2Z.is_nonneg.
        destruct c; cbn [isCall];
          unfold record, recordConnection, recordDisconnection,
            recordRequest, recordError, withMetrics in *;
          cbn [metrics activeConnections peakConnections] in *;
          try destruct (Z.ltb_spec (peakConnections (metrics pm))
                               (activeConnections (metrics pm) + 1)); lia. }
    specialize (Hgen (create now)).
    change (activeConnections (metrics (create now))) with 0 in Hgen.
    change (peakConnections (metrics (create now))) with 0 in Hgen.
    assert (Hcount : 0 <= countCalls Connection cs) by apply Nat2Z.is_nonneg.
    lia.
Qed.

(** X25. The fields of an uptime. For a number of seconds that is not
    negative the hours are below 24, the minutes and seconds below 60, and
    days, hours, minutes and seconds add up to the uptime; the parts that
    are printed -- zero days, hours and minutes are left out, the seconds
    never -- still add up to it. *)
Theorem uptime_parts_add_up (seconds : Z) :
  0 <= seconds ->
  let '(days, hours, minutes, secs) := uptimeFields seconds in
  0 <= days /\ 0 <= hours < 24 /\ 0 <= minutes < 60 /\ 0 <= secs < 60
  /\ days * 86400 + hours * 3600 + minutes * 60 + secs = seconds
  /\ partsTotal (uptimeParts seconds) = seconds
  /\ last (uptimeParts seconds) = Some (secs, "s"%string).
Proof.
  intros Hpos. unfold uptimeParts, uptimeFields.
  rewrite !Z.rem_mod_nonneg by lia.
  assert (Hd := Z.div_mod seconds 86400 ltac:(lia)).
  assert (Hdr := Z.mod_pos_bound seconds 86400 ltac:(lia)).
  assert (Hh := Z.div_mod (seconds mod 86400) 3600 ltac:(lia)).
  assert (Hhr := Z.mod_pos_bound (seconds mod 86400) 3600 ltac:(lia)).
  assert (Hm := Z.div_mod (seconds mod 3600) 60 ltac:(lia)).
  assert (Hmr := Z.mod_pos_bound (seconds mod 3600) 60 ltac:(lia)).
  assert (Hs := Z.mod_pos_bound seconds 60 ltac:(lia)).
  assert (H1 : (seconds mod 86400) mod 3600 = seconds mod 3600)
    by (apply Z.mod_mod_divide; exists 24; lia).
  assert (H2 : (seconds mod 3600) mod 60 = seconds mod 60)
    by (apply Z.mod_mod_divide; exists 60; lia).
  assert (Hdq : 0 <= seconds / 86400) by (apply Z.div_pos; lia).
  assert (Hhq : 0 <= seconds mod 86400 / 3600) by (apply Z.div_pos; lia).
  assert (Hmq : 0 <= seconds mod 3600 / 60) by (apply Z.div_pos; lia).
  split; [lia|]. split; [lia|]. split; [lia|]. split; [lia|].
  split; [lia|]. split.
  - destruct (Z.ltb_spec 0 (seconds / 86400));
      destruct (Z.ltb_spec 0 (seconds mod 86400 / 3600));
      destruct (Z.ltb_spec 0 (seconds mod 3600 / 60));
      cbn; lia.
  - destruct (0 <? seconds / 86400), (0 <? seconds mod 86400 / 3600),
      (0 <? seconds mod 3600 / 60); reflexivity.
Qed.

End MonitorProperties.

(* ===================================================================== *)
(** ** Properties of the client helpers                                   *)
(* ===================================================================== *)

Module ClientProperties.
Import Client.

Lemma trim_infix (s : jsstring) : exists pre post, s = pre ++ trim s ++ post.
Proof.
  destruct (dropSpaces_suffix s) as [pre Hs].
  destruct (dropSpaces_suffix (rev (dropSpaces s))) as [pre' Hr].
  exists pre, (rev pre'). unfold trim. rewrite <- rev_app_distr, <- Hr.
  rewrite rev_involutive. exact Hs.
Qed.

Lemma afterClose_suffix s rest :
  afterClose s = Some rest -> exists before, s = before ++ [62%N] ++ rest.
Proof.
  revert rest. induction s as [|c s IH]; intros rest; cbn; [discriminate|].
  destruct (N.eqb_spec c 62) as [->|Hne].
  - intros [= <-]. exists []. reflexivity.
  - intros Hs. destruct (IH _ Hs) as [before ->]. exists (c :: before). reflexivity.
Qed.

Lemma afterClose_None s : afterClose s = None -> 62%N ∉ s.
Proof.
  induction s as [|c s IH]; cbn; [intros _; apply not_elem_of_nil|].
  destruct (N.eqb_spec c 62) as [->|Hne]; [discriminate|].
  intros Hs. apply not_elem_of_cons. split; [congruence|auto].
Qed.

Lemma removeTagsFuel_sublist fuel s : removeTagsFuel fuel s `sublist_of` s.
Proof.
  revert s. induction fuel as [|fuel IH]; intros s; cbn; [reflexivity|].
  destruct s as [|c s]; [reflexivity|].
  destruct (c =? 60)%N.
  - destruct (afterClose s) as [rest|] eqn:Hclose.
    + destruct (afterClose_suffix _ _ Hclose) as [before ->].
      apply sublist_cons. etransitivity; [apply IH|].
      apply sublist_inserts_l. apply sublist_cons. reflexivity.
    + apply sublist_skip, IH.
  - apply sublist_skip, IH.
Qed.

(** The fuel [removeTags] gives is enough: more changes nothing. *)
Lemma removeTagsFuel_enough fuel s :
  (length s <= fuel)%nat -> removeTagsFuel fuel s = removeTagsFuel (length s) s.
Proof.
  revert s. induction fuel as [fuel IH] using lt_wf_ind. intros s Hlen.
  destruct s as [|c s]; [destruct fuel; reflexivity|].
  destruct fuel as [|fuel]; [cbn in Hlen; lia|].
  cbn [length removeTagsFuel].
  destruct (c =? 60)%N.
  - destruct (afterClose s) as [rest|] eqn:Hclose.
    + destruct (afterClose_suffix _ _ Hclose) as [before Hs].
      assert (Hr : (length rest < length s)%nat)
        by (rewrite Hs, !length_app; cbn; lia).
      cbn in Hlen.
      rewrite (IH fuel ltac:(lia) rest ltac:(lia)).
      rewrite (IH (length s) ltac:(lia) rest ltac:(lia)). reflexivity.
    + cbn in Hlen. rewrite (IH fuel ltac:(lia) s ltac:(lia)). reflexivity.
  - cbn in Hlen. rewrite (IH fuel ltac:(lia) s ltac:(lia)). reflexivity.
Qed.

Lemma hasTag_cons c s :
  hasTag (c :: s) -> (c = 60%N /\ 62%N ∈ s) \/ hasTag s.
Proof.
  intros (before & inside & after & Heq).
  destruct before as [|b before]; cbn in Heq.
  - injection Heq as -> ->. left. split; [reflexivity|].
    rewrite elem_of_app. right. apply list_elem_of_here.
  - injection Heq as -> ->. right. exists before, inside, after. reflexivity.
Qed.

Lemma removeTagsFuel_no_tag fuel s :
  (length s <= fuel)%nat -> ~ hasTag (removeTagsFuel fuel s).
Proof.
  revert s. induction fuel as [fuel IH] using lt_wf_ind. intros s Hlen.
  destruct s as [|c s].
  - destruct fuel; cbn; intros (before & inside & after & Heq);
      destruct before; discriminate.
  - destruct fuel as [|fuel]; [cbn in Hlen; lia|]. cbn in Hlen.
    cbn [removeTagsFuel].
    destruct (N.eqb_spec c 60) as [->|Hne].
    + destruct (afterClose s) as [rest|] eqn:Hclose.
      * destruct (afterClose_suffix _ _ Hclose) as [before Hs].
        apply IH; [lia|]. rewrite Hs, !length_app in Hlen. cbn in Hlen. lia.
      * intros Htag. apply hasTag_cons in Htag as [[_ Hin]|Htag].
        -- apply (afterClose_None _ Hclose).
           eapply elem_of_sublist; [exact Hin|apply removeTagsFuel_sublist].
        -- revert Htag. apply IH; lia.
    + intros Htag. apply hasTag_cons in Htag as [[Heq _]|Htag]; [contradiction|].
      revert Htag. apply IH; lia.
Qed.

Lemma removeTagsFuel_fixed fuel s :
  ~ hasTag s -> removeTagsFuel fuel s = s.
Proof.
  revert s. induction fuel as [|fuel IH]; intros s Hno; [reflexivity|].
  destruct s as [|c s]; [reflexivity|]. cbn [removeTagsFuel].
  assert (Hs : ~ hasTag s).
  { intros (before & inside & after & ->). apply Hno.
    exists (c :: before), inside, after. reflexivity. }
  destruct (N.eqb_spec c 60) as [->|Hne].
  - destruct (afterClose s) as [rest|] eqn:Hclose.
    + exfalso. apply Hno. destruct (afterClose_suffix _ _ Hclose) as [before ->].
      exists [], before, rest. reflexivity.
    + f_equal. apply IH, Hs.
  - f_equal. apply IH, Hs.
Qed.

Lemma hasTag_infix (pre t post : jsstring) :
  hasTag t -> hasTag (pre ++ t ++ post).
Proof.
  intros (before & inside & after & ->).
  exists (pre ++ before), inside, (after ++ post).
  rewrite <- !app_assoc. reflexivity.
Qed.

(** X26. What the client-side sanitizer returns: never more than
    [maxLength] characters, a subsequence of the input, and without any
    complete tag -- no [<] with a [>] after it --, so that removing tags
    again changes nothing; a text that had no tag after trimming and
    cutting is returned as cut. A value that is not a string gives the
    empty string. The sanitizer trims before it removes tags, so its
    result can begin or end with white space that a tag had shielded:
    sanitizing the result again trims it, and does nothing else. *)
Theorem sanitizeInput_bounded_and_tag_free (input : JsVal) (maxLength : nat) :
  (length (sanitizeInput input maxLength) <= maxLength)%nat
  /\ ~ hasTag (sanitizeInput input maxLength)
  /\ removeTags (sanitizeInput input maxLength) = sanitizeInput input maxLength
  /\ sanitizeInput (JStr (sanitizeInput input maxLength)) maxLength
     = trim (sanitizeInput input maxLength)
  /\ (forall s, input = JStr s ->
        sanitizeInput input maxLength `sublist_of` s
        /\ (~ hasTag (take maxLength (trim s)) ->
            sanitizeInput input maxLength = take maxLength (trim s)))
  /\ ((forall s, input <> JStr s) -> sanitizeInput input maxLength = []).
Proof.
  assert (Hnil : ~ hasTag [])
    by (intros (before & inside & after & Heq); destruct before; discriminate).
  assert (Htrim : forall s, trim s `sublist_of` s).
  { intros s. destruct (trim_infix s) as (pre & post & Heq).
    rewrite Heq at 2. apply sublist_inserts_l, sublist_inserts_r. reflexivity. }
  assert (Hagain : forall r : jsstring,
            (length r <= maxLength)%nat -> ~ hasTag r ->
            sanitizeInput (JStr r) maxLength = trim r).
  { intros r Hlen Hno. cbn [sanitizeInput].
    rewrite take_ge by (pose proof (sublist_length _ _ (Htrim r)); lia).
    apply removeTagsFuel_fixed. intros Htag. apply Hno.
    destruct (trim_infix r) as (pre & post & Heq). rewrite Heq.
    apply hasTag_infix, Htag. }
  destruct input as [|s|]; cbn [sanitizeInput].
  - split; [cbn; lia|]. split; [exact Hnil|]. split; [reflexivity|].
    split; [exact (Hagain [] ltac:(cbn; lia) Hnil)|].
    split; [discriminate|reflexivity].
  - assert (Hno : ~ hasTag (removeTags (take maxLength (trim s))))
      by (apply removeTagsFuel_no_tag; lia).
    assert (Hlen : (length (removeTags (take maxLength (trim s))) <= maxLength)%nat).
    { etransitivity; [apply sublist_length, removeTagsFuel_sublist|].
      rewrite length_take. lia. }
    split; [exact Hlen|].
    split; [exact Hno|]. split; [apply removeTagsFuel_fixed, Hno|].
    split; [exact (Hagain _ Hlen Hno)|].
    split.
    + intros s0 [= <-]. split.
      * etransitivity; [apply removeTagsFuel_sublist|].
        etransitivity; [apply sublist_take|apply Htrim].
      * intros Hfree. apply removeTagsFuel_fixed, Hfree.
    + intros Hne. exfalso. apply (Hne s). reflexivity.
  - split; [cbn; lia|]. split; [exact Hnil|]. split; [reflexivity|].
    split; [exact (Hagain [] ltac:(cbn; lia) Hnil)|].
    split; [discriminate|reflexivity].
Qed.

(** X27. The name a square is given and the lookup by name agree. For a
    row and a column of the board, [getPieceAt] on the name that
    [createSquare] builds for them reads the cell [board[row][col]] --
    the cell whose piece [renderBoard] drew on that square, flipped or
    not. *)
Theorem getPieceAt_squareName {Piece} (board : list (list (option Piece)))
    (row col : Z) :
  0 <= row < 8 -> 0 <= col < 8 ->
  getPieceAt board (squareName row col)
  = match at_ board row with
    | Some line => match at_ line col with Some cell => cell | None => None end
    | None => None
    end.
Proof.
  intros Hrow Hcol. unfold squareName.
  rewrite Z.mod_small by lia.
  assert (Hdigit : Monitor.numberToString (8 - row)
                   = [Z.to_N (48 + (8 - row))]).
  { assert (Hr : row = 0 \/ row = 1 \/ row = 2 \/ row = 3
                 \/ row = 4 \/ row = 5 \/ row = 6 \/ row = 7) by lia.
    destruct Hr as [->|[->|[->|[->|[->|[->|[->| ->]]]]]]]; reflexivity. }
  rewrite Hdigit. unfold getPieceAt. cbn [lookup list_lookup].
  unfold parseIntChar.
  assert (Hlo : (48 <=? Z.to_N (48 + (8 - row)))%N = true)
    by (apply N.leb_le; lia).
  assert (Hhi : (Z.to_N (48 + (8 - row)) <=? 57)%N = true)
    by (apply N.leb_le; lia).
  rewrite Hlo, Hhi. cbn [andb].
  replace (8 - (Z.of_N (Z.to_N (48 + (8 - row))) - 48)) with row by lia.
  replace (Z.of_N (Z.to_N (97 + col)) - 97) with col by lia.
  reflexivity.
Qed.

End ClientProperties.

(* ===================================================================== *)
(** ** Concrete runs                                                      *)
(* ===================================================================== *)

Import Scenario.
#[local] Existing Instance AsciiRuntime.
#[local] Existing Instance Stub.engine.

(** White plays e4 in TEST-1: accepted, recorded, and black is to move. *)
Lemma move_accepted_witness :
  onTurn seated alice room1 0%nat (roomOf seated room1)
  /\ exists room',
       roomAt (onMove alice e4 3000 seated).1 room1 = Some (0%nat, room')
       /\ chess room' = {| Stub.toMove := cb; Stub.status := Stub.Playing;
                           Stub.plies := 1 |}
       /\ moveHistory room'
          = moveHistory (roomOf seated room1)
            ++ [{| mr_move := js "e4"; mr_color := cw; mr_timestamp := 3000 |}].
Proof.
  assert (Hturn : onTurn seated alice room1 0%nat (roomOf seated room1)).
  { split; vm_compute; reflexivity. }
  split; [exact Hturn|].
  destruct (move_accepted_iff_seat_and_engine seated alice e4 3000)
    as (_ & Haccept & _).
  exact (Haccept room1 0%nat (roomOf seated room1) _ _ Hturn eq_refl).
Defined.

(** C2. The claim fails on the code. White's move is accepted by the
    engine and leaves the position checkmate; the room is sent the move,
    the board and the move list, and no [gameEnd]. The handler asks
    [chess.game_over && chess.game_over()], and the chess.js the
    repository depends on, 1.0.0-beta.8, has no method of that name. *)
Theorem mating_move_emits_no_gameEnd :
  onTurn seated alice room1 0%nat (roomOf seated room1)
  /\ move (chess (roomOf seated room1)) mate
     = MoveOk {| Stub.toMove := cb; Stub.status := Stub.Mate; Stub.plies := 1 |}
              {| san := js "Qh5#"; color := cw |}
  /\ Stub.status (chess (roomOf (onMove alice mate 3000 seated).1 room1))
     = Stub.Mate
  /\ (onMove alice mate 3000 seated).2
     = [(ToRoom room1, EvMove mate);
        (ToRoom room1, EvBoardState (js "b 1"));
        (ToRoom room1,
         EvMoveHistory [{| mr_move := js "Qh5#"; mr_color := cw;
                           mr_timestamp := 3000 |}])]
  /\ gameEnds (onMove alice mate 3000 seated).2 = [].
Proof.
  split; [split; vm_compute; reflexivity|].
  repeat split; vm_compute; reflexivity.
Qed.

(** The 51st message of a room: the history stays at 50 and has lost its
    first entry. *)
Lemma chat_history_witness :
  currentRoom chatFull alice = Some (room1, 0%nat, roomOf chatFull room1)
  /\ length (chatHistory (roomOf chatFull room1)) = 50%nat
  /\ exists entry room',
       roomAt (onChatMessage alice (JStr (js "late")) 600000 0 chatFull).1 room1
       = Some (0%nat, room')
       /\ (length (chatHistory room') <= 50)%nat
       /\ chatHistory room'
          = tail (chatHistory (roomOf chatFull room1)) ++ [entry].
Proof.
  assert (Hc : currentRoom chatFull alice
               = Some (room1, 0%nat, roomOf chatFull room1)).
  { vm_compute. reflexivity. }
  assert (Hlen : length (chatHistory (roomOf chatFull room1)) = 50%nat).
  { vm_compute. reflexivity. }
  split; [exact Hc|]. split; [exact Hlen|].
  set (entry := {| ce_id := (600000, 0%N); ce_message := js "late";
                   ce_playerRole := RoleWhite; ce_timestamp := 600000;
                   ce_socketId := alice |}).
  destruct (proj2 chat_history_bounded_fifo chatFull alice (JStr (js "late"))
              600000 0%N room1 0%nat (roomOf chatFull room1) entry Hc)
    as (room' & Hr & _ & Hbound & _ & Hfull & _).
  { vm_compute. reflexivity. }
  exists entry, room'. split; [exact Hr|]. split; [exact Hbound|].
  exact (Hfull Hlen).
Defined.

(** White resigns in TEST-1. *)
Lemma resign_witness :
  seatHeld (roomOf seated room1) alice = Some SWhite
  /\ onResign alice seated
     = (seated,
        [(ToRoom room1, EvGameEnd resignation (Some SBlack) (Some SWhite) None)]).
Proof.
  assert (Hseat : seatHeld (roomOf seated room1) alice = Some SWhite).
  { vm_compute. reflexivity. }
  split; [exact Hseat|].
  destruct (resign_emits_and_keeps_state (R := AsciiRuntime) seated alice)
    as (Hresign & _).
  refine (Hresign room1 0%nat (roomOf seated room1) SWhite _ Hseat).
  vm_compute. reflexivity.
Defined.

(** The claim of C7 fails: after white has resigned, white's next move is
    accepted and recorded like any other. *)
Lemma move_accepted_after_resign :
  (run resignThenMove seated).2
  = [(ToRoom room1, EvGameEnd resignation (Some SBlack) (Some SWhite) None);
     (ToRoom room1, EvMove e4);
     (ToRoom room1, EvBoardState (js "b 1"));
     (ToRoom room1,
      EvMoveHistory [{| mr_move := js "e4"; mr_color := cw;
                        mr_timestamp := 9000 |}])]
  /\ moveHistory (roomOf seated room1) = []
  /\ moveHistory (roomOf (run resignThenMove seated).1 room1)
     = [{| mr_move := js "e4"; mr_color := cw; mr_timestamp := 9000 |}].
Proof. repeat split; vm_compute; reflexivity. Qed.

(** Nobody has offered a draw in TEST-1, and black ends the game as one. *)
Lemma draw_accept_witness :
  seatHeld (roomOf seated room1) bob = Some SBlack
  /\ onRespondToDraw bob true seated
     = (seated,
        [(ToRoom room1,
          EvGameEnd draw_agreement None None
                    (Some "Draw accepted by mutual agreement"%string))]).
Proof.
  assert (Hseat : seatHeld (roomOf seated room1) bob = Some SBlack).
  { vm_compute. reflexivity. }
  split; [exact Hseat|].
  refine (proj1 (draw_accept_needs_no_offer seated bob room1 0%nat
                   (roomOf seated room1) SBlack _ Hseat)).
  vm_compute. reflexivity.
Defined.

(** A message with spaces around it is stored trimmed. *)
Lemma chat_text_witness :
  validateInput (JStr (js "  hello  ")) 200 = Some (js "hello")
  /\ (onChatMessage alice (JStr (js "  hello  ")) 5000 7 seated).2
     = [(ToRoom room1,
         EvChatMessage {| ce_id := (5000, 7%N); ce_message := js "hello";
                          ce_playerRole := RoleWhite; ce_timestamp := 5000;
                          ce_socketId := alice |})].
Proof.
  assert (Hv : validateInput (JStr (js "  hello  ")) 200 = Some (js "hello")).
  { vm_compute. reflexivity. }
  split; [exact Hv|].
  assert (Hstore :
    onChatMessage alice (JStr (js "  hello  ")) 5000 7 seated
    = (storeRoom
         (setRateLimits seated
            (checkRateLimit alice (js "chat") 5 30000 5000 (rateLimits seated)).2)
         0%nat
         (setChatHistory (roomOf seated room1)
            (pushChat (chatHistory (roomOf seated room1))
               {| ce_id := (5000, 7%N); ce_message := js "hello";
                  ce_playerRole := roleOfSeat SWhite; ce_timestamp := 5000;
                  ce_socketId := alice |})),
       [(ToRoom room1,
         EvChatMessage {| ce_id := (5000, 7%N); ce_message := js "hello";
                          ce_playerRole := roleOfSeat SWhite;
                          ce_timestamp := 5000; ce_socketId := alice |})])).
  { refine (proj1 (proj2 (proj2 (chat_text_validated_not_rewritten seated alice
              (JStr (js "  hello  ")) 5000 7 room1 0%nat (roomOf seated room1)
              SWhite _ _ _ _))) (js "hello") Hv); vm_compute; reflexivity. }
  rewrite Hstore. reflexivity.
Defined.

(** The claim of C9 fails: a message of 201 letters, and one with markup
    around two letters, are refused although capping the first and
    stripping the second leaves text; nothing is stored. *)
Lemma long_or_marked_up_text_refused :
  length (sanitizeSpec longText) = 200%nat
  /\ onChatMessage alice (JStr longText) 5000 7 seated
     = (setRateLimits seated
          (checkRateLimit alice (js "chat") 5 30000 5000 (rateLimits seated)).2,
        [(ToSocket alice, EvChatError "Invalid message content")])
  /\ sanitizeSpec markedUp = js "hi"
  /\ onChatMessage alice (JStr markedUp) 5000 7 seated
     = (setRateLimits seated
          (checkRateLimit alice (js "chat") 5 30000 5000 (rateLimits seated)).2,
        [(ToSocket alice, EvChatError "Invalid message content")]).
Proof. repeat split; vm_compute; reflexivity. Qed.

(** Alice is white in TEST-1 and has sent five messages by 4 ms: her sixth,
    at 5 ms, is refused, and five earlier ones lie in the last 30 s. Her
    next message after the window, at 30 001 ms, opens a new window that
    closes at 60 001 ms. *)
Lemma chat_rate_limit_witness :
  currentRoom chatSpent alice = Some (room1, 0%nat, roomOf chatSpent room1)
  /\ rateLimits chatSpent !! rateKey alice (js "chat")
     = Some {| count := 5; resetTime := 30000 |}
  /\ onChatMessage alice (JStr (js "hi")) 5 0 chatSpent
     = (chatSpent,
        [(ToSocket alice, EvChatError "You are sending messages too quickly")])
  /\ rateLimits (onChatMessage alice (JStr (js "hi")) 30001 0 chatSpent).1
       !! rateKey alice (js "chat")
     = Some {| count := 1; resetTime := 30001 + 30000 |}
  /\ (5 <= slidingCount 5%Z (letThrough firstFive
                               (chatVerdicts alice firstFive ∅)))%nat.
Proof.
  assert (Hc : currentRoom chatSpent alice
               = Some (room1, 0%nat, roomOf chatSpent room1)).
  { vm_compute. reflexivity. }
  assert (Hl : rateLimits chatSpent !! rateKey alice (js "chat")
               = Some {| count := 5; resetTime := 30000 |}).
  { vm_compute. reflexivity. }
  split; [exact Hc|]. split; [exact Hl|].
  destruct chat_rate_limit_fixed_window as [Hhandler [Hwindow Hsound]].
  split; [|split].
  - apply (proj1 (Hhandler chatSpent alice (JStr (js "hi")) 5 0%N room1 0%nat
                    (roomOf chatSpent room1) Hc)).
    exists {| count := 5; resetTime := 30000 |}.
    split; [exact Hl|]. cbn. lia.
  - apply (proj1 (Hwindow chatSpent alice (JStr (js "hi")) 30001 0%N room1 0%nat
                    (roomOf chatSpent room1) Hc)).
    right. exists {| count := 5; resetTime := 30000 |}.
    split; [exact Hl|]. cbn. lia.
  - apply (Hsound alice firstFive 5 0).
    + cbn. lia.
    + vm_compute. reflexivity.
Defined.

(** The claim of C8 fails: of seven submissions the last is the sixth
    within 30 s (five earlier ones lie in the 30 s that end with it), and
    all seven are let through and broadcast. *)
Lemma sixth_message_in_thirty_seconds_accepted :
  nondecreasing 0 burst
  /\ chatVerdicts alice burst ∅ = [true; true; true; true; true; true; true]
  /\ slidingCount 30002 [0; 29000; 29001; 29002; 29003; 30001] = 5%nat
  /\ map fst (run (map (fun t => say alice "hi" t) burst) seated).2
     = repeat (ToRoom room1) 7.
Proof.
  split; [cbn; lia|]. repeat split; vm_compute; reflexivity.
Qed.

(** The state with both seats of TEST-1 taken is reached by first joins. *)
Lemma seated_joinOnce : reachableJoinOnce seated.
Proof.
  change seated with
    (handle (joinAs bob room1 "black" 2000 "token-b")
       (handle (joinAs alice room1 "white" 1000 "token-a") initState).1).1.
  apply joinOnce_step; [apply joinOnce_step; [apply joinOnce_init|]|];
    vm_compute; reflexivity.
Defined.

Lemma run_reachable inputs : forall st, reachable st -> reachable (run inputs st).1.
Proof.
  induction inputs as [|i rest IH]; intros st Hst; [exact Hst|].
  cbn [run]. specialize (IH _ (reachable_step i st Hst)).
  destruct (handle i st) as [st1 out1]. cbn [fst] in IH.
  destruct (run rest st1) as [st2 out2]. exact IH.
Qed.

(** Both seats of TEST-1 are reached by first joins and hold different
    connections; a third connection that asks for white leaves the seat
    with alice. *)
Lemma one_slot_witness :
  reachableJoinOnce seated
  /\ NoDup (slots (roomOf seated room1))
  /\ slots (roomOf seated room1) = [alice; bob]
  /\ exists room',
       roomAt (handle Cases.lateJoin seated).1 room1 = Some (0%nat, room')
       /\ seatOf (players room') SWhite = Some alice.
Proof.
  split; [exact seated_joinOnce|].
  destruct one_slot_per_connection_when_joining_once as [Hkept Honce].
  split; [|split; [vm_compute; reflexivity|]].
  - destruct (Honce seated seated_joinOnce) as [Hnodup _].
    apply (Hnodup room1 0%nat). vm_compute. reflexivity.
  - apply (Hkept seated Cases.lateJoin room1 0%nat (roomOf seated room1)
                 SWhite alice).
    + apply (run_reachable _ initState), reachable_init.
    + reflexivity.
    + vm_compute. reflexivity.
    + vm_compute. reflexivity.
    + discriminate.
Defined.

(** The tokens that name inherited members have to be excluded: with a
    room named [undefined], bob reconnects three times with the token
    [constructor], each time with [socket.roomId] unset. The first takes
    [players[undefined]], the second and third put bob among the
    spectators, twice. *)
Lemma inherited_token_reconnect_repeats :
  roomId (connOf Cases.haunted bob) = None
  /\ roomId (connOf (run [InReconnect bob (js "constructor")] Cases.haunted).1 bob)
     = None
  /\ roomId (connOf (run [InReconnect bob (js "constructor");
                          InReconnect bob (js "constructor")] Cases.haunted).1 bob)
     = None
  /\ undefinedKey (players (roomOf (run [InReconnect bob (js "constructor")]
                                        Cases.haunted).1 Cases.undefinedRoom))
     = Some bob
  /\ slots (roomOf (run [InReconnect bob (js "constructor");
                         InReconnect bob (js "constructor");
                         InReconnect bob (js "constructor")]
                        Cases.haunted).1 Cases.undefinedRoom)
     = [alice; bob; bob].
Proof. repeat split; vm_compute; reflexivity. Qed.

(** The claim of C4 fails: a connection that sends [joinRoom] a second
    time holds the white seat of two rooms; sent for the seat it already
    has, it holds that seat and a spectator slot of the same room. *)
Lemma second_join_holds_two_slots :
  reachable (run joinTwoRooms initState).1
  /\ room1 <> room2
  /\ white (players (roomOf (run joinTwoRooms initState).1 room1)) = Some alice
  /\ white (players (roomOf (run joinTwoRooms initState).1 room2)) = Some alice
  /\ reachable (run joinSameRoomTwice initState).1
  /\ white (players (roomOf (run joinSameRoomTwice initState).1 room1)) = Some alice
  /\ spectators (roomOf (run joinSameRoomTwice initState).1 room1) = [alice]
  /\ slots (roomOf (run joinSameRoomTwice initState).1 room1) = [alice; alice].
Proof.
  split; [apply run_reachable, reachable_init|].
  split; [discriminate|].
  split; [vm_compute; reflexivity|].
  split; [vm_compute; reflexivity|].
  split; [apply run_reachable, reachable_init|].
  repeat split; vm_compute; reflexivity.
Qed.

(** C3 on the code: white disconnects at 10 s and reconnects with its
    token 10 s later. The seat is still held by the old socket id, so the
    reconnecting connection is made a spectator and told its role is
    taken; when the timer runs at 40 s the seat is vacated and the room is
    sent an occupancy update with white waiting. *)
Theorem reconnect_within_grace_loses_seat :
  white (players (roomOf seated room1)) = Some alice
  /\ (run dropAndReturn seated).2
     = [(ToSocket alice2, EvRoleAssigned RoleSpectator);
        (ToSocket alice2, EvBoardState (js "w "));
        (ToSocket alice2, EvMoveHistory []);
        (ToSocket alice2, EvChatHistory []);
        (ToSocket alice2, EvRoleUnavailable SWhite (retakenMessage SWhite));
        (ToRoom room1, EvPlayersUpdate connected connected 1);
        (ToRoom room1, EvPlayersUpdate waiting connected 1)]
  /\ white (players (roomOf (run dropAndReturn seated).1 room1)) = None
  /\ spectators (roomOf (run dropAndReturn seated).1 room1) = [alice2].
Proof. repeat split; vm_compute; reflexivity. Qed.

(** C5 on the code: white moves at 5 399 000 ms, the move is accepted, and
    the sweep one second later removes the room, whose [lastActivity] is
    still the time of the last join. *)
Theorem room_in_play_swept_as_idle :
  lastActivity (roomOf seated room1) = 2000
  /\ moveHistory (roomOf (onMove alice e4 5399000 seated).1 room1)
     = [{| mr_move := js "e4"; mr_color := cw; mr_timestamp := 5399000 |}]
  /\ lastActivity (roomOf (onMove alice e4 5399000 seated).1 room1) = 2000
  /\ roomAt (onMove alice e4 5399000 seated).1 room1 <> None
  /\ roomAt (run lateMoveThenSweep seated).1 room1 = None.
Proof.
  split; [vm_compute; reflexivity|].
  split; [vm_compute; reflexivity|].
  split; [vm_compute; reflexivity|].
  split; [vm_compute; discriminate|].
  vm_compute; reflexivity.
Qed.

(* ===================================================================== *)
(** ** Further concrete runs                                              *)
(* ===================================================================== *)

Import Cases.

Lemma seated_reachable : reachable seated.
Proof. apply (run_reachable _ initState), reachable_init. Qed.

Lemma chatSpent_reachable : reachable chatSpent.
Proof. apply (run_reachable _ seated), seated_reachable. Qed.

(** The padded text is accepted as [hi there], which is in normal form. *)
Lemma validateInput_result_witness :
  validateInput (JStr padded) 200 = Some (js "hi there")
  /\ validateInput (JStr (js "hi there")) 200 = Some (js "hi there")
  /\ trim (js "hi there") = js "hi there"
  /\ noLeadingSpace (js "hi there") /\ noLeadingSpace (rev (js "hi there"))
  /\ js "hi there" <> [].
Proof.
  split; [vm_compute; reflexivity|].
  apply (validateInput_result_is_normal (JStr padded) 200).
  vm_compute; reflexivity.
Defined.

(** The first of the five messages stored in TEST-1 is valid. *)
Lemma stored_chat_entries_witness :
  reachable chatSpent
  /\ roomAt chatSpent room1 = Some (0%nat, roomOf chatSpent room1)
  /\ exists e,
       chatHistory (roomOf chatSpent room1) !! 0%nat = Some e
       /\ validateInput (JStr (ce_message e)) 200 = Some (ce_message e)
       /\ (1 <= length (ce_message e) <= 200)%nat
       /\ allowedChars (ce_message e) = true
       /\ ce_playerRole e <> RoleSpectator.
Proof.
  split; [exact chatSpent_reachable|]. split; [vm_compute; reflexivity|].
  eexists. split; [vm_compute; reflexivity|].
  apply (stored_chat_entries_valid chatSpent chatSpent_reachable room1 0%nat
           (roomOf chatSpent room1)).
  - vm_compute; reflexivity.
  - apply list_elem_of_lookup. exists 0%nat. vm_compute; reflexivity.
Defined.

(** A third connection asking for white leaves the seat with alice. *)
Lemma seat_kept_witness :
  reachable seated
  /\ roomAt seated room1 = Some (0%nat, roomOf seated room1)
  /\ seatOf (players (roomOf seated room1)) SWhite = Some alice
  /\ alice <> []
  /\ isSweepRooms lateJoin = false /\ ~ isTimerOf alice lateJoin
  /\ exists room',
       roomAt (handle lateJoin seated).1 room1 = Some (0%nat, room')
       /\ seatOf (players room') SWhite = Some alice.
Proof.
  assert (Hroom : roomAt seated room1 = Some (0%nat, roomOf seated room1))
    by (vm_compute; reflexivity).
  assert (Hseat : seatOf (players (roomOf seated room1)) SWhite = Some alice)
    by (vm_compute; reflexivity).
  assert (Hne : alice <> []) by discriminate.
  assert (Hsweep : isSweepRooms lateJoin = false) by reflexivity.
  assert (Htimer : ~ isTimerOf alice lateJoin)
    by (intros [now Heq]; discriminate Heq).
  repeat (split; [assumption || exact seated_reachable|]).
  exact (seat_kept_until_own_timer seated lateJoin room1 0%nat
           (roomOf seated room1) SWhite alice seated_reachable Hroom Hseat
           Hne Hsweep Htimer).
Defined.

(** White's move leaves both time stamps of TEST-1 as they were. *)
Lemma lastActivity_witness :
  reachable seated
  /\ roomAt seated room1 = Some (0%nat, roomOf seated room1)
  /\ isSweepRooms whiteMoves = false
  /\ exists room',
       roomAt (handle whiteMoves seated).1 room1 = Some (0%nat, room')
       /\ createdAt room' = createdAt (roomOf seated room1)
       /\ (isJoinRoom whiteMoves = false ->
           lastActivity room' = lastActivity (roomOf seated room1)).
Proof.
  assert (Hroom : roomAt seated room1 = Some (0%nat, roomOf seated room1))
    by (vm_compute; reflexivity).
  assert (Hsweep : isSweepRooms whiteMoves = false) by reflexivity.
  repeat (split; [assumption || exact seated_reachable|]).
  exact (lastActivity_written_only_by_join seated whiteMoves room1 0%nat
           (roomOf seated room1) seated_reachable Hroom Hsweep).
Defined.

(** White's move extends the move list of TEST-1. *)
Lemma moveHistory_witness :
  reachable seated
  /\ roomAt seated room1 = Some (0%nat, roomOf seated room1)
  /\ isSweepRooms whiteMoves = false /\ isResetGame whiteMoves = false
  /\ exists room' more,
       roomAt (handle whiteMoves seated).1 room1 = Some (0%nat, room')
       /\ moveHistory room' = moveHistory (roomOf seated room1) ++ more.
Proof.
  assert (Hroom : roomAt seated room1 = Some (0%nat, roomOf seated room1))
    by (vm_compute; reflexivity).
  assert (Hsweep : isSweepRooms whiteMoves = false) by reflexivity.
  assert (Hreset : isResetGame whiteMoves = false) by reflexivity.
  repeat (split; [assumption || exact seated_reachable|]).
  exact (moveHistory_append_only seated whiteMoves room1 0%nat
           (roomOf seated room1) seated_reachable Hroom Hsweep Hreset).
Defined.

Lemma twoRooms_reachable : reachable twoRooms.
Proof. apply (run_reachable _ seated), seated_reachable. Qed.

(** TEST-1 and TEST-2 both exist. White's move changes TEST-1 and leaves
    TEST-2 as it was; a join of TEST-2 changes TEST-2 and leaves TEST-1 as
    it was. *)
Lemma rooms_isolated_witness :
  reachable twoRooms
  /\ sender whiteMoves = Some alice
  /\ roomId (connOf twoRooms alice) <> Some room2
  /\ room1 <> room2
  /\ roomAt twoRooms room2 = Some (1%nat, roomOf twoRooms room2)
  /\ length (moveHistory (roomOf (handle whiteMoves twoRooms).1 room1)) = 1%nat
  /\ length (moveHistory (roomOf twoRooms room1)) = 0%nat
  /\ roomAt (handle whiteMoves twoRooms).1 room2 = roomAt twoRooms room2
  /\ black (players (roomOf (handle blackJoinsSecond twoRooms).1 room2))
     = Some alice2
  /\ black (players (roomOf twoRooms room2)) = None
  /\ roomAt (onJoinRoom alice2 (JStr room2) (JStr (js "black")) 4000
                (js "token-d") twoRooms).1 room1
     = roomAt twoRooms room1.
Proof.
  assert (Hsender : sender whiteMoves = Some alice) by reflexivity.
  assert (Hother : roomId (connOf twoRooms alice) <> Some room2)
    by (vm_compute; discriminate).
  assert (Hne : room1 <> room2) by (vm_compute; discriminate).
  split; [exact twoRooms_reachable|].
  split; [exact Hsender|]. split; [exact Hother|]. split; [exact Hne|].
  split; [vm_compute; reflexivity|]. split; [vm_compute; reflexivity|].
  split; [vm_compute; reflexivity|].
  destruct (rooms_isolated twoRooms twoRooms_reachable) as [Hsend Hjoin].
  split; [exact (Hsend whiteMoves alice room2 Hsender Hother)|].
  split; [vm_compute; reflexivity|]. split; [vm_compute; reflexivity|].
  exact (Hjoin alice2 room2 (JStr (js "black")) 4000 (js "token-d") room1 Hne).
Defined.

(** The one key of the registry of the seated state is a valid id. *)
Lemma held_room_ids_witness :
  reachable seated
  /\ gameRooms seated !! room1 = Some 0%nat
  /\ room1 <> [] /\ roomPattern (toUpperCase room1) = true.
Proof.
  assert (Hkey : gameRooms seated !! room1 = Some 0%nat)
    by (vm_compute; reflexivity).
  repeat (split; [assumption || exact seated_reachable|]).
  exact (proj1 (held_room_ids_valid seated seated_reachable) room1 0%nat Hkey).
Defined.

(** TEST-2, joined at 4 000 000 ms, survives the sweep of 5 000 000 ms. *)
Lemma idle_sweep_witness :
  validateRoomId (JStr room2) = true
  /\ validRoles (JStr (js "white")) = true
  /\ inheritedKey room2 = false
  /\ 5000000 <= 4000000 + inactivityThreshold
  /\ exists ref room,
       roomAt (sweepRooms 5000000
                 (onJoinRoom alice2 (JStr room2) (JStr (js "white")) 4000000
                    (js "token-c") seated).1) room2
       = Some (ref, room).
Proof.
  assert (Hid : validateRoomId (JStr room2) = true) by (vm_compute; reflexivity).
  assert (Hrole : validRoles (JStr (js "white")) = true)
    by (vm_compute; reflexivity).
  assert (Hown : inheritedKey room2 = false) by (vm_compute; reflexivity).
  assert (Htime : 5000000 <= 4000000 + inactivityThreshold)
    by (vm_compute; discriminate).
  repeat (split; [assumption|]).
  exact (proj2 (proj2 (proj2 (proj2
           (idle_sweep_removes_exactly_idle_rooms seated 5000000))))
           alice2 room2 (JStr (js "white")) 4000000 (js "token-c")
           Hid Hrole Hown Htime).
Defined.

(** A token that survives both sweeps at 3 000 000 ms names a room that was
    active within the hour. *)
Lemma session_sweep_witness :
  reachable seated
  /\ playerSessions (sweepSessions (sweepRooms 3000000 seated)) !! js "token-a"
     = Some whiteSession
  /\ exists ref room,
       roomAt seated (s_roomId whiteSession) = Some (ref, room)
       /\ 3000000 - lastActivity room <= inactivityThreshold.
Proof.
  assert (Hkept : playerSessions (sweepSessions (sweepRooms 3000000 seated))
                    !! js "token-a" = Some whiteSession)
    by (vm_compute; reflexivity).
  repeat (split; [assumption || exact seated_reachable|]).
  exact (proj2 (proj2 (proj2 (proj2
           (session_sweep_keeps_sessions_of_live_rooms seated))))
           seated_reachable 3000000 (js "token-a") whiteSession Hkept).
Defined.

(** After five messages at 0..4 ms the sweep of 400 000 ms removes
    alice's entry, and her next two messages get the same verdicts. *)
Lemma rate_limit_sweep_witness :
  Forall (fun t => 400000 <= t) [400001; 400002]
  /\ verdicts alice (js "chat") 5 30000 [400001; 400002]
       (rateLimits (sweepRateLimits 400000 chatSpent))
     = verdicts alice (js "chat") 5 30000 [400001; 400002]
         (rateLimits chatSpent).
Proof.
  assert (Hlater : Forall (fun t => 400000 <= t) [400001; 400002])
    by (repeat constructor; vm_compute; discriminate).
  split; [exact Hlater|].
  exact (proj2 (rate_limit_sweep_keeps_verdicts chatSpent 400000 alice
                  (js "chat") 5 30000 [400001; 400002]) Hlater).
Defined.

(** Seven submissions within the first window: five pass, two do not;
    with a limit of zero the first still passes. *)
Lemma first_window_witness :
  (∅ : gmap jsstring Limit) !! rateKey alice (js "chat") = None
  /\ Forall (fun u => u <= 0 + 30000) [1; 2; 3; 4; 5; 6]
  /\ verdicts alice (js "chat") 5 30000 (0 :: [1; 2; 3; 4; 5; 6]) ∅
     = [true; true; true; true; true; false; false]
  /\ verdicts alice (js "chat") 0 30000 (0 :: [1; 2; 3; 4; 5; 6]) ∅
     = [true; false; false; false; false; false; false].
Proof.
  assert (Hnone : (∅ : gmap jsstring Limit) !! rateKey alice (js "chat") = None)
    by apply lookup_empty.
  assert (Hin : Forall (fun u => u <= 0 + 30000) [1; 2; 3; 4; 5; 6])
    by (repeat constructor; vm_compute; discriminate).
  repeat (split; [assumption|]).
  split.
  - exact (first_window_lets_through_exactly_max alice (js "chat") 5 30000 0
             [1; 2; 3; 4; 5; 6] ∅ Hnone Hin).
  - exact (first_window_lets_through_exactly_max alice (js "chat") 0 30000 0
             [1; 2; 3; 4; 5; 6] ∅ Hnone Hin).
Defined.

(** alice's message does not count against bob. *)
Lemma rate_limit_per_connection_witness :
  alice <> bob
  /\ (checkRateLimit alice (js "chat") 5 30000 0 ∅).2 !! rateKey bob (js "chat")
     = (∅ : gmap jsstring Limit) !! rateKey bob (js "chat")
  /\ verdicts bob (js "chat") 5 30000 [1; 2]
       (checkRateLimit alice (js "chat") 5 30000 0 ∅).2
     = verdicts bob (js "chat") 5 30000 [1; 2] ∅.
Proof.
  assert (Hne : alice <> bob) by (vm_compute; discriminate).
  split; [exact Hne|].
  exact (rate_limit_per_connection alice bob (js "chat") 5 30000 0 5 30000
           [1; 2] ∅ Hne).
Defined.

(** A token the server never issued is silent, and so is white's token
    once its room has been swept. The token [constructor] is silent while
    there is no room named [undefined], and not when there is one: bob is
    then sent a role that is [undefined]. *)
Lemma reconnect_silent_witness :
  member (playerSessions seated) (js "no-such-token") = Absent
  /\ onReconnect alice2 (js "no-such-token") seated = (seated, [])
  /\ member (playerSessions swept) (js "token-a") = Own whiteSession
  /\ roomAt swept (s_roomId whiteSession) = None
  /\ onReconnect alice2 (js "token-a") swept = (swept, [])
  /\ member (playerSessions seated) (js "constructor") = Inherited
  /\ onReconnect bob (js "constructor") seated = (seated, [])
  /\ member (playerSessions haunted) (js "constructor") = Inherited
  /\ roomAt haunted undefinedRoom <> None
  /\ onReconnect bob (js "constructor") haunted <> (haunted, [])
  /\ (onReconnect bob (js "constructor") haunted).2
     = [(ToSocket bob, EvRoleAssignedUndefined);
        (ToSocket bob, EvBoardState (js "w "));
        (ToSocket bob, EvMoveHistory []);
        (ToSocket bob, EvChatHistory []);
        (ToUndefined, EvPlayersUpdate connected waiting 0)].
Proof.
  assert (Habsent : member (playerSessions seated) (js "no-such-token") = Absent)
    by (vm_compute; reflexivity).
  assert (Hown : member (playerSessions swept) (js "token-a") = Own whiteSession)
    by (vm_compute; reflexivity).
  assert (Hgone : roomAt swept (s_roomId whiteSession) = None)
    by (vm_compute; reflexivity).
  assert (Hinh : member (playerSessions seated) (js "constructor") = Inherited)
    by (vm_compute; reflexivity).
  assert (Hnoroom : roomAt seated (js "undefined") = None)
    by (vm_compute; reflexivity).
  assert (Hinh' : member (playerSessions haunted) (js "constructor") = Inherited)
    by (vm_compute; reflexivity).
  assert (Hroom : roomAt haunted undefinedRoom <> None)
    by (vm_compute; discriminate).
  split; [exact Habsent|].
  split; [apply (proj2 (reconnect_silent_iff seated alice2 (js "no-such-token")));
          right; left; exact Habsent|].
  split; [exact Hown|]. split; [exact Hgone|].
  split; [apply (proj2 (reconnect_silent_iff swept alice2 (js "token-a")));
          right; right; left; exists whiteSession; split; assumption|].
  split; [exact Hinh|].
  split; [apply (proj2 (reconnect_silent_iff seated bob (js "constructor")));
          right; right; right; split; assumption|].
  split; [exact Hinh'|]. split; [exact Hroom|].
  split; [|vm_compute; reflexivity].
  intros Hsilent.
  apply (proj1 (reconnect_silent_iff haunted bob (js "constructor"))) in Hsilent.
  destruct Hsilent as [Hnil|[Habs|[(session & Hs & _)|[_ Hnone]]]].
  - vm_compute in Hnil. discriminate Hnil.
  - rewrite Hinh' in Habs. discriminate Habs.
  - rewrite Hinh' in Hs. discriminate Hs.
  - apply Hroom. exact Hnone.
Defined.

(** White drops at 10 s, the timer runs at 40 s, and a new connection with
    white's token is white again. *)
Lemma reconnect_after_grace_witness :
  currentRoom seated alice = Some (room1, 0%nat, roomOf seated room1)
  /\ seatHeld (roomOf seated room1) alice = Some (s_role whiteSession)
  /\ js "token-a" <> []
  /\ playerSessions seated !! js "token-a" = Some whiteSession
  /\ s_roomId whiteSession = room1
  /\ 10000 + gracePeriod <= 40000
  /\ exists room',
       roomAt (run [InDisconnect alice 10000; InTimer alice 40000;
                    InReconnect alice2 (js "token-a")] seated).1 room1
       = Some (0%nat, room')
       /\ seatOf (players room') SWhite = Some alice2
       /\ seatOf (players room') SBlack = Some bob.
Proof.
  assert (Hc : currentRoom seated alice = Some (room1, 0%nat, roomOf seated room1))
    by (vm_compute; reflexivity).
  assert (Hseat : seatHeld (roomOf seated room1) alice = Some (s_role whiteSession))
    by (vm_compute; reflexivity).
  assert (Htoken : js "token-a" <> []) by (vm_compute; discriminate).
  assert (Hs : playerSessions seated !! js "token-a" = Some whiteSession)
    by (vm_compute; reflexivity).
  assert (Hrid : s_roomId whiteSession = room1) by reflexivity.
  assert (Hdue : 10000 + gracePeriod <= 40000) by (vm_compute; discriminate).
  repeat (split; [assumption|]).
  destruct (reconnect_after_grace_restores_seat seated alice alice2
              (js "token-a") whiteSession room1 0%nat (roomOf seated room1)
              10000 40000 Hc Hseat Htoken Hs Hrid Hdue)
    as (room' & Hroom & Hw & Hb & _).
  exists room'. split; [exact Hroom|]. split; [exact Hw|]. exact Hb.
Defined.

(** White's timer does nothing at 39 999 ms and runs at 40 000 ms. *)
Lemma grace_timer_witness :
  disconnectTimer (connOf whiteGone alice) = Some whiteTimer
  /\ heap whiteGone !! t_room whiteTimer = Some (roomOf whiteGone room1)
  /\ onTimer alice 39999 whiteGone = (whiteGone, [])
  /\ disconnectTimer (connOf (onTimer alice 40000 whiteGone).1 alice) = None.
Proof.
  assert (Ht : disconnectTimer (connOf whiteGone alice) = Some whiteTimer)
    by (vm_compute; reflexivity).
  assert (Hh : heap whiteGone !! t_room whiteTimer = Some (roomOf whiteGone room1))
    by (vm_compute; reflexivity).
  repeat (split; [assumption|]).
  destruct (grace_timer_runs_once whiteGone alice 39999 whiteTimer
              (roomOf whiteGone room1) Ht Hh) as [Hearly _].
  destruct (grace_timer_runs_once whiteGone alice 40000 whiteTimer
              (roomOf whiteGone room1) Ht Hh) as [_ Hdue].
  split; [apply Hearly; vm_compute; reflexivity|].
  apply Hdue. vm_compute; discriminate.
Defined.

(** carol, who watches TEST-1, leaves: nothing is sent until her timer. *)
Lemma spectator_leaves_witness :
  currentRoom watched carol = Some (room1, 0%nat, roomOf watched room1)
  /\ seatHeld (roomOf watched room1) carol = None
  /\ 10000 + gracePeriod <= 40000
  /\ (handleDisconnection carol 10000 watched).2 = []
  /\ (run [InDisconnect carol 10000; InTimer carol 40000] watched).2
     = [(ToRoom room1, EvPlayersUpdate connected connected 0)].
Proof.
  assert (Hc : currentRoom watched carol
               = Some (room1, 0%nat, roomOf watched room1))
    by (vm_compute; reflexivity).
  assert (Hseat : seatHeld (roomOf watched room1) carol = None)
    by (vm_compute; reflexivity).
  assert (Hdue : 10000 + gracePeriod <= 40000) by (vm_compute; discriminate).
  repeat (split; [assumption|]).
  destruct (spectator_leaves_silently_then_update watched carol room1 0%nat
              (roomOf watched room1) 10000 40000 Hc Hseat Hdue)
    as (Hquiet & _ & Hout).
  split; [exact Hquiet|exact Hout].
Defined.

(** The first join of TEST-1 for white gets the seat and the token. A
    join of the room [constructor] comes to nothing. *)
Lemma join_grants_seat_witness :
  validateRoomId (JStr room1) = true
  /\ getOrCreateRoom room1 1000 initState = (created, Some (0%nat, newRoom 1000))
  /\ (exists room',
        roomAt (onJoinRoom alice (JStr room1) (JStr (seatName SWhite)) 1000
                  (js "token-a") initState).1 room1
        = Some (0%nat, room')
        /\ seatOf (players room') SWhite = Some alice)
  /\ validateRoomId (JStr (js "constructor")) = true
  /\ getOrCreateRoom (js "constructor") 3000 seated = (seated, None)
  /\ (onJoinRoom carol (JStr (js "constructor")) (JStr (seatName SWhite)) 3000
                 (js "token-x") seated).2 = []
  /\ gameRooms (onJoinRoom carol (JStr (js "constructor")) (JStr (seatName SWhite))
                           3000 (js "token-x") seated).1
     = gameRooms seated.
Proof.
  assert (Hid : validateRoomId (JStr room1) = true) by (vm_compute; reflexivity).
  assert (Hget : getOrCreateRoom room1 1000 initState
                 = (created, Some (0%nat, newRoom 1000)))
    by (vm_compute; reflexivity).
  assert (Hid' : validateRoomId (JStr (js "constructor")) = true)
    by (vm_compute; reflexivity).
  assert (Hget' : getOrCreateRoom (js "constructor") 3000 seated = (seated, None))
    by (vm_compute; reflexivity).
  split; [exact Hid|]. split; [exact Hget|]. split.
  - destruct (proj1 (proj2 (join_grants_seat_iff_free initState alice room1
                              (js "token-a") SWhite 1000 Hid))
                _ _ _ Hget)
      as (room' & Hroom & _ & _ & _ & Hfree & _).
    exists room'. split; [exact Hroom|].
    apply Hfree. vm_compute; reflexivity.
  - split; [exact Hid'|]. split; [exact Hget'|].
    destruct (proj2 (proj2 (join_grants_seat_iff_free seated carol
                              (js "constructor") (js "token-x") SWhite 3000 Hid'))
                _ Hget')
      as (_ & Hout & _ & Hreg & _).
    split; [exact Hout|exact Hreg].
Defined.

(** A first join of TEST-1 as spectator issues no token. *)
Lemma spectator_join_witness :
  validateRoomId (JStr room1) = true
  /\ getOrCreateRoom room1 1000 initState = (created, Some (0%nat, newRoom 1000))
  /\ playerSessions
       (onJoinRoom carol (JStr room1) (JStr (js "spectator")) 1000
          (js "token-s") initState).1
     = playerSessions initState
  /\ (onJoinRoom carol (JStr room1) (JStr (js "spectator")) 1000
                 (js "token-s") initState).2
     = [(ToSocket carol, EvRoleAssigned RoleSpectator);
        (ToSocket carol, EvBoardState (js "w "));
        (ToSocket carol, EvMoveHistory []);
        (ToSocket carol, EvChatHistory []);
        (ToRoom room1, EvPlayersUpdate waiting waiting 1)].
Proof.
  assert (Hid : validateRoomId (JStr room1) = true) by (vm_compute; reflexivity).
  assert (Hget : getOrCreateRoom room1 1000 initState
                 = (created, Some (0%nat, newRoom 1000)))
    by (vm_compute; reflexivity).
  repeat (split; [assumption|]).
  destruct (spectator_join_takes_no_seat initState created carol room1
              (js "token-s") 1000 0%nat (newRoom 1000) Hid Hget)
    as (_ & Hsessions & Hout).
  split; [exact Hsessions|exact Hout].
Defined.

(** White offers a draw while black's grace period runs, and again after
    black's timer. *)
Lemma draw_offer_witness :
  currentRoom seated alice = Some (room1, 0%nat, roomOf seated room1)
  /\ currentRoom seated bob = Some (room1, 0%nat, roomOf seated room1)
  /\ seatHeld (roomOf seated room1) alice = Some SWhite
  /\ seatHeld (roomOf seated room1) bob = Some (opponent SWhite)
  /\ bob <> []
  /\ 10000 + gracePeriod <= 40000
  /\ (run [InDisconnect bob 10000; InOfferDraw alice] seated).2
     = [(ToRoom bob, EvDrawOfferReceived SWhite); (ToSocket alice, EvDrawOfferSent)].
Proof.
  assert (Hc : currentRoom seated alice = Some (room1, 0%nat, roomOf seated room1))
    by (vm_compute; reflexivity).
  assert (Hco : currentRoom seated bob = Some (room1, 0%nat, roomOf seated room1))
    by (vm_compute; reflexivity).
  assert (Hseat : seatHeld (roomOf seated room1) alice = Some SWhite)
    by (vm_compute; reflexivity).
  assert (Hoseat : seatHeld (roomOf seated room1) bob = Some (opponent SWhite))
    by (vm_compute; reflexivity).
  assert (Hne : bob <> []) by (vm_compute; discriminate).
  assert (Hdue : 10000 + gracePeriod <= 40000) by (vm_compute; discriminate).
  repeat (split; [assumption|]).
  exact (proj1 (draw_offer_during_and_after_grace seated alice bob room1 0%nat
                  (roomOf seated room1) SWhite 10000 40000
                  Hc Hco Hseat Hoseat Hne Hdue)).
Defined.

(** A reset after white's first move: the position is the initial one
    again, while [currentPlayer] still says black; white's next move is
    the only record. *)
Lemma reset_witness :
  currentRoom afterE4 alice = Some (room1, 0%nat, roomOf afterE4 room1)
  /\ seatHeld (roomOf afterE4 room1) alice <> None
  /\ currentPlayer (roomOf afterE4 room1) = cb
  /\ (exists room',
        currentRoom (onResetGame alice afterE4).1 alice = Some (room1, 0%nat, room')
        /\ chess room' = newChess /\ moveHistory room' = []
        /\ currentPlayer room' = cb)
  /\ exists room'',
       roomAt (run [InResetGame alice; InMove alice e4 9000] afterE4).1 room1
       = Some (0%nat, room'')
       /\ length (moveHistory room'') = 1%nat.
Proof.
  assert (Hc : currentRoom afterE4 alice
               = Some (room1, 0%nat, roomOf afterE4 room1))
    by (vm_compute; reflexivity).
  assert (Hheld : seatHeld (roomOf afterE4 room1) alice <> None)
    by (vm_compute; discriminate).
  assert (Hturn : currentPlayer (roomOf afterE4 room1) = cb)
    by (vm_compute; reflexivity).
  repeat (split; [assumption|]).
  destruct (proj2 (reset_starts_game_over afterE4 alice room1 0%nat
                     (roomOf afterE4 room1) Hc) Hheld)
    as [(room' & Hroom & Hchess & Hmoves & Hplayer & _) Hnext].
  split.
  - exists room'. split; [exact Hroom|]. split; [exact Hchess|].
    split; [exact Hmoves|]. rewrite Hplayer. exact Hturn.
  - destruct (Hnext alice e4 9000
                {| Stub.toMove := cb; Stub.status := Stub.Playing;
                   Stub.plies := 1 |}
                {| san := js "e4"; color := cw |} Hc)
      as (room'' & Hroom'' & _ & Hhist);
      [vm_compute; reflexivity|vm_compute; reflexivity|].
    exists room''. split; [exact Hroom''|]. rewrite Hhist. reflexivity.
Defined.

(** carol, a spectator of TEST-1, sends a chat message: it is refused and
    counted. *)
Lemma chat_attempts_witness :
  currentRoom watched carol <> None
  /\ rateLimits (onChatMessage carol (JStr (js "hi")) 5000 0 watched).1
       !! rateKey carol (js "chat")
     = Some {| count := 1; resetTime := 35000 |}
  /\ (onChatMessage carol (JStr (js "hi")) 5000 0 watched).2
     = [(ToSocket carol, EvChatError "Only players can send messages")].
Proof.
  assert (Hc : currentRoom watched carol <> None) by (vm_compute; discriminate).
  split; [exact Hc|].
  destruct (proj2 (chat_attempts_counted_before_checks watched carol
                     (JStr (js "hi")) 5000 0) Hc) as (Htable & _ & Hrole).
  split.
  - rewrite Htable. vm_compute; reflexivity.
  - apply (Hrole ltac:(vm_compute; reflexivity) room1 0%nat
             (roomOf watched room1));
      vm_compute; reflexivity.
Defined.

(** The role [viewer] is refused. *)
Lemma join_refuses_viewer_witness :
  JStr (js "viewer") <> JStr (js "white")
  /\ JStr (js "viewer") <> JStr (js "black")
  /\ JStr (js "viewer") <> JStr (js "spectator")
  /\ onJoinRoom carol (JStr room1) (JStr (js "viewer")) 1000 (js "token-s") seated
     = (seated, [(ToSocket carol, EvError "Invalid role specified")]).
Proof.
  assert (Hw : JStr (js "viewer") <> JStr (js "white"))
    by (vm_compute; discriminate).
  assert (Hb : JStr (js "viewer") <> JStr (js "black"))
    by (vm_compute; discriminate).
  assert (Hs : JStr (js "viewer") <> JStr (js "spectator"))
    by (vm_compute; discriminate).
  repeat (split; [assumption|]).
  exact (join_refuses_roles_outside_three seated carol (js "token-s")
           (JStr room1) (JStr (js "viewer")) 1000 Hw Hb Hs).
Defined.

(** The lower-case id [test-1] is valid. *)
Lemma validateRoomId_witness :
  toUpperCase (js "test-1") = map asciiUpper (js "test-1")
  /\ validateRoomId (JStr (js "test-1")) = true.
Proof.
  assert (Hup : toUpperCase (js "test-1") = map asciiUpper (js "test-1"))
    by reflexivity.
  split; [exact Hup|].
  apply (proj2 (validateRoomId_letters_digits_hyphen (js "test-1") Hup)).
  split; [vm_compute; lia|].
  repeat constructor.
Defined.

(** Two connections, then three disconnections: the peak is two and the
    active connections stop at zero. *)
Lemma monitor_counters_witness :
  Monitor.activeConnections (Monitor.metrics (Monitor.recordAll calls (Monitor.create 0))) = 0
  /\ Monitor.peakConnections (Monitor.metrics (Monitor.recordAll calls (Monitor.create 0))) = 2
  /\ Monitor.requests (Monitor.metrics (Monitor.recordAll calls (Monitor.create 0))) = 1
  /\ Monitor.errors (Monitor.metrics (Monitor.recordAll calls (Monitor.create 0))) = 1.
Proof.
  destruct (MonitorProperties.monitor_counters calls 0)
    as (_ & Hpeak & _ & Hreq & Herr & _).
  split; [reflexivity|]. split; [exact Hpeak|]. split; [exact Hreq|exact Herr].
Defined.

(** 93 784 s are 1 d 2 h 3 min 4 s. *)
Lemma uptime_witness :
  0 <= 93784
  /\ Monitor.uptimeFields 93784 = (1, 2, 3, 4)
  /\ Monitor.partsTotal (Monitor.uptimeParts 93784) = 93784
  /\ Monitor.formatUptime 93784 = js "1d 2h 3m 4s".
Proof.
  assert (Hpos : 0 <= 93784) by lia.
  split; [exact Hpos|]. split; [reflexivity|].
  split; [|vm_compute; reflexivity].
  pose proof (MonitorProperties.uptime_parts_add_up 93784 Hpos) as Hparts.
  change (Monitor.uptimeFields 93784) with (1, 2, 3, 4) in Hparts.
  exact (proj1 (proj2 (proj2 (proj2 (proj2 (proj2 Hparts)))))).
Defined.

(** The tags of the text are removed and the space one of them shielded
    stays; sanitizing the result again trims it. A value that is not a
    string is sanitized to the empty string. *)
Lemma sanitizeInput_witness :
  Client.sanitizeInput (JStr tagged) 200 = js " hi"
  /\ ~ Client.hasTag (js " hi")
  /\ Client.sanitizeInput (JStr (js " hi")) 200 = js "hi"
  /\ (forall s, JUndefined <> JStr s)
  /\ Client.sanitizeInput JUndefined 200 = [].
Proof.
  assert (Hout : Client.sanitizeInput (JStr tagged) 200 = js " hi")
    by (vm_compute; reflexivity).
  assert (Hne : forall s, JUndefined <> JStr s) by discriminate.
  destruct (ClientProperties.sanitizeInput_bounded_and_tag_free (JStr tagged) 200)
    as (_ & Hno & _ & Hagain & _).
  rewrite Hout in Hno, Hagain.
  split; [exact Hout|]. split; [exact Hno|]. split; [exact Hagain|].
  split; [exact Hne|].
  exact (proj2 (proj2 (proj2 (proj2 (proj2
           (ClientProperties.sanitizeInput_bounded_and_tag_free JUndefined 200)))))
           Hne).
Defined.

(** The square of row 6, column 4 is e2, and the piece on it is found. *)
Lemma getPieceAt_witness :
  0 <= 6 < 8 /\ 0 <= 4 < 8
  /\ Client.squareName 6 4 = js "e2"
  /\ Client.getPieceAt board (Client.squareName 6 4) = Some 1%nat.
Proof.
  assert (Hrow : 0 <= 6 < 8) by lia.
  assert (Hcol : 0 <= 4 < 8) by lia.
  split; [exact Hrow|]. split; [exact Hcol|]. split; [vm_compute; reflexivity|].
  exact (ClientProperties.getPieceAt_squareName board 6 4 Hrow Hcol).
Defined.
